(** * Softmax classifier and fully-connected network models

    A shallow embedding of

    - [CNNVR/classifiers/softmax.py]: [softmax_loss_naive] and
      [softmax_loss_vectorized];
    - [cs231n/2016/assignment2/cs231n/classifiers/fc_net.py]: the classes
      [TwoLayerNet] and [FullyConnectedNet].

    Arrays hold real numbers (exact arithmetic); Python exceptions are
    results of type [res]. *)

From stdpp Require Import gmap strings list fin_maps pretty.
From Stdlib Require Import Reals Lra Lia ZArith.

(** ** Python exceptions *)

Inductive exn : Type :=
  | ValueError (msg : string)
  | IndexError
  | KeyError (key : string)
  | ZeroDivisionError
  | TypeError
  | AttributeError.

Inductive res (A : Type) : Type :=
  | Raise (e : exn)
  | Ok (a : A).
Arguments Raise {A} e.
Arguments Ok {A} a.

Definition bind {A B : Type} (m : res A) (k : A -> res B) : res B :=
  match m with
  | Raise e => Raise e
  | Ok a => k a
  end.

Declare Scope py_scope.
Delimit Scope py_scope with py.
Notation "'let*' x ':=' m 'in' k" := (bind m (fun x => k))
  (at level 10, x name, m at level 100, k at level 200) : py_scope.
Notation "'let*' ' p ':=' m 'in' k" := (bind m (fun x => let 'p := x in k))
  (at level 10, p pattern, m at level 100, k at level 200) : py_scope.

Definition raises {A : Type} (m : res A) : Prop := exists e, m = Raise e.

(** [for i in l: s = body(i, s)], stopping at the first exception. *)
Fixpoint for_in {A S : Type} (l : list A) (body : A -> S -> res S) (s : S)
  : res S :=
  match l with
  | [] => Ok s
  | i :: l' => bind (body i s) (for_in l' body)
  end.

Definition range (n : nat) : list nat := seq 0 n.

(** ** softmax.py *)

Module Softmax.
Local Open Scope R_scope.
Local Open Scope py_scope.

(** The entries of an array are real numbers: the definitions below are the
    computations of softmax.py in exact arithmetic.  The rounding of IEEE
    doubles and the overflow and underflow of [exp] are not represented, so
    a statement about the values of a loss or a gradient is a statement in
    exact arithmetic; what is raised, and where, does not depend on it. *)

(** A one-dimensional float array: its length and its entries. *)
Record vector : Type := mkvec { size : nat; item : nat -> R }.

(** A two-dimensional float array of shape [(shape0, shape1)]. *)
Record matrix : Type := mkmat { shape0 : nat; shape1 : nat; at2 : nat -> nat -> R }.

(** Left-to-right sum of [f 0 .. f (n-1)]. *)
Fixpoint sum_upto (f : nat -> R) (n : nat) : R :=
  match n with
  | O => 0
  | S k => sum_upto f k + f k
  end.

(** [np.sum(v)] and [np.sum(m)] (all entries). *)
Definition np_sum (v : vector) : R := sum_upto (item v) (size v).
Definition np_sum2 (m : matrix) : R :=
  sum_upto (fun i => sum_upto (at2 m i) (shape1 m)) (shape0 m).

(** [np.sum(m, axis=1)]: one sum per row. *)
Definition np_sum_axis1 (m : matrix) : vector :=
  mkvec (shape0 m) (fun i => sum_upto (at2 m i) (shape1 m)).

(** Maximum of [f 0 .. f n]. *)
Fixpoint max_upto (f : nat -> R) (n : nat) : R :=
  match n with
  | O => f O
  | S k => Rmax (max_upto f k) (f (S k))
  end.

Definition empty_max : exn :=
  ValueError "zero-size array to reduction operation maximum which has no identity".

(** [np.max(v)]: raises on an empty array. *)
Definition np_max (v : vector) : res R :=
  match size v with
  | O => Raise empty_max
  | S n => Ok (max_upto (item v) n)
  end.

(** [np.max(m)] without an axis: the maximum of the flattened array. *)
Definition np_max2 (m : matrix) : res R :=
  match shape0 m, shape1 m with
  | S n, S c => Ok (max_upto (fun i => max_upto (at2 m i) c) n)
  | _, _ => Raise empty_max
  end.

Definition not_aligned : exn := ValueError "shapes not aligned".

(** [X[i, :]]. *)
Definition row (X : matrix) (i : nat) : vector := mkvec (shape1 X) (at2 X i).

(** [x.dot(W)] for a vector [x] and a matrix [W]. *)
Definition vec_dot (x : vector) (W : matrix) : res vector :=
  if Nat.eqb (size x) (shape0 W)
  then Ok (mkvec (shape1 W)
             (fun j => sum_upto (fun d => item x d * at2 W d j) (size x)))
  else Raise not_aligned.

(** [np.dot(A, B)] for two matrices. *)
Definition np_dot (A B : matrix) : res matrix :=
  if Nat.eqb (shape1 A) (shape0 B)
  then Ok (mkmat (shape0 A) (shape1 B)
             (fun i j => sum_upto (fun d => at2 A i d * at2 B d j) (shape1 A)))
  else Raise not_aligned.

(** [X.T]. *)
Definition transpose (X : matrix) : matrix :=
  mkmat (shape1 X) (shape0 X) (fun d i => at2 X i d).

Definition vec_map (g : R -> R) (v : vector) : vector :=
  mkvec (size v) (fun k => g (item v k)).
Definition mat_map (g : R -> R) (m : matrix) : matrix :=
  mkmat (shape0 m) (shape1 m) (fun i j => g (at2 m i j)).
Definition mat_zip (g : R -> R -> R) (a b : matrix) : matrix :=
  mkmat (shape0 a) (shape1 a) (fun i j => g (at2 a i j) (at2 b i j)).

(** [np.zeros_like(m)]. *)
Definition zeros_like (m : matrix) : matrix :=
  mkmat (shape0 m) (shape1 m) (fun _ _ => 0).

(** Python indexing of an axis of length [n] with a possibly negative
    integer. *)
Definition py_index (n : nat) (k : Z) : res nat :=
  if ((0 <=? k) && (k <? Z.of_nat n))%Z then Ok (Z.to_nat k)
  else if ((- Z.of_nat n <=? k) && (k <? 0))%Z then Ok (Z.to_nat (k + Z.of_nat n))
  else Raise IndexError.

(** The value of a Python [bool] used as a number. *)
Definition bool_num (b : bool) : R := if b then 1 else 0.

(** [dW[:, j] += v]. *)
Definition col_iadd (dW : matrix) (j : nat) (v : nat -> R) : matrix :=
  mkmat (shape0 dW) (shape1 dW)
    (fun d c => if Nat.eqb c j then at2 dW d c + v d else at2 dW d c).

(** The label array [y] has shape [(N,)]; it is given by its index
    function on [range(N)]. *)
Definition labels : Type := nat -> Z.

(** Body of the loop over [i] of [softmax_loss_naive] (lines 32-47). *)
Definition naive_step (W X : matrix) (y : labels) (i : nat)
    (st : R * matrix) : res (R * matrix) :=
  let '(loss, dW) := st in
  let num_classes := shape1 W in
  let* f_scores := vec_dot (row X i) W in
  let* f_max := np_max f_scores in
  let f_scores := vec_map (fun s => s - f_max) f_scores in
  let* k := py_index (size f_scores) (y i) in
  let loss := loss + (- item f_scores k + ln (np_sum (vec_map exp f_scores))) in
  let dW :=
    fold_left
      (fun dW j =>
         col_iadd dW j
           (fun d => at2 X i d * (-1 * bool_num (Z.eqb (Z.of_nat j) (y i)))
                     + exp (item f_scores j) / np_sum (vec_map exp f_scores)))
      (range num_classes) dW in
  Ok (loss, dW).

(** [softmax_loss_naive(W, X, y, reg)]. *)
Definition softmax_loss_naive (W X : matrix) (y : labels) (reg : R)
  : res (R * matrix) :=
  let loss := 0 in
  let dW := zeros_like W in
  let num_train := shape0 X in
  let* '(loss, dW) := for_in (range num_train) (naive_step W X y) (loss, dW) in
  (* [loss /= num_train]: with an empty batch [loss] is still the Python
     float 0.0 and the division raises. *)
  let* loss := (if Nat.eqb num_train 0 then Raise ZeroDivisionError
           else Ok (loss / INR num_train)) in
  let dW := mat_map (fun g => g / INR num_train) dW in
  let loss := loss + 0.5 * reg * np_sum2 (mat_zip Rmult W W) in
  let dW := mat_zip Rplus dW (mat_map (Rmult reg) W) in
  Ok (loss, dW).

(** [m[np.arange(n), y]]: the column indices, normalised. *)
Fixpoint label_indices (c : nat) (y : labels) (n : nat) : res (list nat) :=
  match n with
  | O => Ok []
  | S n' =>
      let* ks := label_indices c y n' in
      let* k := py_index c (y n') in
      Ok (ks ++ [k])
  end.

(** [softmax_loss_vectorized(W, X, y, reg)]. *)
Definition softmax_loss_vectorized (W X : matrix) (y : labels) (reg : R)
  : res (R * matrix) :=
  let num_train := shape0 X in
  let* f := np_dot X W in
  let* f_max := np_max2 f in
  let f := mat_map (fun s => s - f_max) f in
  let scores := mat_map exp f in
  let scores_sums := np_sum_axis1 scores in
  let* ks := label_indices (shape1 scores) y num_train in
  let f_correct := mkvec num_train (fun i => at2 f i (nth i ks O)) in
  let loss :=
    np_sum (mkvec num_train
              (fun i => - item f_correct i + ln (item scores_sums i))) in
  let sum := mkmat (shape0 scores) (shape1 scores)
               (fun i j => at2 scores i j / item scores_sums i) in
  let bi_matrix := mkmat (shape0 scores) (shape1 scores)
               (fun i j => if Nat.eqb j (nth i ks O) then -1 else 0) in
  let sum := mat_zip Rplus sum bi_matrix in
  let* dW := np_dot (transpose X) sum in
  let loss := loss / INR num_train in
  let loss := loss + 0.5 * reg * np_sum2 (mat_zip Rmult W W) in
  let dW := mat_map (fun g => g / INR num_train) dW in
  let dW := mat_zip Rplus dW (mat_map (Rmult reg) W) in
  Ok (loss, dW).

(** *** Quantities named by the specification *)

(** The raw class score [f[i, j]] of example [i]: row [i] of [X.dot(W)]. *)
Definition score (W X : matrix) (i j : nat) : R :=
  sum_upto (fun d => at2 X i d * at2 W d j) (shape1 X).

(** The shift used by the looped version: the maximum of row [i]. *)
Definition row_max (W X : matrix) (i : nat) : R :=
  max_upto (score W X i) (pred (shape1 W)).

(** The shift used by the vectorized version: the maximum of all scores. *)
Definition global_max (W X : matrix) : R :=
  max_upto (fun i => max_upto (score W X i) (pred (shape1 W))) (pred (shape0 X)).

Definition shifted_naive (W X : matrix) (i j : nat) : R :=
  score W X i j - row_max W X i.
Definition shifted_vectorized (W X : matrix) (i j : nat) : R :=
  score W X i j - global_max W X.

(** [-s[i, y[i]] + log(sum_j exp(s[i, j]))] for a score table [s] with [C]
    columns. *)
Definition row_loss (s : nat -> nat -> R) (C : nat) (y : labels) (i : nat) : R :=
  - s i (Z.to_nat (y i)) + ln (sum_upto (fun j => exp (s i j)) C).

(** The mean of the per-row losses over [N] rows. *)
Definition mean_loss (s : nat -> nat -> R) (N C : nat) (y : labels) : R :=
  sum_upto (row_loss s C y) N / INR N.

(** [0.5 * reg * sum(W * W)]. *)
Definition reg_loss (reg : R) (W : matrix) : R :=
  0.5 * reg * np_sum2 (mat_zip Rmult W W).

(** [exp(s[i, j]) / sum_k exp(s[i, k])]. *)
Definition softmax_prob (s : nat -> nat -> R) (C : nat) (i j : nat) : R :=
  exp (s i j) / sum_upto (fun k => exp (s i k)) C.

(** [1{j == y[i]}]. *)
Definition indicator (y : labels) (i j : nat) : R :=
  bool_num (Z.eqb (Z.of_nat j) (y i)).

(** [(softmax_prob[i, j] - 1{j == y[i]}) / N]. *)
Definition d_scores (s : nat -> nat -> R) (N C : nat) (y : labels) (i j : nat) : R :=
  (softmax_prob s C i j - indicator y i j) / INR N.

(** Entry [(d, j)] of [X^T . d_scores + reg * W]. *)
Definition spec_grad (W X : matrix) (y : labels) (reg : R)
    (s : nat -> nat -> R) (d j : nat) : R :=
  sum_upto (fun i => at2 X i d * d_scores s (shape0 X) (shape1 W) y i j) (shape0 X)
  + reg * at2 W d j.

(** The labels are class indices: [0 <= y[i] < C] for every row of [X]. *)
Definition labels_in_range (W X : matrix) (y : labels) : Prop :=
  forall i, (i < shape0 X)%nat -> (0 <= y i < Z.of_nat (shape1 W))%Z.

(** *** The looped implementation, one iteration at a time *)

(** What one pass of the inner loop over [j] (line 47) adds to [dW[d, j]]. *)
Definition naive_term (W X : matrix) (y : labels) (i d j : nat) : R :=
  at2 X i d * (-1 * indicator y i j)
  + softmax_prob (shifted_naive W X) (shape1 W) i j.

(** The state [(loss, dW)] after iteration [i] of the loop over the rows,
    when no exception is raised. *)
Definition naive_next (W X : matrix) (y : labels) (i : nat) (st : R * matrix)
  : R * matrix :=
  (fst st + row_loss (shifted_naive W X) (shape1 W) y i,
   fold_left (fun dW j => col_iadd dW j (fun d => naive_term W X y i d j))
     (range (shape1 W)) (snd st)).

(** The function returns normally with loss [l]. *)
Definition returns_loss (r : res (R * matrix)) (l : R) : Prop :=
  exists dW, r = Ok (l, dW).

(** Example inputs: scenario 1 of the specification ([W] is 2x3 zeros, one
    example [[1, 1]] of class 0), and a one-feature one-class batch. *)
Definition W_zeros23 : matrix := mkmat 2 3 (fun _ _ => 0).
Definition X_ones12 : matrix := mkmat 1 2 (fun _ _ => 1).
Definition y_zero : labels := fun _ => 0%Z.
Definition W_zero11 : matrix := mkmat 1 1 (fun _ _ => 0).
Definition X_two11 : matrix := mkmat 1 1 (fun _ _ => 2).
Definition X_empty : matrix := mkmat 0 2 (fun _ _ => 0).

(** *** Labels as numpy indexes them *)

(** The labels numpy accepts as column indices: [-C <= y[i] < C]. *)
Definition labels_indexable (W X : matrix) (y : labels) : Prop :=
  forall i, (i < shape0 X)%nat ->
    (- Z.of_nat (shape1 W) <= y i < Z.of_nat (shape1 W))%Z.

(** A negative label counted from the last class. *)
Definition wrap_labels (C : nat) (y : labels) : labels :=
  fun i => if (y i <? 0)%Z then (y i + Z.of_nat C)%Z else y i.

(** Some row of the batch has a label outside [-C, C). *)
Definition label_out_of_bounds (W X : matrix) (y : labels) : Prop :=
  exists i, (i < shape0 X)%nat
    /\ ((y i < - Z.of_nat (shape1 W))%Z \/ (Z.of_nat (shape1 W) <= y i)%Z).

(** Every entry of [W] is zero. *)
Definition all_zero (W : matrix) : Prop :=
  forall d j, (d < shape0 W)%nat -> (j < shape1 W)%nat -> at2 W d j = 0.

(** More example inputs: a batch whose rows have three features, the label
    5 and the label -1 for every row. *)
Definition X_ones13 : matrix := mkmat 1 3 (fun _ _ => 1).
Definition y_five : labels := fun _ => 5%Z.
Definition y_last : labels := fun _ => (-1)%Z.

(** A weight matrix for two features and no class. *)
Definition W_no_class : matrix := mkmat 2 0 (fun _ _ => 0).

End Softmax.

(** ** fc_net.py *)

(** *** The numpy arrays and calls the classes use *)

Module Numpy.
Local Open Scope R_scope.
Local Open Scope py_scope.

(** Sizes are integers without a bound and arrays hold real numbers: the
    limit numpy puts on a dimension and the memory of the machine are not
    represented, so the one error of an array constructor here is the one
    for a negative size.  What is proved of a constructed model (a
    construction that returned) does not depend on it.  A lemma that names
    the error of an array constructor, or says that a construction returns,
    is a lemma about sizes numpy can hold. *)

(** An array: its shape and its entries in row-major order. *)
Record ndarray : Type := mkarr { shape : list nat; data : list R }.

(** A datatype is the conversion [astype] applies to every entry. *)
Record dtype : Type := mkdtype { cast : R -> R }.

(** The datatype of exact arithmetic. *)
Definition exact : dtype := mkdtype (fun x => x).

(** [a.astype(dt)]. *)
Definition astype (dt : dtype) (a : ndarray) : ndarray :=
  mkarr (shape a) (map (cast dt) (data a)).

Definition negative_dims : exn := ValueError "negative dimensions are not allowed".

(** [np.zeros(d)] and [np.ones(d)]. *)
Definition np_zeros (d : Z) : res ndarray :=
  if (d <? 0)%Z then Raise negative_dims
  else Ok (mkarr [Z.to_nat d] (repeat 0 (Z.to_nat d))).
Definition np_ones (d : Z) : res ndarray :=
  if (d <? 0)%Z then Raise negative_dims
  else Ok (mkarr [Z.to_nat d] (repeat 1 (Z.to_nat d))).

(** The state of numpy's global generator: the samples it will hand out,
    uniform on [0, 1) for [rand] and standard normal for [randn], and the
    number of samples consumed so far. *)
Record RandomState : Type :=
  mkrng { uniform : nat -> R; standard_normal : nat -> R; consumed : nat }.

Definition advance (g : RandomState) (n : nat) : RandomState :=
  mkrng (uniform g) (standard_normal g) (consumed g + n).

(** [np.random.rand(d0, d1)]. *)
Definition np_random_rand (g : RandomState) (d0 d1 : Z)
  : res (ndarray * RandomState) :=
  if ((d0 <? 0) || (d1 <? 0))%Z then Raise negative_dims
  else
    let n := (Z.to_nat d0 * Z.to_nat d1)%nat in
    Ok (mkarr [Z.to_nat d0; Z.to_nat d1] (map (uniform g) (seq (consumed g) n)),
        advance g n).

(** [np.random.randn(d0, d1)]. *)
Definition np_random_randn (g : RandomState) (d0 d1 : Z)
  : res (ndarray * RandomState) :=
  if ((d0 <? 0) || (d1 <? 0))%Z then Raise negative_dims
  else
    let n := (Z.to_nat d0 * Z.to_nat d1)%nat in
    Ok (mkarr [Z.to_nat d0; Z.to_nat d1]
          (map (standard_normal g) (seq (consumed g) n)),
        advance g n).

(** [c * a] for a scalar [c]. *)
Definition scale (c : R) (a : ndarray) : ndarray :=
  mkarr (shape a) (map (Rmult c) (data a)).

(** [np.sum(a)]. *)
Definition np_sum (a : ndarray) : R := fold_left Rplus (data a) 0.

(** [a ** 2] and [a * a]. *)
Definition square (a : ndarray) : ndarray :=
  mkarr (shape a) (map (fun x => x ^ 2) (data a)).
Definition times_self (a : ndarray) : ndarray :=
  mkarr (shape a) (map (fun x => x * x) (data a)).

(** [np.prod(dims)]. *)
Definition np_prod (dims : list nat) : nat := fold_right Nat.mul 1%nat dims.

(** [a.shape[0]]. *)
Definition shape0 (a : ndarray) : res nat :=
  match shape a with
  | [] => Raise IndexError
  | n :: _ => Ok n
  end.

Definition cannot_reshape : exn := ValueError "cannot reshape array".

(** [a.reshape(n, d)]; [d = -1] asks numpy to infer the dimension. *)
Definition reshape2 (a : ndarray) (n : nat) (d : Z) : res ndarray :=
  let sz := np_prod (shape a) in
  if (d <? -1)%Z then Raise cannot_reshape
  else if (d =? -1)%Z then
    if Nat.eqb n 0 || negb (Nat.eqb (sz mod n) 0) then Raise cannot_reshape
    else Ok (mkarr [n; (sz / n)%nat] (data a))
  else if Nat.eqb (n * Z.to_nat d) sz then Ok (mkarr [n; Z.to_nat d] (data a))
  else Raise cannot_reshape.

(** [l[i]] on a Python list, [d[k]] on a dict. *)
Definition list_get {A : Type} (l : list A) (i : nat) : res A :=
  match l !! i with
  | Some x => Ok x
  | None => Raise IndexError
  end.
Definition dict_get {A : Type} (d : gmap string A) (k : string) : res A :=
  match d !! k with
  | Some x => Ok x
  | None => Raise (KeyError k)
  end.

(** [str(n)]. *)
Definition str (n : nat) : string := pretty n.

(** The characters ['0'] to ['9']. *)
Definition digit (c : Ascii.ascii) : Prop :=
  (48 <= Ascii.nat_of_ascii c <= 57)%nat.

(** [s[0] == c], [s[:2]] and [s[1:]] on a string. *)
Definition first_is (c : string) (s : string) : res bool :=
  match s with
  | EmptyString => Raise IndexError
  | String a _ => Ok (String.eqb (String a EmptyString) c)
  end.
Definition prefix2 (s : string) : string := String.substring 0 2 s.
Definition tail (s : string) : string :=
  match s with
  | EmptyString => EmptyString
  | String _ s' => s'
  end.

End Numpy.

(** *** The layer functions of [cs231n.layers] and [cs231n.layer_utils]

    [fc_net.py] imports them; they are not part of the file. Each returns
    its documented tuple or raises. The addition of two arrays follows
    numpy's broadcasting rules and is a parameter as well. *)

Record Layers : Type := {
  cache : Type;
  affine_forward : Numpy.ndarray -> Numpy.ndarray -> Numpy.ndarray
                   -> res (Numpy.ndarray * cache);
  affine_relu_forward : Numpy.ndarray -> Numpy.ndarray -> Numpy.ndarray
                   -> res (Numpy.ndarray * cache);
  affine_backward : Numpy.ndarray -> cache
                   -> res (Numpy.ndarray * Numpy.ndarray * Numpy.ndarray);
  affine_relu_backward : Numpy.ndarray -> cache
                   -> res (Numpy.ndarray * Numpy.ndarray * Numpy.ndarray);
  softmax_loss : Numpy.ndarray -> list Z -> res (R * Numpy.ndarray);
  ndarray_add : Numpy.ndarray -> Numpy.ndarray -> res Numpy.ndarray
}.

(** What [loss] returns: the scores when [y] is None, else the loss and
    the dictionary of gradients. *)
Inductive output : Type :=
  | Scores (scores : Numpy.ndarray)
  | LossGrads (loss : R) (grads : gmap string Numpy.ndarray).

(** *** class TwoLayerNet *)

Module TwoLayerNet.
Import Numpy.
Local Open Scope R_scope.
Local Open Scope py_scope.

Record self : Type := mkself {
  params : gmap string ndarray;
  reg : R;
  D : Z;
  M : Z;
  C : Z
}.

(** [TwoLayerNet.__init__(input_dim, hidden_dim, num_classes, weight_scale,
    reg)], drawing from the generator [g]. *)
Definition init (g : RandomState) (input_dim hidden_dim num_classes : Z)
    (weight_scale reg : R) : res (self * RandomState) :=
  let params : gmap string ndarray := ∅ in
  let D := input_dim in
  let M := hidden_dim in
  let C := num_classes in
  let* '(r1, g) := np_random_randn g D M in
  let W1 := scale weight_scale r1 in
  let* b1 := np_zeros M in
  let* '(r2, g) := np_random_randn g M C in
  let W2 := scale weight_scale r2 in
  let* b2 := np_zeros C in
  let params :=
    list_to_map [("W1", W1); ("b1", b1); ("W2", W2); ("b2", b2)] ∪ params in
  Ok (mkself params reg D M C, g).

(** [TwoLayerNet.loss(X, y)]. *)
Definition loss (Ly : Layers) (s : self) (X : ndarray) (y : option (list Z))
  : res output :=
  let* W1 := dict_get (params s) "W1" in
  let* b1 := dict_get (params s) "b1" in
  let* W2 := dict_get (params s) "W2" in
  let* b2 := dict_get (params s) "b2" in
  let* N := shape0 X in
  let* X := reshape2 X N (D s) in
  let* '(hidden, cache_hidden) := affine_relu_forward Ly X W1 b1 in
  let* '(scores, cache_scores) := affine_forward Ly hidden W2 b2 in
  match y with
  | None => Ok (Scores scores)
  | Some y =>
      let* '(data_loss, dscores) := softmax_loss Ly scores y in
      let reg_loss := 0.5 * reg s * (np_sum (square W1) + np_sum (square W2)) in
      let loss := data_loss + reg_loss in
      let* '(dhidden, dW2, db2) := affine_backward Ly dscores cache_scores in
      let* dW2 := ndarray_add Ly dW2 (scale (reg s) W2) in
      let* '(dx, dW1, db1) := affine_relu_backward Ly dhidden cache_hidden in
      let* dW1 := ndarray_add Ly dW1 (scale (reg s) W1) in
      let grads : gmap string ndarray :=
        list_to_map [("W1", dW1); ("b1", db1); ("W2", dW2); ("b2", db2)] ∪ ∅ in
      Ok (LossGrads loss grads)
  end.

(** The same model with another regularization strength. *)
Definition with_reg (s : self) (r : R) : self :=
  mkself (params s) r (D s) (M s) (C s).

End TwoLayerNet.

(** *** class FullyConnectedNet *)

Module FullyConnectedNet.
Import Numpy.
Local Open Scope R_scope.
Local Open Scope py_scope.

(** The [hidden_dims] argument as a caller may pass it: a list or a tuple
    of integers, or an object without a length.  Lists with entries that are
    not integers are not represented. *)
Inductive pyarg : Type :=
  | PyList (l : list Z)
  | PyTuple (l : list Z)
  | PyInt (n : Z)
  | PyNone.

(** [len(a)]. *)
Definition py_len (a : pyarg) : res nat :=
  match a with
  | PyList l | PyTuple l => Ok (length l)
  | PyInt _ | PyNone => Raise TypeError
  end.

Definition not_a_list : exn := ValueError "hidden_dim has to be a list".

(** Values of the dictionaries [dropout_param] and [bn_params[k]]. *)
Inductive pval : Type :=
  | PStr (s : string)
  | PNum (x : R)
  | PInt (n : Z).
Inductive bnval : Type :=
  | BStr (s : string)
  | BArr (a : ndarray).

(** [self.bn_params]: the empty list, or a dictionary of dictionaries. *)
Inductive bn_params_t : Type :=
  | BnList
  | BnDict (d : gmap string (gmap string bnval)).

Record self : Type := mkself {
  use_batchnorm : bool;
  use_dropout : bool;
  reg : R;
  num_layers : nat;
  dtype_of : dtype;
  params : gmap string ndarray;
  L : nat;
  N : Z;
  C : Z;
  dropout_param : gmap string pval;
  bn_params : bn_params_t
}.

(** [x > y] on Python numbers. *)
Definition Rgtb (x y : R) : bool := if Rlt_dec y x then true else false.

(** One pass of the loop of lines 209-211. *)
Definition init_layer (dims : list Z) (weight_scale : R) (i : nat)
    (st : gmap string ndarray * gmap string ndarray * RandomState)
  : res (gmap string ndarray * gmap string ndarray * RandomState) :=
  let '(Ws, bs, g) := st in
  let* d0 := list_get dims i in
  let* d1 := list_get dims (i + 1) in
  let* '(r, g) := np_random_rand g d0 d1 in
  let Ws := <["W" +:+ str (i + 1) := scale weight_scale r]> Ws in
  let* z := np_zeros d1 in
  let bs := <["b" +:+ str (i + 1) := z]> bs in
  Ok (Ws, bs, g).

(** One entry of the dictionary comprehension of lines 235-239; the third
    entry reads [dims[i+i]]. *)
Definition init_bn_param (dims : list Z) (i : nat)
    (bn : gmap string (gmap string bnval)) : res (gmap string (gmap string bnval)) :=
  let* d1 := list_get dims (i + 1) in
  let* running_mean := np_zeros d1 in
  let* d2 := list_get dims (i + i) in
  let* running_var := np_zeros d2 in
  Ok (<["bn_param" +:+ str (i + 1) :=
          list_to_map [("mode", BStr "train");
                       ("running_mean", BArr running_mean);
                       ("running_var", BArr running_var)]]> bn).

(** One entry of [gammas] (with [np_ones]) or [betas] (with [np_zeros]). *)
Definition init_scale_shift (name : string) (fill : Z -> res ndarray)
    (dims : list Z) (i : nat) (d : gmap string ndarray) : res (gmap string ndarray) :=
  let* d1 := list_get dims (i + 1) in
  let* a := fill d1 in
  Ok (<[name +:+ str (i + 1) := a]> d).

(** [FullyConnectedNet.__init__(hidden_dims, input_dim, num_classes, dropout,
    use_batchnorm, reg, weight_scale, dtype, seed)], drawing from the
    generator [g]. *)
Definition init (g : RandomState) (hidden_dims : pyarg)
    (input_dim num_classes : Z) (dropout : R) (use_batchnorm : bool)
    (reg weight_scale : R) (dtype : dtype) (seed : option Z)
  : res (self * RandomState) :=
  let use_dropout := Rgtb dropout 0 in
  let* n := py_len hidden_dims in
  let num_layers := (1 + n)%nat in
  let params : gmap string ndarray := ∅ in
  let* hidden_dims :=
    match hidden_dims with
    | PyList l => Ok l
    | _ => Raise not_a_list
    end in
  let L := (length hidden_dims + 1)%nat in
  let N := input_dim in
  let C := num_classes in
  let dims := [N] ++ hidden_dims ++ [C] in
  let* '(Ws, bs, g) :=
    for_in (range (length dims - 1)) (init_layer dims weight_scale) (∅, ∅, g) in
  let params := bs ∪ (Ws ∪ params) in
  let dropout_param : gmap string pval :=
    if use_dropout then
      let dp : gmap string pval :=
        list_to_map [("mode", PStr "train"); ("p", PNum dropout)] in
      match seed with
      | Some sd => <["seed" := PInt sd]> dp
      | None => dp
      end
    else ∅ in
  let* '(bn_params, params) :=
    if use_batchnorm then
      let* bn := for_in (range (length dims - 2)) (init_bn_param dims) ∅ in
      let* gammas :=
        for_in (range (length dims - 2)) (init_scale_shift "gamma" np_ones dims) ∅ in
      let* betas :=
        for_in (range (length dims - 2)) (init_scale_shift "beta" np_zeros dims) ∅ in
      Ok (BnDict bn, gammas ∪ (betas ∪ params))
    else Ok (BnList, params) in
  let params := astype dtype <$> params in
  Ok (mkself use_batchnorm use_dropout reg num_layers dtype params L N C
        dropout_param bn_params, g).

(** Values of the dictionary [hiddens]: arrays and caches. *)
Inductive hval (Ly : Layers) : Type :=
  | HArr (a : ndarray)
  | HCache (c : cache Ly).
Arguments HArr {Ly} a.
Arguments HCache {Ly} c.

Definition as_arr {Ly : Layers} (v : hval Ly) : res ndarray :=
  match v with
  | HArr a => Ok a
  | HCache _ => Raise TypeError
  end.
Definition as_cache {Ly : Layers} (v : hval Ly) : res (cache Ly) :=
  match v with
  | HCache c => Ok c
  | HArr _ => Raise TypeError
  end.

(** Lines 261-265: the mode is written into [dropout_param], and under the
    key [mode] itself into every [bn_param]. *)
Definition set_dropout_mode (s : self) (mode : string) : self :=
  mkself (use_batchnorm s) (use_dropout s) (reg s) (num_layers s) (dtype_of s)
    (params s) (L s) (N s) (C s)
    (<["mode" := PStr mode]> (dropout_param s)) (bn_params s).

Definition set_bn_mode (s : self) (mode : string) : res self :=
  if use_batchnorm s then
    match bn_params s with
    | BnList => Raise AttributeError
    | BnDict d =>
        Ok (mkself (use_batchnorm s) (use_dropout s) (reg s) (num_layers s)
              (dtype_of s) (params s) (L s) (N s) (C s) (dropout_param s)
              (BnDict ((fun bn_param => <[mode := BStr mode]> bn_param) <$> d)))
    end
  else Ok s.

(** One pass of the forward loop (lines 284-297). *)
Definition forward_step (Ly : Layers) (s : self) (i : nat)
    (hiddens : gmap string (hval Ly)) : res (gmap string (hval Ly)) :=
  let idx := (i + 1)%nat in
  let* w := dict_get (params s) ("W" +:+ str idx) in
  let* b := dict_get (params s) ("b" +:+ str idx) in
  let* hidden := dict_get hiddens ("hidden" +:+ str (idx - 1)) in
  let* hidden := as_arr hidden in
  let* '(hidden, cache_hidden) :=
    if Nat.eqb idx (L s) then affine_forward Ly hidden w b
    else affine_relu_forward Ly hidden w b in
  let hiddens := <["hidden" +:+ str idx := HArr hidden]> hiddens in
  let hiddens := <["cache_hidden" +:+ str idx := HCache cache_hidden]> hiddens in
  Ok hiddens.

(** Lines 280-299: the forward pass, returning [hiddens] and the scores.
    [hidden0] is [X] reshaped to [(X.shape[0], np.prod(X.shape[1:]))], which
    holds as many entries as [X]. *)
Definition forward (Ly : Layers) (s : self) (X : ndarray)
  : res (gmap string (hval Ly) * ndarray) :=
  let* n := shape0 X in
  let hiddens : gmap string (hval Ly) :=
    <["hidden0" := HArr (mkarr [n; np_prod (List.tl (shape X))] (data X))]> ∅ in
  let* hiddens := for_in (range (L s)) (forward_step Ly s) hiddens in
  let* scores := dict_get hiddens ("hidden" +:+ str (L s)) in
  let* scores := as_arr scores in
  Ok (hiddens, scores).

(** One pass of the backward loop (lines 334-347). *)
Definition backward_step (Ly : Layers) (s : self) (i : nat)
    (hiddens : gmap string (hval Ly)) : res (gmap string (hval Ly)) :=
  let idx := (i + 1)%nat in
  let* dhidden := dict_get hiddens ("dhidden" +:+ str idx) in
  let* dhidden := as_arr dhidden in
  let* cache_hidden := dict_get hiddens ("cache_hidden" +:+ str idx) in
  let* cache_hidden := as_cache cache_hidden in
  let* '(dhidden, dW, db) :=
    if Nat.eqb idx (L s) then affine_backward Ly dhidden cache_hidden
    else affine_relu_backward Ly dhidden cache_hidden in
  let hiddens := <["dhidden" +:+ str (idx - 1) := HArr dhidden]> hiddens in
  let hiddens := <["dW" +:+ str idx := HArr dW]> hiddens in
  let hiddens := <["db" +:+ str idx := HArr db]> hiddens in
  Ok hiddens.

(** The list [[self.params[f] for f in self.params.keys() if f[0] == 'W']]. *)
Definition weights_of (params : gmap string ndarray) : res (list ndarray) :=
  for_in (map_to_list params).*1
    (fun f ws =>
       let* is_w := first_is "W" f in
       if is_w then
         let* w := dict_get params f in Ok (ws ++ [w])
       else Ok ws)
    [].

(** One entry of the comprehension [list_dW] (line 349). *)
Definition list_dW_entry (Ly : Layers) (s : self) (kv : string * hval Ly)
    (d : gmap string ndarray) : res (gmap string ndarray) :=
  let '(key, val) := kv in
  if String.eqb (prefix2 key) "dW" then
    let* val := as_arr val in
    let* w := dict_get (params s) (tail key) in
    let* g := ndarray_add Ly val (scale (reg s) w) in
    Ok (<[tail key := g]> d)
  else Ok d.

(** One entry of the comprehension [list_db] (line 351). *)
Definition list_db_entry (Ly : Layers) (kv : string * hval Ly)
    (d : gmap string ndarray) : res (gmap string ndarray) :=
  let '(key, val) := kv in
  if String.eqb (prefix2 key) "db" then
    let* val := as_arr val in
    Ok (<[tail key := val]> d)
  else Ok d.

(** Lines 324-359: loss and gradients from the scores and the labels. *)
Definition backward (Ly : Layers) (s : self) (hiddens : gmap string (hval Ly))
    (scores : ndarray) (y : list Z) : res output :=
  let grads : gmap string ndarray := ∅ in
  let* '(data_loss, dscores) := softmax_loss Ly scores y in
  let* ws := weights_of (params s) in
  let reg_loss :=
    fold_left (fun acc w => acc + 0.5 * reg s * np_sum (times_self w)) ws 0 in
  let loss := data_loss + reg_loss in
  let hiddens := <["dhidden" +:+ str (L s) := HArr dscores]> hiddens in
  let* hiddens := for_in (rev (range (L s))) (backward_step Ly s) hiddens in
  let* list_dW := for_in (map_to_list hiddens) (list_dW_entry Ly s) ∅ in
  let* list_db := for_in (map_to_list hiddens) (list_db_entry Ly) ∅ in
  let grads := list_db ∪ (list_dW ∪ grads) in
  Ok (LossGrads loss grads).

(** [FullyConnectedNet.loss(X, y)]: the object after the call and what the
    call returns or raises. *)
Definition loss (Ly : Layers) (s : self) (X : ndarray) (y : option (list Z))
  : self * res output :=
  let X := astype (dtype_of s) X in
  let mode : string := match y with None => "test" | Some _ => "train" end in
  let s := set_dropout_mode s mode in
  match set_bn_mode s mode with
  | Raise e => (s, Raise e)
  | Ok s =>
      (s,
       let* '(hiddens, scores) := forward Ly s X in
       match y with
       | None => Ok (Scores scores)
       | Some y => backward Ly s hiddens scores y
       end)
  end.

(** The keys of [hiddens] that start with dW or db are
    [dW1 .. dWn] and [db1 .. dbn]. *)
Definition gradient_keys_upto {V : Type} (n : nat) (h : gmap string V) : Prop :=
  forall key, is_Some (h !! key) ->
    (String.eqb (prefix2 key) "dW" = true ->
       exists j, (j < n)%nat /\ key = "dW" +:+ str (j + 1))
    /\ (String.eqb (prefix2 key) "db" = true ->
       exists j, (j < n)%nat /\ key = "db" +:+ str (j + 1)).

(** The keys [W1, b1, .., Wn, bn]. *)
Definition layer_key (n : nat) (k : string) : Prop :=
  exists j, (j < n)%nat /\ (k = "W" +:+ str (j + 1) \/ k = "b" +:+ str (j + 1)).

(** Every [bn_param] dictionary of the model has the entry
    ['mode': 'train']. *)
Definition bn_modes_train (s : self) : Prop :=
  exists d, bn_params s = BnDict d
    /\ forall k v, d !! k = Some v -> v !! "mode" = Some (BStr "train").

(** The same model with another regularization strength. *)
Definition with_reg (s : self) (r : R) : self :=
  mkself (use_batchnorm s) (use_dropout s) r (num_layers s) (dtype_of s)
    (params s) (L s) (N s) (C s) (dropout_param s) (bn_params s).

(** The specification's condition on [hidden_dims]: a proper sequence of
    positive integers. *)
Definition proper_positive_seq (a : pyarg) : Prop :=
  match a with
  | PyList l | PyTuple l => Forall (fun d => (0 < d)%Z) l
  | PyInt _ | PyNone => False
  end.

(** [hidden_dims] has a length but is not a list. *)
Definition sized_non_list (a : pyarg) : Prop := exists l, a = PyTuple l.

(** [hidden_dims] has no length. *)
Definition unsized (a : pyarg) : Prop := a = PyNone \/ exists n, a = PyInt n.

End FullyConnectedNet.

(** The sizes [[input_dim] + hidden_dims + [num_classes]] of a network. *)
Definition layer_dims (input_dim : Z) (hidden : list Z) (num_classes : Z) : list Z :=
  [input_dim] ++ hidden ++ [num_classes].

(** The number of samples the loop of lines 209-211 has drawn before it
    reaches layer [j + 1]: the sizes of the weight matrices of the layers
    before it. *)
Fixpoint samples_before (dims : list Z) (j : nat) : nat :=
  match j with
  | O => O
  | S i => (samples_before dims i
            + Z.to_nat (nth i dims 0%Z) * Z.to_nat (nth (S i) dims 0%Z))%nat
  end.

(** *** Example inputs *)

(** A generator that hands out the sample 1/2 from [rand] and 0 from
    [randn]. *)
Definition rng_half : Numpy.RandomState :=
  Numpy.mkrng (fun _ => (1 / 2)%R) (fun _ => 0%R) 0.

(** Layer functions that return arrays of zeros, for running the models. *)
Definition zero_layers : Layers := {|
  cache := unit;
  affine_forward := fun x w b => Ok (Numpy.mkarr [1%nat; 1%nat] [0%R], tt);
  affine_relu_forward := fun x w b => Ok (Numpy.mkarr [1%nat; 1%nat] [0%R], tt);
  affine_backward := fun dout c =>
    Ok (Numpy.mkarr [1%nat; 1%nat] [0%R], Numpy.mkarr [1%nat; 1%nat] [0%R],
        Numpy.mkarr [1%nat] [0%R]);
  affine_relu_backward := fun dout c =>
    Ok (Numpy.mkarr [1%nat; 1%nat] [0%R], Numpy.mkarr [1%nat; 1%nat] [0%R],
        Numpy.mkarr [1%nat] [0%R]);
  softmax_loss := fun x y => Ok (0%R, Numpy.mkarr [1%nat; 1%nat] [0%R]);
  ndarray_add := fun a b => Ok a
|}.

(** A batch of one example with one feature. *)
Definition X_one : Numpy.ndarray := Numpy.mkarr [1%nat; 1%nat] [1%R].

(** * Properties of softmax.py *)

Section SoftmaxFacts.
Import Softmax.
Local Open Scope R_scope.

(** ** Sums *)

Lemma sum_upto_ext (f g : nat -> R) (n : nat) :
  (forall k, (k < n)%nat -> f k = g k) -> sum_upto f n = sum_upto g n.
Proof.
  induction n as [|n IH]; intros Hfg; simpl; [reflexivity|].
  rewrite IH, Hfg by (intros; try apply Hfg; lia). reflexivity.
Qed.

Lemma sum_upto_plus (f g : nat -> R) (n : nat) :
  sum_upto (fun k => f k + g k) n = sum_upto f n + sum_upto g n.
Proof. induction n as [|n IH]; simpl; [lra|rewrite IH; lra]. Qed.

Lemma sum_upto_div (f : nat -> R) (c : R) (n : nat) :
  sum_upto (fun k => f k / c) n = sum_upto f n / c.
Proof.
  induction n as [|n IH]; simpl; unfold Rdiv in *; [lra|rewrite IH; lra].
Qed.

Lemma sum_upto_scal (f : nat -> R) (c : R) (n : nat) :
  sum_upto (fun k => f k * c) n = sum_upto f n * c.
Proof. induction n as [|n IH]; simpl; [lra|rewrite IH; lra]. Qed.

Lemma sum_upto_exp_pos (f : nat -> R) (n : nat) :
  (0 < n)%nat -> 0 < sum_upto (fun k => exp (f k)) n.
Proof.
  induction n as [|n IH]; intros Hn; [lia|]. simpl.
  pose proof (exp_pos (f n)) as Hp.
  destruct n as [|n]; [simpl; lra|].
  assert (0 < sum_upto (fun k => exp (f k)) (S n)) by (apply IH; lia). lra.
Qed.

(** Accumulating into a variable in a [for] loop computes the sum. *)
Lemma fold_left_accumulate (g : nat -> R) (n : nat) (a : R) :
  fold_left (fun acc k => acc + g k) (range n) a = a + sum_upto g n.
Proof.
  unfold range. induction n as [|n IH]; [simpl; lra|].
  rewrite seq_S, fold_left_app, IH. simpl. lra.
Qed.

(** ** Shift invariance of the per-row loss *)

Lemma sum_exp_shift (s : nat -> R) (c : R) (n : nat) :
  sum_upto (fun j => exp (s j - c)) n = sum_upto (fun j => exp (s j)) n * exp (- c).
Proof.
  rewrite <- sum_upto_scal. apply sum_upto_ext. intros k _.
  unfold Rminus. apply exp_plus.
Qed.

Lemma row_loss_shift (s : nat -> nat -> R) (c : nat -> R) (C : nat)
    (y : labels) (i : nat) :
  (0 < C)%nat ->
  row_loss (fun i j => s i j - c i) C y i = row_loss s C y i.
Proof.
  intros HC. unfold row_loss.
  rewrite (sum_exp_shift (s i) (c i) C).
  rewrite ln_mult by (try apply exp_pos; apply sum_upto_exp_pos; exact HC).
  rewrite ln_exp. lra.
Qed.

Lemma mean_loss_shift (s : nat -> nat -> R) (c : nat -> R) (N C : nat)
    (y : labels) :
  (0 < C)%nat ->
  mean_loss (fun i j => s i j - c i) N C y = mean_loss s N C y.
Proof.
  intros HC. unfold mean_loss. f_equal.
  apply sum_upto_ext. intros i _. apply row_loss_shift; exact HC.
Qed.

Lemma softmax_prob_shift (s : nat -> nat -> R) (c : nat -> R) (C i j : nat) :
  (0 < C)%nat ->
  softmax_prob (fun i j => s i j - c i) C i j = softmax_prob s C i j.
Proof.
  intros HC. unfold softmax_prob.
  rewrite (sum_exp_shift (s i) (c i) C).
  unfold Rminus. rewrite exp_plus.
  pose proof (sum_upto_exp_pos (s i) C HC). pose proof (exp_pos (- c i)).
  field. split; lra.
Qed.

(** ** Loops and exceptions *)

Lemma for_in_pure {S : Type} (body : nat -> S -> res S) (g : nat -> S -> S)
    (l : list nat) (s : S) :
  (forall i s', In i l -> body i s' = Ok (g i s')) ->
  for_in l body s = Ok (fold_left (fun s' i => g i s') l s).
Proof.
  revert s. induction l as [|i l IH]; intros s Hb; simpl; [reflexivity|].
  rewrite Hb by (left; reflexivity). simpl.
  apply IH. intros j s' Hj. apply Hb. right; exact Hj.
Qed.

Lemma py_index_in_range (n : nat) (k : Z) :
  (0 <= k < Z.of_nat n)%Z -> py_index n k = Ok (Z.to_nat k).
Proof.
  intros [H0 H1]. unfold py_index.
  apply Z.leb_le in H0. apply Z.ltb_lt in H1. rewrite H0, H1. reflexivity.
Qed.

Lemma label_indices_in_range (c : nat) (y : labels) (n : nat) :
  (forall i, (i < n)%nat -> (0 <= y i < Z.of_nat c)%Z) ->
  label_indices c y n = Ok (map (fun i => Z.to_nat (y i)) (range n)).
Proof.
  unfold range. induction n as [|n IH]; intros Hy; [reflexivity|].
  cbn [label_indices]. rewrite IH by (intros; apply Hy; lia).
  rewrite py_index_in_range by (apply Hy; lia).
  rewrite seq_S, map_app. reflexivity.
Qed.

Lemma nth_label_index (y : labels) (n i : nat) :
  (i < n)%nat -> nth i (map (fun i => Z.to_nat (y i)) (range n)) O = Z.to_nat (y i).
Proof.
  intros Hi. unfold range.
  rewrite (nth_indep _ O (Z.to_nat (y O))) by (rewrite length_map, length_seq; exact Hi).
  rewrite (map_nth (fun i => Z.to_nat (y i))), seq_nth by exact Hi. reflexivity.
Qed.

Lemma indicator_label (y : labels) (i j : nat) :
  (0 <= y i)%Z ->
  (if Nat.eqb j (Z.to_nat (y i)) then 1 else 0) = indicator y i j.
Proof.
  intros Hy. unfold indicator, bool_num.
  destruct (Nat.eqb_spec j (Z.to_nat (y i))) as [->|Hne].
  - rewrite Z2Nat.id, Z.eqb_refl by exact Hy. reflexivity.
  - destruct (Z.eqb_spec (Z.of_nat j) (y i)) as [Heq|_]; [|reflexivity].
    exfalso. apply Hne. rewrite <- Heq, Nat2Z.id. reflexivity.
Qed.

End SoftmaxFacts.

(** ** The looped implementation in closed form *)

Section NaiveClosedForm.
Import Softmax.
Local Open Scope R_scope.

Lemma fold_col_iadd (v : nat -> nat -> R) (C : nat) (dW : matrix) :
  let dW' := fold_left (fun dW j => col_iadd dW j (v j)) (range C) dW in
  shape0 dW' = shape0 dW /\ shape1 dW' = shape1 dW /\
  forall d c, at2 dW' d c = if (c <? C)%nat then at2 dW d c + v c d else at2 dW d c.
Proof.
  unfold range. induction C as [|C IH]; [simpl; auto|].
  rewrite seq_S, fold_left_app. cbn [fold_left Nat.add].
  destruct IH as (H0 & H1 & Hat). cbn zeta in *.
  split; [exact H0|]. split; [exact H1|].
  intros d c. cbn [col_iadd at2]. rewrite Hat.
  destruct (Nat.eqb_spec c C) as [->|Hne].
  - rewrite Nat.ltb_irrefl.
    destruct (Nat.ltb_spec C (S C)); [reflexivity|lia].
  - destruct (Nat.ltb_spec c C), (Nat.ltb_spec c (S C)); try lia; reflexivity.
Qed.

Lemma naive_step_ok (W X : matrix) (y : labels) (i : nat) (st : R * matrix) :
  shape1 X = shape0 W ->
  (0 <= y i < Z.of_nat (shape1 W))%Z ->
  naive_step W X y i st = Ok (naive_next W X y i st).
Proof.
  intros Hsh Hy. destruct st as [loss dW].
  unfold naive_step, vec_dot. cbn [row size item].
  rewrite Hsh, Nat.eqb_refl. cbn [bind].
  unfold np_max. cbn [size].
  destruct W as [D C w]. cbn [shape0 shape1] in *.
  destruct C as [|C]; [lia|]. cbn [bind vec_map size item].
  rewrite py_index_in_range by exact Hy. cbn [bind].
  unfold naive_next, naive_term, row_loss, softmax_prob, shifted_naive,
    row_max, score, np_sum, indicator.
  cbn [fst snd shape0 shape1 at2 size item vec_map pred].
  rewrite Hsh. reflexivity.
Qed.

Lemma naive_loop_closed (W X : matrix) (y : labels) (n : nat) (st : R * matrix) :
  let st' := fold_left (fun s i => naive_next W X y i s) (range n) st in
  fst st' = fst st + sum_upto (row_loss (shifted_naive W X) (shape1 W) y) n /\
  shape0 (snd st') = shape0 (snd st) /\ shape1 (snd st') = shape1 (snd st) /\
  forall d c, (c < shape1 W)%nat ->
    at2 (snd st') d c = at2 (snd st) d c + sum_upto (fun i => naive_term W X y i d c) n.
Proof.
  unfold range. induction n as [|n IH].
  - simpl. repeat split; intros; lra.
  - rewrite seq_S, fold_left_app. cbn [fold_left Nat.add].
    cbn zeta in *. destruct IH as (Hl & H0 & H1 & Hat).
    set (s := fold_left (fun s i => naive_next W X y i s) (seq 0 n) st) in *.
    unfold naive_next at 1 2 3 4. cbn [fst snd].
    pose proof (fold_col_iadd (fun j d => naive_term W X y n d j) (shape1 W) (snd s))
      as (G0 & G1 & Gat). cbn zeta in *.
    split; [rewrite Hl; simpl; lra|].
    split; [rewrite G0; exact H0|]. split; [rewrite G1; exact H1|].
    intros d c Hc. rewrite Gat.
    destruct (Nat.ltb_spec c (shape1 W)); [|lia].
    rewrite Hat by exact Hc. simpl. lra.
Qed.

(** The result of [softmax_loss_naive] on well-shaped input. *)
Lemma softmax_loss_naive_closed (W X : matrix) (y : labels) (reg : R) :
  (1 <= shape0 X)%nat ->
  shape1 X = shape0 W ->
  labels_in_range W X y ->
  exists dW,
    softmax_loss_naive W X y reg
    = Ok (mean_loss (shifted_naive W X) (shape0 X) (shape1 W) y + reg_loss reg W, dW)
    /\ shape0 dW = shape0 W /\ shape1 dW = shape1 W
    /\ forall d c, (c < shape1 W)%nat ->
         at2 dW d c
         = sum_upto (fun i => naive_term W X y i d c) (shape0 X) / INR (shape0 X)
           + reg * at2 W d c.
Proof.
  intros HN Hsh Hy. unfold softmax_loss_naive.
  rewrite (for_in_pure _ (naive_next W X y)).
  2:{ intros i s Hi. apply naive_step_ok; [exact Hsh|].
      apply Hy. apply in_seq in Hi. lia. }
  pose proof (naive_loop_closed W X y (shape0 X) (0, zeros_like W))
    as (Hl & H0 & H1 & Hat). cbn zeta in *.
  destruct (fold_left _ _ _) as [loss dW] eqn:Hfold.
  cbn [fst snd bind] in *.
  destruct (Nat.eqb_spec (shape0 X) 0) as [Hz|_]; [lia|]. cbn [bind].
  eexists. split; [|split; [|split]].
  - f_equal. f_equal. unfold mean_loss, reg_loss. rewrite Hl. f_equal.
    f_equal. lra.
  - cbn. exact H0.
  - cbn. exact H1.
  - intros d c Hc. cbn [mat_zip mat_map at2]. rewrite Hat by exact Hc.
    cbn [zeros_like at2]. f_equal. f_equal. lra.
Qed.

End NaiveClosedForm.

(** ** The vectorized implementation in closed form *)

Section VectorizedClosedForm.
Import Softmax.
Local Open Scope R_scope.

Lemma INR_batch_nonzero (n : nat) : (1 <= n)%nat -> INR n <> 0.
Proof. intros Hn. apply not_0_INR. lia. Qed.

Lemma softmax_loss_vectorized_closed (W X : matrix) (y : labels) (reg : R) :
  (1 <= shape0 X)%nat ->
  shape1 X = shape0 W ->
  labels_in_range W X y ->
  exists dW,
    softmax_loss_vectorized W X y reg
    = Ok (mean_loss (shifted_vectorized W X) (shape0 X) (shape1 W) y
          + reg_loss reg W, dW)
    /\ shape0 dW = shape0 W /\ shape1 dW = shape1 W
    /\ forall d c, (c < shape1 W)%nat ->
         at2 dW d c = spec_grad W X y reg (shifted_vectorized W X) d c.
Proof.
  intros HN Hsh Hy.
  assert (HC : (1 <= shape1 W)%nat).
  { specialize (Hy O ltac:(lia)). lia. }
  unfold softmax_loss_vectorized, np_dot.
  rewrite Hsh, Nat.eqb_refl. cbn [bind].
  unfold np_max2. cbn [shape0 shape1 at2 mat_map].
  destruct X as [N D x], W as [D' C w]. cbn [shape0 shape1 at2] in *. subst D'.
  destruct N as [|N]; [lia|]. destruct C as [|C]; [lia|]. cbn [bind].
  rewrite label_indices_in_range by exact Hy. cbn [bind].
  cbn [transpose shape0 shape1 at2 mat_zip]. rewrite Nat.eqb_refl. cbn [bind].
  eexists. split; [|split; [|split]].
  - f_equal. f_equal. f_equal. unfold mean_loss. f_equal.
    unfold np_sum. cbn [size item].
    apply sum_upto_ext. intros i Hi.
    rewrite nth_label_index by exact Hi. reflexivity.
  - reflexivity.
  - reflexivity.
  - intros d c Hc. cbn [mat_zip mat_map at2 shape0 shape1 np_sum_axis1 item].
    unfold spec_grad. cbn [shape0 shape1 at2]. f_equal.
    rewrite <- sum_upto_div. apply sum_upto_ext. intros i Hi.
    rewrite nth_label_index by exact Hi.
    unfold d_scores, softmax_prob.
    rewrite <- (indicator_label y i c) by (apply Hy; exact Hi).
    unfold shifted_vectorized, global_max, score. cbn [shape0 shape1 at2 pred].
    pose proof (INR_batch_nonzero (S N) ltac:(lia)) as HNz.
    destruct (Nat.eqb c (Z.to_nat (y i))); unfold Rdiv; lra.
Qed.

End VectorizedClosedForm.

(** ** The claims about softmax.py *)

Section SoftmaxClaims.
Import Softmax.
Local Open Scope R_scope.

(** C1. On a weight matrix [W] (D x C), a batch [X] (N x D) with N >= 1 and
    labels in [0, C), both implementations return as loss the mean over the
    rows of [-shifted[i, y[i]] + log(sum_j exp(shifted[i, j]))] plus the
    regularization term [0.5 * reg * sum(W * W)], where [shifted] is the
    score table after the subtraction of the maximum each implementation
    uses (the row maximum in the looped one, the maximum of all scores in
    the vectorized one). *)
Theorem softmax_loss_is_mean_row_loss (W X : matrix) (y : labels) (reg : R) :
  (1 <= shape0 X)%nat ->
  shape1 X = shape0 W ->
  labels_in_range W X y ->
  returns_loss (softmax_loss_naive W X y reg)
    (mean_loss (shifted_naive W X) (shape0 X) (shape1 W) y + reg_loss reg W)
  /\ returns_loss (softmax_loss_vectorized W X y reg)
    (mean_loss (shifted_vectorized W X) (shape0 X) (shape1 W) y + reg_loss reg W).
Proof.
  intros HN Hsh Hy. split.
  - destruct (softmax_loss_naive_closed W X y reg HN Hsh Hy) as (dW & H & _).
    exists dW. exact H.
  - destruct (softmax_loss_vectorized_closed W X y reg HN Hsh Hy) as (dW & H & _).
    exists dW. exact H.
Qed.

Lemma softmax_loss_is_mean_row_loss_witness :
  returns_loss (softmax_loss_naive W_zeros23 X_ones12 y_zero 0)
    (mean_loss (shifted_naive W_zeros23 X_ones12) 1 3 y_zero
     + reg_loss 0 W_zeros23)
  /\ returns_loss (softmax_loss_vectorized W_zeros23 X_ones12 y_zero 0)
    (mean_loss (shifted_vectorized W_zeros23 X_ones12) 1 3 y_zero
     + reg_loss 0 W_zeros23).
Proof.
  apply (softmax_loss_is_mean_row_loss W_zeros23 X_ones12 y_zero 0).
  - simpl. lia.
  - reflexivity.
  - intros i Hi. unfold y_zero, W_zeros23. cbn. lia.
Defined.

(** C2. On the same inputs the gradient returned by the vectorized
    implementation is [X^T . d_scores + reg * W], where
    [d_scores[i, j] = (softmax_prob[i, j] - 1{j == y[i]}) / N] and
    [softmax_prob[i, j] = exp(shifted[i, j]) / sum_k exp(shifted[i, k])]. *)
Theorem softmax_loss_vectorized_gradient (W X : matrix) (y : labels) (reg : R) :
  (1 <= shape0 X)%nat ->
  shape1 X = shape0 W ->
  labels_in_range W X y ->
  exists loss dW,
    softmax_loss_vectorized W X y reg = Ok (loss, dW)
    /\ shape0 dW = shape0 W /\ shape1 dW = shape1 W
    /\ forall d j, (d < shape0 W)%nat -> (j < shape1 W)%nat ->
         at2 dW d j
         = sum_upto
             (fun i => at2 X i d
                       * d_scores (shifted_vectorized W X) (shape0 X) (shape1 W) y i j)
             (shape0 X)
           + reg * at2 W d j.
Proof.
  intros HN Hsh Hy.
  destruct (softmax_loss_vectorized_closed W X y reg HN Hsh Hy)
    as (dW & H & H0 & H1 & Hat).
  eexists; exists dW. split; [exact H|]. split; [exact H0|]. split; [exact H1|].
  intros d j _ Hj. rewrite Hat by exact Hj. reflexivity.
Qed.

Lemma softmax_loss_vectorized_gradient_witness :
  exists loss dW,
    softmax_loss_vectorized W_zeros23 X_ones12 y_zero 0 = Ok (loss, dW)
    /\ shape0 dW = 2%nat /\ shape1 dW = 3%nat
    /\ forall d j, (d < 2)%nat -> (j < 3)%nat ->
         at2 dW d j
         = sum_upto
             (fun i => at2 X_ones12 i d
                       * d_scores (shifted_vectorized W_zeros23 X_ones12) 1 3 y_zero i j)
             1
           + 0 * at2 W_zeros23 d j.
Proof.
  apply (softmax_loss_vectorized_gradient W_zeros23 X_ones12 y_zero 0).
  - simpl. lia.
  - reflexivity.
  - intros i Hi. unfold y_zero, W_zeros23. cbn. lia.
Defined.

(** C9. On the same inputs the loss of either implementation, each with its
    own max-subtraction, is the loss computed from the unshifted scores; and
    that loss does not change when a constant is added to every score of a
    row. *)
Theorem softmax_loss_shift_invariant (W X : matrix) (y : labels) (reg : R) :
  (1 <= shape0 X)%nat ->
  shape1 X = shape0 W ->
  labels_in_range W X y ->
  returns_loss (softmax_loss_naive W X y reg)
    (mean_loss (score W X) (shape0 X) (shape1 W) y + reg_loss reg W)
  /\ returns_loss (softmax_loss_vectorized W X y reg)
    (mean_loss (score W X) (shape0 X) (shape1 W) y + reg_loss reg W)
  /\ forall c : nat -> R,
       mean_loss (fun i j => score W X i j + c i) (shape0 X) (shape1 W) y
       = mean_loss (score W X) (shape0 X) (shape1 W) y.
Proof.
  intros HN Hsh Hy.
  assert (HC : (0 < shape1 W)%nat).
  { specialize (Hy O ltac:(lia)). lia. }
  destruct (softmax_loss_naive_closed W X y reg HN Hsh Hy) as (dWn & Hn & _).
  destruct (softmax_loss_vectorized_closed W X y reg HN Hsh Hy) as (dWv & Hv & _).
  split; [|split].
  - exists dWn. unfold shifted_naive in Hn.
    rewrite (mean_loss_shift (score W X) (row_max W X)) in Hn by exact HC.
    exact Hn.
  - exists dWv. unfold shifted_vectorized in Hv.
    rewrite (mean_loss_shift (score W X) (fun _ => global_max W X)) in Hv
      by exact HC.
    exact Hv.
  - intros c.
    rewrite <- (mean_loss_shift (fun i j => score W X i j + c i) c) by exact HC.
    unfold mean_loss. f_equal. apply sum_upto_ext. intros i _.
    unfold row_loss. f_equal.
    + f_equal. lra.
    + f_equal. apply sum_upto_ext. intros j _. f_equal. lra.
Qed.

Lemma softmax_loss_shift_invariant_witness :
  returns_loss (softmax_loss_naive W_zeros23 X_ones12 y_zero 0)
    (mean_loss (score W_zeros23 X_ones12) 1 3 y_zero + reg_loss 0 W_zeros23)
  /\ returns_loss (softmax_loss_vectorized W_zeros23 X_ones12 y_zero 0)
    (mean_loss (score W_zeros23 X_ones12) 1 3 y_zero + reg_loss 0 W_zeros23)
  /\ forall c : nat -> R,
       mean_loss (fun i j => score W_zeros23 X_ones12 i j + c i) 1 3 y_zero
       = mean_loss (score W_zeros23 X_ones12) 1 3 y_zero.
Proof.
  apply (softmax_loss_shift_invariant W_zeros23 X_ones12 y_zero 0).
  - simpl. lia.
  - reflexivity.
  - intros i Hi. unfold y_zero, W_zeros23. cbn. lia.
Defined.

(** C3 (looped against vectorized). On [W = [[0]]], [X = [[2]]], [y = [0]],
    [reg = 0] the two implementations return the same loss but different
    gradients: the looped one adds the softmax probability to
    [-X[i, d] * 1{j == y[i]}] instead of multiplying it by [X[i, d]], and
    returns [dW = [[-1]]], where the vectorized one returns [[[0]]]. *)
Theorem softmax_naive_gradient_differs :
  exists l dWn dWv,
    softmax_loss_naive W_zero11 X_two11 y_zero 0 = Ok (l, dWn)
    /\ softmax_loss_vectorized W_zero11 X_two11 y_zero 0 = Ok (l, dWv)
    /\ at2 dWn 0 0 = -1
    /\ at2 dWv 0 0 = 0.
Proof.
  assert (HN : (1 <= shape0 X_two11)%nat) by (simpl; lia).
  assert (Hsh : shape1 X_two11 = shape0 W_zero11) by reflexivity.
  assert (Hy : labels_in_range W_zero11 X_two11 y_zero).
  { intros i Hi. unfold y_zero, W_zero11. cbn. lia. }
  destruct (softmax_loss_naive_closed _ _ _ 0 HN Hsh Hy) as (dWn & Hn & _ & _ & Hatn).
  destruct (softmax_loss_vectorized_closed _ _ _ 0 HN Hsh Hy)
    as (dWv & Hv & _ & _ & Hatv).
  assert (HC : (0 < shape1 W_zero11)%nat) by (simpl; lia).
  unfold shifted_naive in Hn.
  rewrite (mean_loss_shift (score W_zero11 X_two11) (row_max W_zero11 X_two11))
    in Hn by exact HC.
  unfold shifted_vectorized in Hv.
  rewrite (mean_loss_shift (score W_zero11 X_two11)
             (fun _ => global_max W_zero11 X_two11)) in Hv by exact HC.
  eexists; exists dWn, dWv. split; [exact Hn|]. split; [exact Hv|].
  split.
  - rewrite Hatn by exact HC.
    unfold naive_term, softmax_prob, indicator, bool_num.
    cbn [sum_upto shape0 shape1 at2 X_two11 W_zero11 y_zero Z.of_nat Z.eqb INR].
    pose proof (exp_pos (shifted_naive W_zero11 X_two11 0 0)) as Hp.
    change (Z.of_nat 0 =? y_zero 0%nat)%Z with true. cbv iota. field. lra.
  - rewrite Hatv by exact HC.
    unfold spec_grad, d_scores, softmax_prob, indicator, bool_num.
    cbn [sum_upto shape0 shape1 at2 X_two11 W_zero11 y_zero Z.of_nat Z.eqb INR].
    pose proof (exp_pos (shifted_vectorized W_zero11 X_two11 0 0)) as Hp.
    change (Z.of_nat 0 =? y_zero 0%nat)%Z with true. cbv iota. field. lra.
Qed.

(** C7. With an empty batch ([X] has no row) neither implementation returns
    a value: the looped one raises ZeroDivisionError at [loss /= num_train]
    (the loss is still the Python float 0.0), the vectorized one raises
    ValueError (from [np.max] of an empty array, or from [np.dot] when the
    shapes are not aligned). *)
Theorem softmax_loss_empty_batch_raises (W X : matrix) (y : labels) (reg : R) :
  shape0 X = 0%nat ->
  softmax_loss_naive W X y reg = Raise ZeroDivisionError
  /\ softmax_loss_vectorized W X y reg
     = Raise (if Nat.eqb (shape1 X) (shape0 W) then empty_max else not_aligned)
  /\ raises (softmax_loss_naive W X y reg)
  /\ raises (softmax_loss_vectorized W X y reg).
Proof.
  intros HN.
  assert (Hn : softmax_loss_naive W X y reg = Raise ZeroDivisionError).
  { unfold softmax_loss_naive. rewrite HN. reflexivity. }
  assert (Hv : softmax_loss_vectorized W X y reg
     = Raise (if Nat.eqb (shape1 X) (shape0 W) then empty_max else not_aligned)).
  { unfold softmax_loss_vectorized, np_dot.
    destruct (Nat.eqb (shape1 X) (shape0 W)); [|reflexivity].
    cbn [bind]. unfold np_max2. cbn [shape0 shape1]. rewrite HN. reflexivity. }
  split; [exact Hn|]. split; [exact Hv|].
  split; eexists; [exact Hn|exact Hv].
Qed.

Lemma softmax_loss_empty_batch_raises_witness :
  softmax_loss_naive W_zeros23 X_empty y_zero 0 = Raise ZeroDivisionError
  /\ softmax_loss_vectorized W_zeros23 X_empty y_zero 0 = Raise empty_max
  /\ raises (softmax_loss_naive W_zeros23 X_empty y_zero 0)
  /\ raises (softmax_loss_vectorized W_zeros23 X_empty y_zero 0).
Proof.
  apply (softmax_loss_empty_batch_raises W_zeros23 X_empty y_zero 0).
  reflexivity.
Defined.

End SoftmaxClaims.

(** ** Scenario 1 of the specification *)

Section SoftmaxScenario.
Import Softmax.
Local Open Scope R_scope.

(** With zero weights every class has probability 1/3 and the loss is
    [log 3], in both implementations. *)
Example zero_weights_loss :
  returns_loss (softmax_loss_naive W_zeros23 X_ones12 y_zero 0) (ln 3)
  /\ returns_loss (softmax_loss_vectorized W_zeros23 X_ones12 y_zero 0) (ln 3).
Proof.
  assert (HN : (1 <= shape0 X_ones12)%nat) by (simpl; lia).
  assert (Hsh : shape1 X_ones12 = shape0 W_zeros23) by reflexivity.
  assert (Hy : labels_in_range W_zeros23 X_ones12 y_zero).
  { intros i Hi. unfold y_zero, W_zeros23. cbn. lia. }
  assert (Hl : mean_loss (score W_zeros23 X_ones12) 1 3 y_zero
               + reg_loss 0 W_zeros23 = ln 3).
  { unfold mean_loss, row_loss, reg_loss, score.
    cbn [sum_upto shape1 at2 X_ones12 W_zeros23 y_zero Z.to_nat INR].
    replace (0 + 1 * 0 + 1 * 0) with 0 by lra. rewrite exp_0.
    replace (0 + 1 + 1 + 1) with 3 by lra. lra. }
  destruct (softmax_loss_naive_closed _ _ _ 0 HN Hsh Hy) as (dWn & Hn & _).
  destruct (softmax_loss_vectorized_closed _ _ _ 0 HN Hsh Hy) as (dWv & Hv & _).
  unfold shifted_naive in Hn. unfold shifted_vectorized in Hv.
  rewrite (mean_loss_shift (score W_zeros23 X_ones12) (row_max W_zeros23 X_ones12))
    in Hn by (simpl; lia).
  rewrite (mean_loss_shift (score W_zeros23 X_ones12)
             (fun _ => global_max W_zeros23 X_ones12)) in Hv by (simpl; lia).
  cbn [shape0 shape1 X_ones12 W_zeros23] in Hn, Hv. rewrite Hl in Hn, Hv.
  split; eexists; eassumption.
Qed.

End SoftmaxScenario.

(** ** Further properties of softmax.py *)

Section SoftmaxMore.
Import Softmax.
Local Open Scope R_scope.

Lemma ln_monotone (x y : R) : 0 < x -> x <= y -> ln x <= ln y.
Proof.
  intros Hx [Hlt| ->]; [|lra]. left. apply ln_increasing; assumption.
Qed.

Lemma sum_upto_nonneg (f : nat -> R) (n : nat) :
  (forall k, (k < n)%nat -> 0 <= f k) -> 0 <= sum_upto f n.
Proof.
  induction n as [|n IH]; intros Hf; simpl; [lra|].
  assert (0 <= sum_upto f n) by (apply IH; intros; apply Hf; lia).
  assert (0 <= f n) by (apply Hf; lia). lra.
Qed.

Lemma sum_upto_ge_term (f : nat -> R) (n k : nat) :
  (forall j, 0 <= f j) -> (k < n)%nat -> f k <= sum_upto f n.
Proof.
  intros Hf. induction n as [|n IH]; intros Hk; [lia|]. simpl.
  destruct (Nat.eq_dec k n) as [->|Hne].
  - assert (0 <= sum_upto f n) by (apply sum_upto_nonneg; intros; apply Hf). lra.
  - assert (f k <= sum_upto f n) by (apply IH; lia). specialize (Hf n). lra.
Qed.

Lemma sum_upto_const (c : R) (n : nat) : sum_upto (fun _ => c) n = INR n * c.
Proof.
  induction n as [|n IH]; [simpl; lra|].
  cbn [sum_upto]. rewrite IH, S_INR. lra.
Qed.

Lemma sum_upto_zero (f : nat -> R) (n : nat) :
  (forall k, (k < n)%nat -> f k = 0) -> sum_upto f n = 0.
Proof.
  intros Hf. rewrite (sum_upto_ext f (fun _ => 0) n Hf), sum_upto_const. lra.
Qed.

Lemma sum_upto_swap (a : nat -> nat -> R) (n m : nat) :
  sum_upto (fun i => sum_upto (fun j => a i j) m) n
  = sum_upto (fun j => sum_upto (fun i => a i j) n) m.
Proof.
  induction n as [|n IH]; cbn [sum_upto].
  - rewrite sum_upto_zero; [reflexivity|]. intros; reflexivity.
  - rewrite IH, <- sum_upto_plus. reflexivity.
Qed.

(** *** The data loss is never negative *)

Lemma row_loss_nonneg (s : nat -> nat -> R) (C : nat) (y : labels) (i : nat) :
  (0 <= y i < Z.of_nat C)%Z -> 0 <= row_loss s C y i.
Proof.
  intros Hy. unfold row_loss.
  assert (Hk : (Z.to_nat (y i) < C)%nat) by lia.
  pose proof (sum_upto_ge_term (fun j => exp (s i j)) C (Z.to_nat (y i))
                (fun j => Rlt_le _ _ (exp_pos _)) Hk) as Hge.
  cbv beta in Hge.
  pose proof (ln_monotone _ _ (exp_pos (s i (Z.to_nat (y i)))) Hge) as Hln.
  rewrite ln_exp in Hln. lra.
Qed.

Lemma mean_loss_nonneg (s : nat -> nat -> R) (N C : nat) (y : labels) :
  (1 <= N)%nat ->
  (forall i, (i < N)%nat -> (0 <= y i < Z.of_nat C)%Z) ->
  0 <= mean_loss s N C y.
Proof.
  intros HN Hy. unfold mean_loss.
  assert (0 < INR N) by (apply lt_0_INR; lia).
  apply Rmult_le_pos; [|left; apply Rinv_0_lt_compat; assumption].
  apply sum_upto_nonneg. intros i Hi. apply row_loss_nonneg, Hy, Hi.
Qed.

(** In exact arithmetic, on well-shaped input the loss either
    implementation returns is at least the regularization term
    [0.5 * reg * sum(W * W)]: the data loss, as a real number, is not
    negative.  (In floating point the vectorized code can return [-inf]:
    after the shift by the maximum of all scores a whole row of [exp] can
    underflow to zero.) *)
Theorem softmax_loss_at_least_reg_term (W X : matrix) (y : labels) (reg : R) :
  (1 <= shape0 X)%nat ->
  shape1 X = shape0 W ->
  labels_in_range W X y ->
  (exists l dW, softmax_loss_naive W X y reg = Ok (l, dW) /\ reg_loss reg W <= l)
  /\ (exists l dW, softmax_loss_vectorized W X y reg = Ok (l, dW)
                   /\ reg_loss reg W <= l).
Proof.
  intros HN Hsh Hy.
  destruct (softmax_loss_naive_closed W X y reg HN Hsh Hy) as (dWn & Hn & _).
  destruct (softmax_loss_vectorized_closed W X y reg HN Hsh Hy) as (dWv & Hv & _).
  split; eexists _, _; (split; [eassumption|]).
  - pose proof (mean_loss_nonneg (shifted_naive W X) _ _ y HN Hy). lra.
  - pose proof (mean_loss_nonneg (shifted_vectorized W X) _ _ y HN Hy). lra.
Qed.

Lemma softmax_loss_at_least_reg_term_witness :
  (exists l dW, softmax_loss_naive W_zeros23 X_ones12 y_zero 1 = Ok (l, dW)
                /\ reg_loss 1 W_zeros23 <= l)
  /\ (exists l dW, softmax_loss_vectorized W_zeros23 X_ones12 y_zero 1 = Ok (l, dW)
                   /\ reg_loss 1 W_zeros23 <= l).
Proof.
  apply (softmax_loss_at_least_reg_term W_zeros23 X_ones12 y_zero 1).
  - simpl. lia.
  - reflexivity.
  - intros i Hi. unfold y_zero, W_zeros23. cbn. lia.
Defined.

(** *** Zero weights give the loss [log C] *)

Lemma score_zero_weights (W X : matrix) (i j : nat) :
  shape1 X = shape0 W -> all_zero W -> (j < shape1 W)%nat -> score W X i j = 0.
Proof.
  intros Hsh HW Hj. unfold score. apply sum_upto_zero. intros d Hd.
  rewrite HW by lia. lra.
Qed.

Lemma mean_loss_zero_weights (W X : matrix) (y : labels) :
  (1 <= shape0 X)%nat ->
  shape1 X = shape0 W ->
  labels_in_range W X y ->
  all_zero W ->
  mean_loss (score W X) (shape0 X) (shape1 W) y = ln (INR (shape1 W)).
Proof.
  intros HN Hsh Hy HW. unfold mean_loss.
  rewrite (sum_upto_ext _ (fun _ => ln (INR (shape1 W)))).
  - rewrite sum_upto_const. field. apply not_0_INR. lia.
  - intros i Hi. unfold row_loss. specialize (Hy i Hi).
    rewrite score_zero_weights by (try assumption; lia).
    rewrite (sum_upto_ext _ (fun _ => 1)).
    + rewrite sum_upto_const. replace (INR (shape1 W) * 1) with (INR (shape1 W)) by lra.
      lra.
    + intros j Hj. rewrite score_zero_weights by assumption. apply exp_0.
Qed.

Lemma reg_loss_zero_weights (reg : R) (W : matrix) : all_zero W -> reg_loss reg W = 0.
Proof.
  intros HW. unfold reg_loss, np_sum2. cbn [mat_zip shape0 shape1 at2].
  rewrite sum_upto_zero; [lra|]. intros d Hd.
  apply sum_upto_zero. intros j Hj. rewrite HW by assumption. lra.
Qed.

(** When every weight is zero, each class gets the same probability and
    both implementations return the loss [log C], whatever the batch, the
    labels and [reg] are. *)
Theorem softmax_loss_zero_weights (W X : matrix) (y : labels) (reg : R) :
  (1 <= shape0 X)%nat ->
  shape1 X = shape0 W ->
  labels_in_range W X y ->
  all_zero W ->
  returns_loss (softmax_loss_naive W X y reg) (ln (INR (shape1 W)))
  /\ returns_loss (softmax_loss_vectorized W X y reg) (ln (INR (shape1 W))).
Proof.
  intros HN Hsh Hy HW.
  assert (HC : (0 < shape1 W)%nat).
  { specialize (Hy O ltac:(lia)). lia. }
  destruct (softmax_loss_naive_closed W X y reg HN Hsh Hy) as (dWn & Hn & _).
  destruct (softmax_loss_vectorized_closed W X y reg HN Hsh Hy) as (dWv & Hv & _).
  unfold shifted_naive in Hn. unfold shifted_vectorized in Hv.
  rewrite (mean_loss_shift (score W X) (row_max W X)) in Hn by exact HC.
  rewrite (mean_loss_shift (score W X) (fun _ => global_max W X)) in Hv by exact HC.
  rewrite (mean_loss_zero_weights W X y HN Hsh Hy HW),
    (reg_loss_zero_weights reg W HW), Rplus_0_r in Hn, Hv.
  split; eexists; eassumption.
Qed.

Lemma softmax_loss_zero_weights_witness :
  returns_loss (softmax_loss_naive W_zeros23 X_ones12 y_zero 1) (ln (INR 3))
  /\ returns_loss (softmax_loss_vectorized W_zeros23 X_ones12 y_zero 1) (ln (INR 3)).
Proof.
  apply (softmax_loss_zero_weights W_zeros23 X_ones12 y_zero 1).
  - simpl. lia.
  - reflexivity.
  - intros i Hi. unfold y_zero, W_zeros23. cbn. lia.
  - intros d j _ _. reflexivity.
Defined.

End SoftmaxMore.

(** ** The gradients, and the exceptions on ill-formed input *)

Section SoftmaxGradients.
Import Softmax.
Local Open Scope R_scope.

Lemma sum_upto_scal_l (f : nat -> R) (c : R) (n : nat) :
  sum_upto (fun k => c * f k) n = c * sum_upto f n.
Proof. induction n as [|n IH]; simpl; [lra|rewrite IH; lra]. Qed.

Lemma sum_upto_minus (f g : nat -> R) (n : nat) :
  sum_upto (fun k => f k - g k) n = sum_upto f n - sum_upto g n.
Proof. induction n as [|n IH]; simpl; [lra|rewrite IH; lra]. Qed.

(** The softmax probabilities of a row sum to one. *)
Lemma softmax_prob_sum (s : nat -> nat -> R) (C i : nat) :
  (0 < C)%nat -> sum_upto (softmax_prob s C i) C = 1.
Proof.
  intros HC. unfold softmax_prob.
  rewrite (sum_upto_div (fun j => exp (s i j))).
  pose proof (sum_upto_exp_pos (s i) C HC). field. lra.
Qed.

Lemma indicator_sum_upto (y : labels) (i n : nat) :
  (0 <= y i)%Z ->
  sum_upto (indicator y i) n = if (y i <? Z.of_nat n)%Z then 1 else 0.
Proof.
  intros Hy. induction n as [|n IH].
  - cbn [sum_upto]. destruct (Z.ltb_spec (y i) (Z.of_nat 0)); [lia|reflexivity].
  - cbn [sum_upto]. rewrite IH. unfold indicator, bool_num.
    destruct (Z.ltb_spec (y i) (Z.of_nat n)), (Z.ltb_spec (y i) (Z.of_nat (S n))),
      (Z.eqb_spec (Z.of_nat n) (y i)); try lia; lra.
Qed.

Lemma d_scores_sum (s : nat -> nat -> R) (N C : nat) (y : labels) (i : nat) :
  (0 <= y i < Z.of_nat C)%Z ->
  sum_upto (d_scores s N C y i) C = 0.
Proof.
  intros Hy. unfold d_scores.
  rewrite (sum_upto_div (fun j => softmax_prob s C i j - indicator y i j)).
  rewrite sum_upto_minus, softmax_prob_sum by lia.
  rewrite indicator_sum_upto by lia.
  destruct (Z.ltb_spec (y i) (Z.of_nat C)); [|lia]. unfold Rdiv. lra.
Qed.

(** In exact arithmetic, each row of the gradient the vectorized
    implementation returns sums to [reg] times the sum of the same row of
    [W]: the data part of the gradient sums to zero over the classes. *)
Theorem softmax_vectorized_gradient_row_sum (W X : matrix) (y : labels) (reg : R) :
  (1 <= shape0 X)%nat ->
  shape1 X = shape0 W ->
  labels_in_range W X y ->
  exists l dW,
    softmax_loss_vectorized W X y reg = Ok (l, dW)
    /\ forall d, sum_upto (at2 dW d) (shape1 W) = reg * sum_upto (at2 W d) (shape1 W).
Proof.
  intros HN Hsh Hy.
  destruct (softmax_loss_vectorized_closed W X y reg HN Hsh Hy)
    as (dW & H & _ & _ & Hat).
  eexists _, dW. split; [exact H|]. intros d.
  rewrite (sum_upto_ext _ _ _ (fun j Hj => Hat d j Hj)). unfold spec_grad.
  rewrite sum_upto_plus, sum_upto_scal_l.
  rewrite <- (sum_upto_swap
                (fun i j => at2 X i d
                            * d_scores (shifted_vectorized W X) (shape0 X) (shape1 W) y i j)).
  rewrite sum_upto_zero; [lra|]. intros i Hi.
  rewrite sum_upto_scal_l, d_scores_sum by (apply Hy, Hi). lra.
Qed.

Lemma softmax_vectorized_gradient_row_sum_witness :
  exists l dW,
    softmax_loss_vectorized W_zeros23 X_ones12 y_zero 1 = Ok (l, dW)
    /\ forall d, sum_upto (at2 dW d) 3 = 1 * sum_upto (at2 W_zeros23 d) 3.
Proof.
  apply (softmax_vectorized_gradient_row_sum W_zeros23 X_ones12 y_zero 1).
  - simpl. lia.
  - reflexivity.
  - intros i Hi. unfold y_zero, W_zeros23. cbn. lia.
Defined.

(** In exact arithmetic, the two implementations return the same loss,
    and the gradient of the looped one and that of the vectorized one differ,
    entry by entry, by [sum_i p[i, j] * (1 - X[i, d]) / N], where [p] is the
    softmax probability: line 47 adds [p] where the vectorized code
    multiplies it by [X[i, d]]. *)
Theorem softmax_naive_gradient_offset (W X : matrix) (y : labels) (reg : R) :
  (1 <= shape0 X)%nat ->
  shape1 X = shape0 W ->
  labels_in_range W X y ->
  exists l dWn dWv,
    softmax_loss_naive W X y reg = Ok (l, dWn)
    /\ softmax_loss_vectorized W X y reg = Ok (l, dWv)
    /\ forall d j, (j < shape1 W)%nat ->
         at2 dWn d j - at2 dWv d j
         = sum_upto (fun i => softmax_prob (score W X) (shape1 W) i j
                              * (1 - at2 X i d)) (shape0 X)
           / INR (shape0 X).
Proof.
  intros HN Hsh Hy.
  assert (HC : (0 < shape1 W)%nat).
  { specialize (Hy O ltac:(lia)). lia. }
  destruct (softmax_loss_naive_closed W X y reg HN Hsh Hy)
    as (dWn & Hn & _ & _ & Hatn).
  destruct (softmax_loss_vectorized_closed W X y reg HN Hsh Hy)
    as (dWv & Hv & _ & _ & Hatv).
  unfold shifted_naive in Hn. unfold shifted_vectorized in Hv.
  rewrite (mean_loss_shift (score W X) (row_max W X)) in Hn by exact HC.
  rewrite (mean_loss_shift (score W X) (fun _ => global_max W X)) in Hv by exact HC.
  eexists _, dWn, dWv. split; [exact Hn|]. split; [exact Hv|].
  intros d j Hj. rewrite Hatn, Hatv by exact Hj. unfold spec_grad.
  replace (sum_upto
             (fun i => at2 X i d
                       * d_scores (shifted_vectorized W X) (shape0 X) (shape1 W) y i j)
             (shape0 X))
    with (sum_upto
            (fun i => at2 X i d
                      * (softmax_prob (score W X) (shape1 W) i j - indicator y i j))
            (shape0 X) / INR (shape0 X)).
  2:{ rewrite <- sum_upto_div. apply sum_upto_ext. intros i _.
      unfold d_scores, shifted_vectorized.
      rewrite (softmax_prob_shift (score W X) (fun _ => global_max W X)) by exact HC.
      unfold Rdiv. lra. }
  replace (sum_upto (fun i => naive_term W X y i d j) (shape0 X))
    with (sum_upto
            (fun i => at2 X i d * (-1 * indicator y i j)
                      + softmax_prob (score W X) (shape1 W) i j) (shape0 X)).
  2:{ apply sum_upto_ext. intros i _. unfold naive_term, shifted_naive.
      rewrite (softmax_prob_shift (score W X) (row_max W X)) by exact HC.
      reflexivity. }
  unfold Rdiv.
  replace (sum_upto (fun i => softmax_prob (score W X) (shape1 W) i j
                              * (1 - at2 X i d)) (shape0 X))
    with (sum_upto
            (fun i => at2 X i d * (-1 * indicator y i j)
                      + softmax_prob (score W X) (shape1 W) i j) (shape0 X)
          - sum_upto
              (fun i => at2 X i d
                        * (softmax_prob (score W X) (shape1 W) i j - indicator y i j))
              (shape0 X)).
  2:{ rewrite <- sum_upto_minus. apply sum_upto_ext. intros i _. lra. }
  lra.
Qed.

Lemma softmax_naive_gradient_offset_witness :
  exists l dWn dWv,
    softmax_loss_naive W_zero11 X_two11 y_zero 0 = Ok (l, dWn)
    /\ softmax_loss_vectorized W_zero11 X_two11 y_zero 0 = Ok (l, dWv)
    /\ forall d j, (j < 1)%nat ->
         at2 dWn d j - at2 dWv d j
         = sum_upto (fun i => softmax_prob (score W_zero11 X_two11) 1 i j
                              * (1 - at2 X_two11 i d)) 1
           / INR 1.
Proof.
  apply (softmax_naive_gradient_offset W_zero11 X_two11 y_zero 0).
  - simpl. lia.
  - reflexivity.
  - intros i Hi. unfold y_zero, W_zero11. cbn. lia.
Defined.

End SoftmaxGradients.

(** ** Exceptions on ill-formed input; negative labels *)

Section SoftmaxErrors.
Import Softmax.
Local Open Scope R_scope.

(** A loop whose passes raise nothing but [E], and one of whose passes
    always raises, raises [E]. *)
Lemma for_in_some_pass_raises {A S : Type} (E : exn) (f : A -> S -> res S)
    (l : list A) (s : S) :
  (forall a t e, In a l -> f a t = Raise e -> e = E) ->
  (exists a, In a l /\ forall t, exists e, f a t = Raise e) ->
  for_in l f s = Raise E.
Proof.
  revert s. induction l as [|a l IH]; intros s Honly (b & Hb & Hbad);
    [destruct Hb|]. simpl.
  destruct (f a s) as [e|t] eqn:Hf; simpl.
  - rewrite (Honly a s e (or_introl eq_refl) Hf). reflexivity.
  - destruct Hb as [<-|Hb].
    + destruct (Hbad s) as [e He]. congruence.
    + apply IH; [|exists b; auto]. intros c u e Hc. apply Honly. right; exact Hc.
Qed.

Lemma py_index_raises (n : nat) (k : Z) (e : exn) :
  py_index n k = Raise e -> e = IndexError.
Proof.
  unfold py_index. intros H.
  repeat destruct (_ && _)%Z; try discriminate H. by injection H as <-.
Qed.

Lemma py_index_out_of_bounds (n : nat) (k : Z) :
  (k < - Z.of_nat n \/ Z.of_nat n <= k)%Z -> py_index n k = Raise IndexError.
Proof.
  intros Hk. unfold py_index.
  destruct (Z.leb_spec 0 k), (Z.ltb_spec k (Z.of_nat n)),
    (Z.leb_spec (- Z.of_nat n) k), (Z.ltb_spec k 0); cbn; try reflexivity; lia.
Qed.

Lemma py_index_wrap (n : nat) (k : Z) :
  (- Z.of_nat n <= k < Z.of_nat n)%Z ->
  py_index n (if (k <? 0)%Z then (k + Z.of_nat n)%Z else k) = py_index n k.
Proof.
  intros Hk. destruct (k <? 0)%Z eqn:Hneg; [|reflexivity].
  apply Z.ltb_lt in Hneg. unfold py_index.
  destruct (Z.leb_spec 0 (k + Z.of_nat n)), (Z.ltb_spec (k + Z.of_nat n) (Z.of_nat n)),
    (Z.leb_spec 0 k), (Z.leb_spec (- Z.of_nat n) k), (Z.ltb_spec k 0);
    cbn; try lia. reflexivity.
Qed.

Lemma label_indices_raises (c : nat) (y : labels) (n : nat) (e : exn) :
  label_indices c y n = Raise e -> e = IndexError.
Proof.
  induction n as [|n IH]; cbn [label_indices]; intros H; [discriminate H|].
  destruct (label_indices c y n) as [e'|ks]; cbn [bind] in H.
  - injection H as <-. by apply IH.
  - destruct (py_index c (y n)) as [e'|k] eqn:Hk; cbn [bind] in H; [|discriminate H].
    injection H as <-. eapply py_index_raises, Hk.
Qed.

Lemma label_indices_out_of_bounds (c : nat) (y : labels) (n : nat) :
  (exists i, (i < n)%nat /\ (y i < - Z.of_nat c \/ Z.of_nat c <= y i)%Z) ->
  label_indices c y n = Raise IndexError.
Proof.
  induction n as [|n IH]; intros (i & Hi & Hout); [lia|]. cbn [label_indices].
  destruct (label_indices c y n) as [e|ks] eqn:Hks; cbn [bind].
  - rewrite (label_indices_raises _ _ _ _ Hks). reflexivity.
  - destruct (Nat.eq_dec i n) as [->|Hne].
    + rewrite py_index_out_of_bounds by exact Hout. reflexivity.
    + assert (Hbad : Ok ks = Raise IndexError :> res (list nat)).
      { apply IH. exists i. split; [lia|exact Hout]. }
      discriminate Hbad.
Qed.

(** *** Shapes that are not aligned *)

(** When the rows of [X] and the columns of [W] have different lengths and
    the batch is not empty, both implementations raise the ValueError of
    [dot]. *)
Theorem softmax_loss_shapes_not_aligned (W X : matrix) (y : labels) (reg : R) :
  (1 <= shape0 X)%nat ->
  shape1 X <> shape0 W ->
  softmax_loss_naive W X y reg = Raise not_aligned
  /\ softmax_loss_vectorized W X y reg = Raise not_aligned.
Proof.
  intros HN Hsh. apply Nat.eqb_neq in Hsh. split.
  - unfold softmax_loss_naive, range.
    destruct (shape0 X) as [|n]; [lia|]. cbn [seq for_in].
    unfold naive_step at 1, vec_dot. cbn [row size]. rewrite Hsh. reflexivity.
  - unfold softmax_loss_vectorized, np_dot. rewrite Hsh. reflexivity.
Qed.

Lemma softmax_loss_shapes_not_aligned_witness :
  softmax_loss_naive W_zeros23 X_ones13 y_zero 0 = Raise not_aligned
  /\ softmax_loss_vectorized W_zeros23 X_ones13 y_zero 0 = Raise not_aligned.
Proof.
  apply (softmax_loss_shapes_not_aligned W_zeros23 X_ones13 y_zero 0).
  - simpl. lia.
  - simpl. lia.
Defined.

(** *** No class *)

(** When [W] has no column and the batch is not empty, both implementations
    raise the ValueError of [np.max] on an empty array. *)
Theorem softmax_loss_no_class (W X : matrix) (y : labels) (reg : R) :
  (1 <= shape0 X)%nat ->
  shape1 X = shape0 W ->
  shape1 W = 0%nat ->
  softmax_loss_naive W X y reg = Raise empty_max
  /\ softmax_loss_vectorized W X y reg = Raise empty_max.
Proof.
  intros HN Hsh HC. split.
  - unfold softmax_loss_naive, range.
    destruct (shape0 X) as [|n]; [lia|]. cbn [seq for_in].
    unfold naive_step at 1, vec_dot. cbn [row size].
    rewrite Hsh, Nat.eqb_refl. cbn [bind]. unfold np_max. cbn [size].
    rewrite HC. reflexivity.
  - unfold softmax_loss_vectorized, np_dot. rewrite Hsh, Nat.eqb_refl. cbn [bind].
    unfold np_max2. cbn [shape0 shape1]. rewrite HC.
    destruct (shape0 X); reflexivity.
Qed.

Lemma softmax_loss_no_class_witness :
  softmax_loss_naive W_no_class X_ones12 y_zero 0 = Raise empty_max
  /\ softmax_loss_vectorized W_no_class X_ones12 y_zero 0 = Raise empty_max.
Proof.
  apply (softmax_loss_no_class W_no_class X_ones12 y_zero 0).
  - simpl. lia.
  - reflexivity.
  - reflexivity.
Defined.

(** *** Labels outside [-C, C) *)

Lemma naive_step_raises (W X : matrix) (y : labels) (i : nat) (st : R * matrix)
    (e : exn) :
  shape1 X = shape0 W -> (1 <= shape1 W)%nat ->
  naive_step W X y i st = Raise e -> e = IndexError.
Proof.
  intros Hsh HC. destruct st as [loss dW]. unfold naive_step, vec_dot.
  cbn [row size]. rewrite Hsh, Nat.eqb_refl. cbn [bind]. unfold np_max. cbn [size].
  destruct (shape1 W) as [|c] eqn:HW; [lia|]. cbn [bind vec_map size]. intros H.
  destruct (py_index (S c) (y i)) as [e'|k] eqn:Hk; cbn [bind] in H; [|discriminate H].
  injection H as <-. eapply py_index_raises, Hk.
Qed.

Lemma naive_step_out_of_bounds (W X : matrix) (y : labels) (i : nat)
    (st : R * matrix) :
  shape1 X = shape0 W -> (1 <= shape1 W)%nat ->
  (y i < - Z.of_nat (shape1 W) \/ Z.of_nat (shape1 W) <= y i)%Z ->
  naive_step W X y i st = Raise IndexError.
Proof.
  intros Hsh HC Hout. destruct st as [loss dW]. unfold naive_step, vec_dot.
  cbn [row size]. rewrite Hsh, Nat.eqb_refl. cbn [bind]. unfold np_max. cbn [size].
  destruct (shape1 W) as [|c] eqn:HW; [lia|]. cbn [bind vec_map size].
  rewrite py_index_out_of_bounds by exact Hout. reflexivity.
Qed.

(** With aligned shapes and at least one class, a label outside [-C, C)
    makes both implementations raise IndexError. *)
Theorem softmax_loss_label_out_of_bounds (W X : matrix) (y : labels) (reg : R) :
  shape1 X = shape0 W ->
  (1 <= shape1 W)%nat ->
  label_out_of_bounds W X y ->
  softmax_loss_naive W X y reg = Raise IndexError
  /\ softmax_loss_vectorized W X y reg = Raise IndexError.
Proof.
  intros Hsh HC (i & Hi & Hout). split.
  - unfold softmax_loss_naive.
    rewrite (for_in_some_pass_raises IndexError); [reflexivity| |].
    + intros a t e _. apply naive_step_raises; assumption.
    + exists i. split; [apply in_seq; lia|]. intros t. eexists.
      apply naive_step_out_of_bounds; assumption.
  - unfold softmax_loss_vectorized, np_dot. rewrite Hsh, Nat.eqb_refl. cbn [bind].
    unfold np_max2. cbn [mat_map shape0 shape1].
    destruct (shape0 X) as [|n] eqn:HX; [lia|].
    destruct (shape1 W) as [|c] eqn:HW; [lia|]. cbn [bind].
    rewrite label_indices_out_of_bounds; [reflexivity|]. exists i. auto.
Qed.

Lemma softmax_loss_label_out_of_bounds_witness :
  softmax_loss_naive W_zeros23 X_ones12 y_five 0 = Raise IndexError
  /\ softmax_loss_vectorized W_zeros23 X_ones12 y_five 0 = Raise IndexError.
Proof.
  apply (softmax_loss_label_out_of_bounds W_zeros23 X_ones12 y_five 0).
  - reflexivity.
  - simpl. lia.
  - exists O. split; [simpl; lia|]. right. unfold y_five, W_zeros23. cbn. lia.
Defined.

(** *** Negative labels count from the last class *)

Lemma label_indices_wrap (c : nat) (y : labels) (n : nat) :
  (forall i, (i < n)%nat -> (- Z.of_nat c <= y i < Z.of_nat c)%Z) ->
  label_indices c (wrap_labels c y) n = label_indices c y n.
Proof.
  induction n as [|n IH]; intros Hy; [reflexivity|]. cbn [label_indices].
  rewrite IH by (intros; apply Hy; lia). unfold wrap_labels at 1.
  rewrite py_index_wrap by (apply Hy; lia). reflexivity.
Qed.

(** The vectorized implementation reads a label [k] in [-C, 0) as the class
    [k + C]: it returns the same loss and gradient as on the labels counted
    from zero. *)
Theorem softmax_vectorized_negative_labels (W X : matrix) (y : labels) (reg : R) :
  labels_indexable W X y ->
  softmax_loss_vectorized W X (wrap_labels (shape1 W) y) reg
  = softmax_loss_vectorized W X y reg.
Proof.
  intros Hy. unfold softmax_loss_vectorized, np_dot.
  destruct (Nat.eqb (shape1 X) (shape0 W)); [|reflexivity]. cbn [bind].
  destruct (np_max2 _) as [e|f_max]; [reflexivity|]. cbn [bind].
  cbn [mat_map shape0 shape1]. rewrite label_indices_wrap by exact Hy.
  reflexivity.
Qed.

Lemma softmax_vectorized_negative_labels_witness :
  softmax_loss_vectorized W_zeros23 X_ones12 (wrap_labels 3 y_last) 0
  = softmax_loss_vectorized W_zeros23 X_ones12 y_last 0.
Proof.
  apply (softmax_vectorized_negative_labels W_zeros23 X_ones12 y_last 0).
  intros i Hi. unfold y_last, W_zeros23. cbn. lia.
Defined.

End SoftmaxErrors.

(** * Properties of fc_net.py *)

(** ** Loops in the exception monad *)

Section Loops.

Lemma for_in_ext {A S : Type} (f g : A -> S -> res S) (l : list A) (s : S) :
  (forall a s', f a s' = g a s') -> for_in l f s = for_in l g s.
Proof.
  intros Hfg. revert s. induction l as [|a l IH]; intros s; simpl; [reflexivity|].
  rewrite Hfg. destruct (g a s); simpl; [reflexivity|apply IH].
Qed.

Lemma for_in_app {A S : Type} (f : A -> S -> res S) (l1 l2 : list A) (s : S) :
  for_in (l1 ++ l2) f s = bind (for_in l1 f s) (for_in l2 f).
Proof.
  revert s. induction l1 as [|a l1 IH]; intros s; simpl; [reflexivity|].
  destruct (f a s); simpl; [reflexivity|apply IH].
Qed.

(** A property kept by every pass of a loop holds when the loop ends. *)
Lemma for_in_invariant {A S : Type} (P : S -> Prop) (f : A -> S -> res S)
    (l : list A) (s s' : S) :
  (forall a t t', In a l -> P t -> f a t = Ok t' -> P t') ->
  P s -> for_in l f s = Ok s' -> P s'.
Proof.
  revert s. induction l as [|a l IH]; intros s Hstep Hs Hrun; simpl in Hrun.
  - injection Hrun as <-. exact Hs.
  - destruct (f a s) as [e|t] eqn:Hf; simpl in Hrun; [discriminate|].
    apply (IH t); [|eapply Hstep; eauto; left; reflexivity|exact Hrun].
    intros b u u' Hb. apply Hstep. right; exact Hb.
Qed.

(** A loop raises only what one of its passes raises. *)
Lemma for_in_raises {A S : Type} (Q : exn -> Prop) (f : A -> S -> res S)
    (l : list A) (s : S) (e : exn) :
  (forall a t e', In a l -> f a t = Raise e' -> Q e') ->
  for_in l f s = Raise e -> Q e.
Proof.
  revert s. induction l as [|a l IH]; intros s Hstep Hrun; simpl in Hrun;
    [discriminate|].
  destruct (f a s) as [e'|t] eqn:Hf; simpl in Hrun.
  - injection Hrun as <-. eapply Hstep; [left; reflexivity|exact Hf].
  - apply (IH t); [|exact Hrun]. intros b u e' Hb. apply Hstep. right; exact Hb.
Qed.

End Loops.

(** ** Inference does not read the regularization strength *)

Section Inference.
Import Numpy.
Variable Ly : Layers.

Lemma TwoLayerNet_scores_reg (s : TwoLayerNet.self) (r : R) (X : ndarray) :
  TwoLayerNet.loss Ly (TwoLayerNet.with_reg s r) X None
  = TwoLayerNet.loss Ly s X None.
Proof. reflexivity. Qed.

(** The forward pass reads the model through [params] and [L] only. *)
Lemma forward_params_L (s s' : FullyConnectedNet.self) (X : ndarray) :
  FullyConnectedNet.params s = FullyConnectedNet.params s' ->
  FullyConnectedNet.L s = FullyConnectedNet.L s' ->
  FullyConnectedNet.forward Ly s X = FullyConnectedNet.forward Ly s' X.
Proof.
  intros Hp HL. unfold FullyConnectedNet.forward.
  destruct (shape0 X) as [e|n]; [reflexivity|]. cbn [bind].
  rewrite (for_in_ext (FullyConnectedNet.forward_step Ly s)
             (FullyConnectedNet.forward_step Ly s')).
  - rewrite HL. reflexivity.
  - intros i h. unfold FullyConnectedNet.forward_step. rewrite Hp, HL. reflexivity.
Qed.

Lemma FullyConnectedNet_scores_reg (s : FullyConnectedNet.self) (r : R)
    (X : ndarray) :
  snd (FullyConnectedNet.loss Ly (FullyConnectedNet.with_reg s r) X None)
  = snd (FullyConnectedNet.loss Ly s X None).
Proof.
  unfold FullyConnectedNet.loss, FullyConnectedNet.set_bn_mode.
  cbn [FullyConnectedNet.set_dropout_mode FullyConnectedNet.with_reg
       FullyConnectedNet.use_batchnorm FullyConnectedNet.bn_params
       FullyConnectedNet.dtype_of].
  destruct (FullyConnectedNet.use_batchnorm s);
    [destruct (FullyConnectedNet.bn_params s); [reflexivity|]|];
    cbn [snd]; (erewrite forward_params_L; [reflexivity|reflexivity|reflexivity]).
Qed.

End Inference.

(** ** Construction of a FullyConnectedNet *)

Section Construction.
Import Numpy FullyConnectedNet.

(** Case analysis on the calls a definition in the exception monad makes. *)
Ltac inv_bind H :=
  repeat match type of H with
  | bind ?m _ = _ =>
      let E := fresh "E" in
      destruct m as [?|?] eqn:E; cbn [bind] in H; [try discriminate H|]
  | (let '(_, _) := ?p in _) = _ => destruct p
  end.

(** *** Decimal numerals start with a digit *)

Lemma pretty_N_char_digit (x : BinNums.N) : digit (pretty_N_char x).
Proof.
  unfold pretty_N_char, digit.
  repeat (match goal with |- context [match ?v with _ => _ end] => destruct v end);
    vm_compute; lia.
Qed.

Lemma pretty_N_go_digit (x : BinNums.N) (s : string) :
  (0 < x)%N -> exists c r, pretty_N_go x s = String c r /\ digit c.
Proof.
  revert s. induction (N.lt_wf_0 x) as [x _ IH]. intros s Hx.
  rewrite pretty_N_go_step by exact Hx.
  destruct (N.eq_dec (x `div` 10) 0) as [Hz|Hnz].
  - rewrite Hz, pretty_N_go_0. eexists _, _. split; [reflexivity|].
    apply pretty_N_char_digit.
  - apply IH; [apply N.div_lt; [exact Hx|reflexivity]|].
    apply N.neq_0_lt_0. exact Hnz.
Qed.

Lemma str_digit (n : nat) : exists c r, str n = String c r /\ digit c.
Proof.
  unfold str, pretty, pretty_nat, pretty, pretty_N.
  destruct (decide (N.of_nat n = 0%N)) as [_|Hn].
  - eexists _, _. split; [reflexivity|]. unfold digit. vm_compute. lia.
  - apply pretty_N_go_digit. lia.
Qed.

Lemma b_key_not_beta (i j : nat) : "b" +:+ str i <> "beta" +:+ str j.
Proof.
  destruct (str_digit i) as (c & r & Hs & Hd). rewrite Hs. cbn.
  intros [= ->]. unfold digit in Hd. vm_compute in Hd. lia.
Qed.

(** *** Keys written by the loops of the constructor *)

Lemma init_scale_shift_keys (name : string) (fill : Z -> res ndarray)
    (dims : list Z) (l : list nat) (d : gmap string ndarray) :
  for_in l (init_scale_shift name fill dims) ∅ = Ok d ->
  forall k, is_Some (d !! k) -> exists j, k = name +:+ str (j + 1).
Proof.
  apply (for_in_invariant
           (fun d : gmap string ndarray =>
              forall k, is_Some (d !! k) -> exists j, k = name +:+ str (j + 1))).
  - intros i t t' _ Ht Hstep k Hk. unfold init_scale_shift in Hstep.
    inv_bind Hstep. injection Hstep as <-.
    destruct (decide (name +:+ str (i + 1) = k)) as [<-|Hne].
    + exists i. reflexivity.
    + rewrite lookup_insert_ne in Hk by exact Hne. apply Ht. exact Hk.
  - intros k Hk. rewrite lookup_empty in Hk. destruct Hk as [? Hk]. discriminate.
Qed.

Lemma init_scale_shift_present (name : string) (fill : Z -> res ndarray)
    (dims : list Z) (n : nat) (d : gmap string ndarray) :
  for_in (range n) (init_scale_shift name fill dims) ∅ = Ok d ->
  forall j, (j < n)%nat -> is_Some (d !! (name +:+ str (j + 1))).
Proof.
  revert d. unfold range. induction n as [|n IH]; intros d Hrun j Hj; [lia|].
  rewrite seq_S, for_in_app in Hrun. cbn [Nat.add] in Hrun.
  destruct (for_in (seq 0 n) _ ∅) as [e|d1] eqn:Hd1; cbn [bind for_in] in Hrun;
    [discriminate|].
  destruct (init_scale_shift name fill dims n d1) as [e|d2] eqn:Hstep;
    cbn [bind] in Hrun; [discriminate|]. injection Hrun as <-.
  unfold init_scale_shift in Hstep. inv_bind Hstep. injection Hstep as <-.
  apply lookup_insert_is_Some'.
  destruct (Nat.eq_dec j n) as [->|Hne]; [left; reflexivity|].
  right. apply (IH d1); [reflexivity|lia].
Qed.

Lemma init_layer_keys (dims : list Z) (ws : R) (l : list nat) (g g1 : RandomState)
    (Ws bs : gmap string ndarray) :
  for_in l (init_layer dims ws) (∅, ∅, g) = Ok (Ws, bs, g1) ->
  (forall k, is_Some (Ws !! k) -> exists j, In j l /\ k = "W" +:+ str (j + 1))
  /\ (forall k, is_Some (bs !! k) -> exists j, In j l /\ k = "b" +:+ str (j + 1)).
Proof.
  intros Hrun.
  apply (for_in_invariant
           (fun st : gmap string ndarray * gmap string ndarray * RandomState =>
              (forall k, is_Some (st.1.1 !! k) ->
                 exists j, In j l /\ k = "W" +:+ str (j + 1))
              /\ (forall k, is_Some (st.1.2 !! k) ->
                 exists j, In j l /\ k = "b" +:+ str (j + 1))))
    in Hrun; [exact Hrun| |].
  - intros i [[W0 b0] g0] t' Hi [HW Hb] Hstep. unfold init_layer in Hstep.
    inv_bind Hstep. injection Hstep as <-. cbn [fst snd]. split; intros k Hk.
    + destruct (decide ("W" +:+ str (i + 1) = k)) as [<-|Hne]; [by exists i|].
      rewrite lookup_insert_ne in Hk by exact Hne. by apply HW.
    + destruct (decide ("b" +:+ str (i + 1) = k)) as [<-|Hne]; [by exists i|].
      rewrite lookup_insert_ne in Hk by exact Hne. by apply Hb.
  - cbn [fst snd]. split; intros k Hk; rewrite lookup_empty in Hk;
      destruct Hk as [? Hk]; discriminate.
Qed.

(** *** What a successful construction built *)

Lemma init_inv (g g' : RandomState) (hd : pyarg) (D C : Z) (dropout : R)
    (bn : bool) (reg ws : R) (dt : dtype) (seed : option Z) (s : self) :
  init g hd D C dropout bn reg ws dt seed = Ok (s, g') ->
  exists l Ws bs extra,
    hd = PyList l
    /\ for_in (range (length l + 1)) (init_layer ([D] ++ l ++ [C]) ws) (∅, ∅, g)
       = Ok (Ws, bs, g')
    /\ FullyConnectedNet.L s = (length l + 1)%nat
    /\ dtype_of s = dt
    /\ use_batchnorm s = bn
    /\ FullyConnectedNet.reg s = reg
    /\ params s = astype dt <$> (extra ∪ (bs ∪ (Ws ∪ ∅)))
    /\ (forall k, is_Some (extra !! k) ->
          exists j, k = "gamma" +:+ str (j + 1) \/ k = "beta" +:+ str (j + 1))
    /\ (if bn
        then (exists d, bn_params s = BnDict d)
             /\ forall j, (j < length l)%nat -> is_Some (extra !! ("gamma" +:+ str (j + 1)))
        else bn_params s = BnList /\ extra = ∅).
Proof.
  intros Hinit. unfold init in Hinit.
  destruct hd as [l|l|n|]; cbn [py_len bind] in Hinit; try discriminate Hinit.
  replace (length ([D] ++ l ++ [C]) - 1)%nat with (length l + 1)%nat in Hinit
    by (cbn; rewrite length_app; cbn; lia).
  replace (length ([D] ++ l ++ [C]) - 2)%nat with (length l) in Hinit
    by (cbn; rewrite length_app; cbn; lia).
  destruct (for_in (range (length l + 1)) _ _) as [e|[[Ws bs] g1]] eqn:Hloop;
    cbn [bind] in Hinit; [discriminate|].
  destruct bn.
  - destruct (for_in (range (length l)) (init_bn_param _) ∅) as [e|bnd] eqn:Hbn;
      cbn [bind] in Hinit; [discriminate|].
    destruct (for_in (range (length l)) (init_scale_shift "gamma" _ _) ∅)
      as [e|gammas] eqn:Hga; cbn [bind] in Hinit; [discriminate|].
    destruct (for_in (range (length l)) (init_scale_shift "beta" _ _) ∅)
      as [e|betas] eqn:Hbe; cbn [bind] in Hinit; [discriminate|].
    injection Hinit as <- <-.
    exists l, Ws, bs, (gammas ∪ betas). cbn.
    repeat (split; [first [reflexivity|exact Hloop]|]).
    split; [by rewrite (assoc_L (∪))|]. split; [|split; [by eexists|]].
    + intros k Hk. apply lookup_union_is_Some in Hk as [Hk|Hk].
      * destruct (init_scale_shift_keys _ _ _ _ _ Hga k Hk) as [j ->]. eauto.
      * destruct (init_scale_shift_keys _ _ _ _ _ Hbe k Hk) as [j ->]. eauto.
    + intros j Hj. apply lookup_union_is_Some. left.
      exact (init_scale_shift_present _ _ _ _ _ Hga j Hj).
  - injection Hinit as <- <-. exists l, Ws, bs, ∅. cbn.
    repeat (split; [first [reflexivity|exact Hloop]|]).
    split; [by rewrite (left_id_L ∅ (∪))|].
    split; [|done]. intros k Hk. rewrite lookup_empty in Hk. by destruct Hk.
Qed.

End Construction.

(** ** The forward pass of a FullyConnectedNet *)

Section ForwardPass.
Import Numpy FullyConnectedNet.
Variable Ly : Layers.

(** The forward pass reads [params] under the keys [W1, b1, W2, b2, ...]
    only. *)
Lemma forward_weights_biases (s s' : self) (X : ndarray) :
  (forall i, params s !! ("W" +:+ str i) = params s' !! ("W" +:+ str i)) ->
  (forall i, params s !! ("b" +:+ str i) = params s' !! ("b" +:+ str i)) ->
  FullyConnectedNet.L s = FullyConnectedNet.L s' ->
  forward Ly s X = forward Ly s' X.
Proof.
  intros HW Hb HL. unfold forward.
  destruct (shape0 X) as [e|n]; [reflexivity|]. cbn [bind].
  rewrite (for_in_ext (forward_step Ly s) (forward_step Ly s')).
  - rewrite HL. reflexivity.
  - intros i h. unfold forward_step, dict_get. rewrite HW, Hb, HL. reflexivity.
Qed.

(** Setting the mode leaves [params] and [L] as they are. *)
Lemma set_bn_mode_params_L (s s' : self) (mode : string) :
  set_bn_mode (set_dropout_mode s mode) mode = Ok s' ->
  params s' = params s /\ FullyConnectedNet.L s' = FullyConnectedNet.L s.
Proof.
  unfold set_bn_mode. cbn [set_dropout_mode use_batchnorm bn_params].
  destruct (use_batchnorm s); [destruct (bn_params s); [discriminate|]|];
    intros [= <-]; split; reflexivity.
Qed.

(** In inference mode [loss] returns the scores of the forward pass, unless
    writing the mode raised. *)
Lemma loss_inference (s : self) (X : ndarray) :
  snd (loss Ly s X None)
  = bind (set_bn_mode (set_dropout_mode s "test") "test")
      (fun s' => bind (forward Ly s (astype (dtype_of s) X))
                   (fun hs => Ok (Scores (snd hs)))).
Proof.
  unfold loss.
  destruct (set_bn_mode (set_dropout_mode s "test") "test") as [e|s'] eqn:Hm;
    cbn [snd bind]; [reflexivity|].
  destruct (set_bn_mode_params_L _ _ _ Hm) as [Hp HL].
  rewrite (forward_weights_biases s' s) by (rewrite ?Hp, ?HL; reflexivity).
  replace (dtype_of (set_dropout_mode s "test")) with (dtype_of s) by reflexivity.
  destruct (forward Ly s _) as [e|[hs sc]]; reflexivity.
Qed.

Lemma set_bn_mode_constructed (s : self) (mode : string) :
  (if use_batchnorm s then exists d, bn_params s = BnDict d else True) ->
  exists s', set_bn_mode (set_dropout_mode s mode) mode = Ok s'.
Proof.
  unfold set_bn_mode. cbn [set_dropout_mode use_batchnorm bn_params].
  destruct (use_batchnorm s); [intros [d ->]|intros _]; eexists; reflexivity.
Qed.

(** C5 (the toggles and the forward pass). A network constructed with batch
    normalization or dropout switched on computes, in its forward pass, the
    scores of the network constructed from the same generator with both
    switched off: the loop of lines 284-297 calls [affine_relu_forward] and
    [affine_forward] only, whatever the toggles are. *)
Theorem forward_ignores_toggles (g g1 g0 : RandomState) (hd : pyarg) (D C : Z)
    (dropout : R) (bn : bool) (reg ws : R) (dt : dtype) (seed : option Z)
    (s s0 : self) (X : ndarray) :
  init g hd D C dropout bn reg ws dt seed = Ok (s, g1) ->
  init g hd D C 0 false reg ws dt None = Ok (s0, g0) ->
  snd (loss Ly s X None) = snd (loss Ly s0 X None).
Proof.
  intros Hs Hs0.
  destruct (init_inv _ _ _ _ _ _ _ _ _ _ _ _ Hs)
    as (l & Ws & bs & extra & -> & Hloop & HL & Hdt & Hbn & _ & Hp & Hextra & Hbnp).
  destruct (init_inv _ _ _ _ _ _ _ _ _ _ _ _ Hs0)
    as (l0 & Ws0 & bs0 & extra0 & [= <-] & Hloop0 & HL0 & Hdt0 & Hbn0 & _ & Hp0
        & _ & (_ & ->)).
  rewrite Hloop in Hloop0. injection Hloop0 as <- <- _.
  rewrite !loss_inference.
  destruct (set_bn_mode_constructed s "test") as [s' ->].
  { rewrite Hbn. destruct bn; [apply Hbnp|exact I]. }
  destruct (set_bn_mode_constructed s0 "test") as [s0' ->].
  { rewrite Hbn0. exact I. }
  cbn [bind]. rewrite Hdt, Hdt0.
  rewrite (forward_weights_biases s s0); [reflexivity| | |congruence].
  - intros i. rewrite Hp, Hp0, !lookup_fmap. f_equal.
    rewrite (left_id_L ∅ (∪)). apply lookup_union_r.
    destruct (extra !! ("W" +:+ str i)) as [a|] eqn:Hk; [|reflexivity].
    destruct (Hextra _ (mk_is_Some _ _ Hk)) as [j [Hj|Hj]]; discriminate Hj.
  - intros i. rewrite Hp, Hp0, !lookup_fmap. f_equal.
    rewrite (left_id_L ∅ (∪)). apply lookup_union_r.
    destruct (extra !! ("b" +:+ str i)) as [a|] eqn:Hk; [|reflexivity].
    destruct (Hextra _ (mk_is_Some _ _ Hk)) as [j [Hj|Hj]]; [discriminate Hj|].
    exfalso. exact (b_key_not_beta _ _ Hj).
Qed.

End ForwardPass.

Section ForwardPassWitness.
Import Numpy FullyConnectedNet.

Lemma forward_ignores_toggles_witness :
  exists s s0 : self,
    use_batchnorm s = true /\ use_batchnorm s0 = false
    /\ snd (loss zero_layers s X_one None) = snd (loss zero_layers s0 X_one None).
Proof.
  destruct (init rng_half (PyList [1%Z]) 1 1 (1 / 2) true 0 1 exact None)
    as [e|[s g1]] eqn:Hs; [vm_compute in Hs; discriminate|].
  destruct (init rng_half (PyList [1%Z]) 1 1 0 false 0 1 exact None)
    as [e|[s0 g0]] eqn:Hs0; [vm_compute in Hs0; discriminate|].
  exists s, s0.
  split; [|split].
  - destruct (init_inv _ _ _ _ _ _ _ _ _ _ _ _ Hs) as (? & ? & ? & ? & ? & ? & ? & ? & H & _).
    exact H.
  - destruct (init_inv _ _ _ _ _ _ _ _ _ _ _ _ Hs0) as (? & ? & ? & ? & ? & ? & ? & ? & H & _).
    exact H.
  - exact (forward_ignores_toggles zero_layers rng_half g1 g0 (PyList [1%Z]) 1 1
             (1 / 2) true 0 1 exact None s s0 X_one Hs Hs0).
Defined.

End ForwardPassWitness.

(** ** Regularization and inference; the check of [hidden_dims] *)

Section RegAndConfig.
Import Numpy.

Lemma for_in_total {A S : Type} (f : A -> S -> res S) (l : list A) (s : S) :
  (forall a t, In a l -> exists t', f a t = Ok t') ->
  exists s', for_in l f s = Ok s'.
Proof.
  revert s. induction l as [|a l IH]; intros s Hstep; simpl; [eauto|].
  destruct (Hstep a s) as [t ->]; [left; reflexivity|]. simpl.
  apply IH. intros b u Hb. apply Hstep. right; exact Hb.
Qed.

Lemma TwoLayerNet_init_reg (g : RandomState) (D M C : Z) (ws r r' : R) :
  TwoLayerNet.init g D M C ws r'
  = match TwoLayerNet.init g D M C ws r with
    | Ok (s, g') => Ok (TwoLayerNet.with_reg s r', g')
    | Raise e => Raise e
    end.
Proof.
  unfold TwoLayerNet.init.
  destruct (np_random_randn g D M) as [e|[r1 g1]]; cbn [bind]; [reflexivity|].
  destruct (np_zeros M) as [e|b1]; cbn [bind]; [reflexivity|].
  destruct (np_random_randn g1 M C) as [e|[r2 g2]]; cbn [bind]; [reflexivity|].
  destruct (np_zeros C) as [e|b2]; cbn [bind]; reflexivity.
Qed.

Lemma FullyConnectedNet_init_reg (g : RandomState) (hd : FullyConnectedNet.pyarg)
    (D C : Z) (dropout : R) (bn : bool) (ws : R) (dt : dtype) (seed : option Z)
    (r r' : R) :
  FullyConnectedNet.init g hd D C dropout bn r' ws dt seed
  = match FullyConnectedNet.init g hd D C dropout bn r ws dt seed with
    | Ok (s, g') => Ok (FullyConnectedNet.with_reg s r', g')
    | Raise e => Raise e
    end.
Proof.
  unfold FullyConnectedNet.init.
  destruct (FullyConnectedNet.py_len hd) as [e|n]; cbn [bind]; [reflexivity|].
  destruct hd as [l|l|k|]; cbn [bind]; try reflexivity.
  destruct (for_in _ (FullyConnectedNet.init_layer _ _) _) as [e|[[Ws bs] g1]];
    cbn [bind]; [reflexivity|].
  destruct bn; [|reflexivity].
  destruct (for_in _ (FullyConnectedNet.init_bn_param _) _) as [e|bnd];
    cbn [bind]; [reflexivity|].
  destruct (for_in _ (FullyConnectedNet.init_scale_shift "gamma" _ _) _) as [e|ga];
    cbn [bind]; [reflexivity|].
  destruct (for_in _ (FullyConnectedNet.init_scale_shift "beta" _ _) _) as [e|be];
    cbn [bind]; reflexivity.
Qed.

(** C10. With [y] absent, [loss(X)] returns the same scores for two models
    that differ in [reg] only, for both classes; and two constructions that
    differ in the [reg] argument only build models that differ in [reg]
    only. *)
Theorem inference_scores_ignore_reg (Ly : Layers) (X : ndarray) :
  (forall (s : TwoLayerNet.self) (r : R),
     TwoLayerNet.loss Ly (TwoLayerNet.with_reg s r) X None
     = TwoLayerNet.loss Ly s X None)
  /\ (forall (s : FullyConnectedNet.self) (r : R),
     snd (FullyConnectedNet.loss Ly (FullyConnectedNet.with_reg s r) X None)
     = snd (FullyConnectedNet.loss Ly s X None))
  /\ (forall g D M C ws r r',
     TwoLayerNet.init g D M C ws r'
     = match TwoLayerNet.init g D M C ws r with
       | Ok (s, g') => Ok (TwoLayerNet.with_reg s r', g')
       | Raise e => Raise e
       end)
  /\ (forall g hd D C dropout bn ws dt seed r r',
     FullyConnectedNet.init g hd D C dropout bn r' ws dt seed
     = match FullyConnectedNet.init g hd D C dropout bn r ws dt seed with
       | Ok (s, g') => Ok (FullyConnectedNet.with_reg s r', g')
       | Raise e => Raise e
       end).
Proof.
  split; [|split; [|split]].
  - intros s r. apply TwoLayerNet_scores_reg.
  - intros s r. apply FullyConnectedNet_scores_reg.
  - intros. apply TwoLayerNet_init_reg.
  - intros. apply FullyConnectedNet_init_reg.
Qed.

(** *** Exceptions of the constructor *)

Import FullyConnectedNet.

Lemma list_get_raises {A : Type} (l : list A) (i : nat) (e : exn) :
  list_get l i = Raise e -> e = IndexError.
Proof. unfold list_get. destruct (l !! i); [discriminate|]. by intros [= <-]. Qed.

Lemma np_zeros_raises (d : Z) (e : exn) : np_zeros d = Raise e -> e = negative_dims.
Proof. unfold np_zeros. destruct (d <? 0)%Z; [|discriminate]. by intros [= <-]. Qed.

Lemma np_ones_raises (d : Z) (e : exn) : np_ones d = Raise e -> e = negative_dims.
Proof. unfold np_ones. destruct (d <? 0)%Z; [|discriminate]. by intros [= <-]. Qed.

Lemma np_random_rand_raises (g : RandomState) (d0 d1 : Z) (e : exn) :
  np_random_rand g d0 d1 = Raise e -> e = negative_dims.
Proof.
  unfold np_random_rand. destruct (_ || _)%Z; [|discriminate]. by intros [= <-].
Qed.

(** Past the check of line 198 the constructor raises only IndexError (from
    [dims[i+i]]) or numpy's complaint about a negative dimension. *)
Lemma init_list_raises (g : RandomState) (l : list Z) (D C : Z) (dropout : R)
    (bn : bool) (reg ws : R) (dt : dtype) (seed : option Z) (e : exn) :
  init g (PyList l) D C dropout bn reg ws dt seed = Raise e ->
  e = IndexError \/ e = negative_dims.
Proof.
  assert (Hscale : forall name fill dims ll (st : gmap string ndarray) e',
            (forall d e'', fill d = Raise e'' -> e'' = negative_dims) ->
            for_in ll (init_scale_shift name fill dims) st = Raise e' ->
            e' = IndexError \/ e' = negative_dims).
  { intros name fill dims ll st e' Hfill.
    apply (for_in_raises (fun x => x = IndexError \/ x = negative_dims)). intros i t e'' _ Hstep. unfold init_scale_shift in Hstep.
    destruct (list_get dims (i + 1)) as [x|d1] eqn:H1; cbn [bind] in Hstep.
    { injection Hstep as <-. left. eapply list_get_raises, H1. }
    destruct (fill d1) as [x|a] eqn:H2; cbn [bind] in Hstep; [|discriminate].
    injection Hstep as <-. right. eapply Hfill, H2. }
  unfold init. cbn [py_len bind]. intros Hinit.
  destruct (for_in _ (init_layer _ _) _) as [e1|[[Ws bs] g1]] eqn:Hloop;
    cbn [bind] in Hinit.
  { injection Hinit as <-. revert Hloop. apply (for_in_raises (fun x => x = IndexError \/ x = negative_dims)).
    intros i [[W0 b0] g0] e' _ Hstep. unfold init_layer in Hstep.
    destruct (list_get _ i) as [x|d0] eqn:H0; cbn [bind] in Hstep.
    { injection Hstep as <-. left. eapply list_get_raises, H0. }
    destruct (list_get _ (i + 1)) as [x|d1] eqn:H1; cbn [bind] in Hstep.
    { injection Hstep as <-. left. eapply list_get_raises, H1. }
    destruct (np_random_rand g0 d0 d1) as [x|[r g2]] eqn:H2; cbn [bind] in Hstep.
    { injection Hstep as <-. right. eapply np_random_rand_raises, H2. }
    destruct (np_zeros d1) as [x|z] eqn:H3; cbn [bind] in Hstep; [|discriminate].
    injection Hstep as <-. right. eapply np_zeros_raises, H3. }
  destruct bn; [|discriminate].
  destruct (for_in _ (init_bn_param _) _) as [e1|bnd] eqn:Hbn; cbn [bind] in Hinit.
  { injection Hinit as <-. revert Hbn. apply (for_in_raises (fun x => x = IndexError \/ x = negative_dims)).
    intros i t e' _ Hstep. unfold init_bn_param in Hstep.
    destruct (list_get _ (i + 1)) as [x|d1] eqn:H1; cbn [bind] in Hstep.
    { injection Hstep as <-. left. eapply list_get_raises, H1. }
    destruct (np_zeros d1) as [x|z] eqn:H2; cbn [bind] in Hstep.
    { injection Hstep as <-. right. eapply np_zeros_raises, H2. }
    destruct (list_get _ (i + i)) as [x|d2] eqn:H3; cbn [bind] in Hstep.
    { injection Hstep as <-. left. eapply list_get_raises, H3. }
    destruct (np_zeros d2) as [x|z2] eqn:H4; cbn [bind] in Hstep; [|discriminate].
    injection Hstep as <-. right. eapply np_zeros_raises, H4. }
  destruct (for_in _ (init_scale_shift "gamma" _ _) _) as [e1|ga] eqn:Hga;
    cbn [bind] in Hinit.
  { injection Hinit as <-. eapply Hscale, Hga. apply np_ones_raises. }
  destruct (for_in _ (init_scale_shift "beta" _ _) _) as [e1|be] eqn:Hbe;
    cbn [bind] in Hinit; [|discriminate].
  injection Hinit as <-. eapply Hscale, Hbe. apply np_zeros_raises.
Qed.

End RegAndConfig.

(** ** Passes of the constructor's loops, and two constructions *)

Section Config.
Import Numpy FullyConnectedNet.

Lemma init_layer_total (dims : list Z) (ws : R) (i : nat)
    (st : gmap string ndarray * gmap string ndarray * RandomState) :
  (i + 1 < length dims)%nat ->
  Forall (fun d => (0 <= d)%Z) dims ->
  exists st', init_layer dims ws i st = Ok st'.
Proof.
  intros Hi Hdims. destruct st as [[Ws bs] g]. unfold init_layer, list_get.
  destruct (lookup_lt_is_Some_2 dims i ltac:(lia)) as [d0 H0].
  destruct (lookup_lt_is_Some_2 dims (i + 1) ltac:(lia)) as [d1 H1].
  rewrite H0, H1. cbn [bind].
  pose proof (proj1 (Forall_lookup _ _) Hdims _ _ H0) as P0.
  pose proof (proj1 (Forall_lookup _ _) Hdims _ _ H1) as P1.
  cbv beta in P0, P1.
  unfold np_random_rand, np_zeros.
  destruct (Z.ltb_spec d0 0); [lia|]. destruct (Z.ltb_spec d1 0); [lia|].
  cbn [orb bind]. eexists. reflexivity.
Qed.

(** With batch normalization and four hidden layers the constructor itself
    fails: [dims[i+i]] at [i = 3] reads past the end of [dims]. *)
Example init_batchnorm_four_hidden_layers :
  init rng_half (PyList [1%Z; 1%Z; 1%Z; 1%Z]) 1 1 0 true 0 1 exact None
  = Raise IndexError.
Proof. vm_compute. reflexivity. Qed.

(** A tuple of positive sizes is rejected. *)
Example init_rejects_tuple :
  init rng_half (PyTuple [3%Z; 4%Z]) 2 2 0 false 0 1 exact None = Raise not_a_list.
Proof. reflexivity. Qed.

End Config.

(** ** The keys of the gradient dictionary *)

Section GradientKeys.
Import Numpy FullyConnectedNet.
Variable Ly : Layers.

Lemma prefix2_tail (key p : string) (a b : Ascii.ascii) :
  p = String a (String b EmptyString) ->
  String.eqb (prefix2 key) p = true ->
  exists r, tail key = String b r.
Proof.
  intros -> Hp. apply String.eqb_eq in Hp.
  destruct key as [|a' [|b' r]]; cbn in Hp; try discriminate Hp.
  injection Hp as -> ->. exists r. reflexivity.
Qed.

(** Every key of [list_dW] is a key of [hiddens] that starts with dW,
    without its first character. *)
Lemma list_dW_keys (s : self) (kvs : list (string * hval Ly))
    (d : gmap string ndarray) :
  for_in kvs (list_dW_entry Ly s) ∅ = Ok d ->
  forall k, is_Some (d !! k) -> exists r, k = "W" +:+ r.
Proof.
  apply (for_in_invariant
           (fun d : gmap string ndarray =>
              forall k, is_Some (d !! k) -> exists r, k = "W" +:+ r)).
  - intros [key val] t t' _ Ht Hstep k Hk. unfold list_dW_entry in Hstep.
    destruct (String.eqb (prefix2 key) "dW") eqn:Hp.
    + destruct (prefix2_tail key "dW" _ _ eq_refl Hp) as [r Hr].
      destruct (as_arr val) as [e|a]; cbn [bind] in Hstep; [discriminate|].
      destruct (dict_get (params s) (tail key)) as [e|w]; cbn [bind] in Hstep;
        [discriminate|].
      destruct (ndarray_add Ly a _) as [e|gr]; cbn [bind] in Hstep; [discriminate|].
      injection Hstep as <-.
      destruct (decide (tail key = k)) as [<-|Hne]; [exists r; exact Hr|].
      rewrite lookup_insert_ne in Hk by exact Hne. by apply Ht.
    + injection Hstep as <-. by apply Ht.
  - intros k Hk. rewrite lookup_empty in Hk. by destruct Hk.
Qed.

Lemma list_db_keys (kvs : list (string * hval Ly)) (d : gmap string ndarray) :
  for_in kvs (list_db_entry Ly) ∅ = Ok d ->
  forall k, is_Some (d !! k) -> exists r, k = "b" +:+ r.
Proof.
  apply (for_in_invariant
           (fun d : gmap string ndarray =>
              forall k, is_Some (d !! k) -> exists r, k = "b" +:+ r)).
  - intros [key val] t t' _ Ht Hstep k Hk. unfold list_db_entry in Hstep.
    destruct (String.eqb (prefix2 key) "db") eqn:Hp.
    + destruct (prefix2_tail key "db" _ _ eq_refl Hp) as [r Hr].
      destruct (as_arr val) as [e|a]; cbn [bind] in Hstep; [discriminate|].
      injection Hstep as <-.
      destruct (decide (tail key = k)) as [<-|Hne]; [exists r; exact Hr|].
      rewrite lookup_insert_ne in Hk by exact Hne. by apply Ht.
    + injection Hstep as <-. by apply Ht.
  - intros k Hk. rewrite lookup_empty in Hk. by destruct Hk.
Qed.

(** The gradient dictionary holds keys that start with W or with b only. *)
Lemma loss_grads_keys (s : self) (X : ndarray) (y : list Z) (l : R)
    (grads : gmap string ndarray) :
  snd (loss Ly s X (Some y)) = Ok (LossGrads l grads) ->
  forall k, k ∈ dom grads -> exists r, k = "W" +:+ r \/ k = "b" +:+ r.
Proof.
  unfold loss. intros Hloss k Hk.
  destruct (set_bn_mode _ _) as [e|s']; cbn [snd] in Hloss; [discriminate|].
  destruct (forward Ly s' _) as [e|[hiddens scores]]; cbn [bind] in Hloss;
    [discriminate|].
  unfold backward in Hloss.
  destruct (softmax_loss Ly scores y) as [e|[data_loss dscores]];
    cbn [bind] in Hloss; [discriminate|].
  destruct (weights_of (params s')) as [e|wl]; cbn [bind] in Hloss; [discriminate|].
  destruct (for_in (rev _) (backward_step Ly s') _) as [e|hs]; cbn [bind] in Hloss;
    [discriminate|].
  destruct (for_in _ (list_dW_entry Ly s') ∅) as [e|ldW] eqn:HdW;
    cbn [bind] in Hloss; [discriminate|].
  destruct (for_in _ (list_db_entry Ly) ∅) as [e|ldb] eqn:Hdb;
    cbn [bind] in Hloss; [discriminate|].
  injection Hloss as _ <-.
  apply elem_of_dom in Hk. apply lookup_union_is_Some in Hk as [Hk|Hk].
  - destruct (list_db_keys _ _ Hdb k Hk) as [r ->]. eauto.
  - apply lookup_union_is_Some in Hk as [Hk|Hk].
    + destruct (list_dW_keys _ _ _ HdW k Hk) as [r ->]. eauto.
    + rewrite lookup_empty in Hk. by destruct Hk.
Qed.

(** C4 (the key sets under batch normalization). For a network constructed
    with [use_batchnorm=True] and at least one hidden layer, the parameter
    dictionary has the key gamma1 and the gradient dictionary returned by
    [loss(X, y)] has not: the two key sets differ. *)
Theorem grads_miss_batchnorm_keys (g g' : RandomState) (hidden : list Z)
    (D C : Z) (dropout reg ws : R) (dt : dtype) (seed : option Z) (s : self)
    (X : ndarray) (y : list Z) (l : R) (grads : gmap string ndarray) :
  init g (PyList hidden) D C dropout true reg ws dt seed = Ok (s, g') ->
  hidden <> [] ->
  snd (loss Ly s X (Some y)) = Ok (LossGrads l grads) ->
  "gamma1" ∈ dom (params s) /\ ("gamma1" ∉ dom grads)
  /\ (dom grads <> dom (params s)).
Proof.
  intros Hs Hne Hloss.
  assert (Hin : "gamma1" ∈ dom (params s)).
  { destruct (init_inv _ _ _ _ _ _ _ _ _ _ _ _ Hs)
      as (l0 & Ws & bs & extra & [= <-] & _ & _ & _ & _ & _ & Hp & _ & _ & Hga).
    rewrite Hp, dom_fmap_L. apply elem_of_dom, lookup_union_is_Some. left.
    apply (Hga 0%nat). destruct hidden; [congruence|cbn; lia]. }
  assert (Hnot : "gamma1" ∉ dom grads).
  { intros Hk. destruct (loss_grads_keys _ _ _ _ _ Hloss _ Hk) as [r [Hr|Hr]];
      discriminate Hr. }
  split; [exact Hin|]. split; [exact Hnot|].
  intros Heq. apply Hnot. rewrite Heq. exact Hin.
Qed.

End GradientKeys.

Section GradientKeysWitness.
Import Numpy FullyConnectedNet.

Lemma grads_miss_batchnorm_keys_witness :
  exists (s : self) (grads : gmap string ndarray),
    use_batchnorm s = true
    /\ "gamma1" ∈ dom (params s) /\ ("gamma1" ∉ dom grads)
    /\ (dom grads <> dom (params s)).
Proof.
  destruct (init rng_half (PyList [1%Z]) 1 1 0 true 0 1 exact None)
    as [e|[s g1]] eqn:Hs; [vm_compute in Hs; discriminate|].
  destruct (snd (loss zero_layers s X_one (Some [0%Z]))) as [e|[sc|l grads]] eqn:Hl.
  - exfalso. revert Hl. vm_compute in Hs. injection Hs as <- _.
    vm_compute. discriminate.
  - exfalso. revert Hl. vm_compute in Hs. injection Hs as <- _.
    vm_compute. discriminate.
  - exists s, grads. split.
    + destruct (init_inv _ _ _ _ _ _ _ _ _ _ _ _ Hs)
        as (? & ? & ? & ? & ? & ? & ? & ? & H & _). exact H.
    + exact (grads_miss_batchnorm_keys zero_layers rng_half g1 [1%Z] 1 1 0 0 1
               exact None s X_one [0%Z] l grads Hs ltac:(discriminate) Hl).
Defined.

End GradientKeysWitness.

(** ** The initial weights and biases *)

Section InitialWeights.
Import Numpy.
Local Open Scope R_scope.

Lemma Forall_repeat_same {A : Type} (P : A -> Prop) (x : A) (n : nat) :
  P x -> Forall P (repeat x n).
Proof. intros Hx. induction n as [|n IH]; cbn; constructor; assumption. Qed.

Lemma Forall_map_seq {A : Type} (P : A -> Prop) (f : nat -> A) (a n : nat) :
  (forall k, P (f k)) -> Forall P (map f (seq a n)).
Proof.
  intros Hf. revert a. induction n as [|n IH]; intros a; cbn; constructor; auto.
Qed.

Lemma Forall_map_image {A B : Type} (P : A -> Prop) (Q : B -> Prop) (f : A -> B)
    (l : list A) :
  (forall x, P x -> Q (f x)) -> Forall P l -> Forall Q (map f l).
Proof.
  intros Hf Hl. induction Hl as [|x l Hx _ IH]; cbn; constructor; auto.
Qed.

Lemma weight_key_inj (p : string) (i j : nat) :
  p +:+ str i = p +:+ str j -> i = j.
Proof.
  intros H. apply (inj (String.app p)) in H. unfold str in H.
  apply (inj pretty) in H. exact H.
Qed.

(** After [n] passes of the loop of lines 209-211 every [W] written so far
    holds samples of [rand] times [weight_scale], and every [b] holds
    zeros. *)
Lemma init_layer_loop (dims : list Z) (ws : R) (g gn : RandomState) (n : nat)
    (Ws bs : gmap string ndarray) :
  for_in (range n) (FullyConnectedNet.init_layer dims ws) (∅, ∅, g)
  = Ok (Ws, bs, gn) ->
  uniform gn = uniform g
  /\ forall j, (j < n)%nat ->
       exists W b,
         Ws !! ("W" +:+ str (j + 1)) = Some W
         /\ bs !! ("b" +:+ str (j + 1)) = Some b
         /\ Forall (fun w => exists k, w = ws * uniform g k) (data W)
         /\ Forall (fun x => x = 0) (data b).
Proof.
  revert Ws bs gn. unfold range.
  induction n as [|n IH]; intros Ws bs gn Hrun.
  - cbn in Hrun. injection Hrun as <- <- <-. split; [reflexivity|]. intros j Hj. lia.
  - rewrite seq_S, for_in_app in Hrun. cbn [Nat.add] in Hrun.
    destruct (for_in (seq 0 n) _ _) as [e|[[Ws1 bs1] g1]] eqn:H1;
      cbn [bind for_in] in Hrun; [discriminate|].
    destruct (IH _ _ _ eq_refl) as [Hu Hprev].
    destruct (FullyConnectedNet.init_layer dims ws n (Ws1, bs1, g1))
      as [e|[[Ws2 bs2] g2]] eqn:Hstep; cbn [bind] in Hrun; [discriminate|].
    injection Hrun as <- <- <-.
    unfold FullyConnectedNet.init_layer in Hstep.
    destruct (list_get dims n) as [e|d0]; cbn [bind] in Hstep; [discriminate|].
    destruct (list_get dims (n + 1)) as [e|d1]; cbn [bind] in Hstep; [discriminate|].
    unfold np_random_rand, np_zeros in Hstep.
    destruct (_ || _)%Z; cbn [bind] in Hstep; [discriminate|].
    destruct (d1 <? 0)%Z; cbn [bind] in Hstep; [discriminate|].
    injection Hstep as <- <- <-.
    split; [exact Hu|]. intros j Hj.
    destruct (Nat.eq_dec j n) as [->|Hne].
    + eexists _, _. rewrite !lookup_insert_eq.
      split; [reflexivity|]. split; [reflexivity|]. cbn [scale data]. split.
      * apply (Forall_map_image (fun u => exists k, u = uniform g k)).
        { intros u [k ->]. exists k. reflexivity. }
        rewrite Hu. apply Forall_map_seq. intros k. exists k. reflexivity.
      * apply Forall_repeat_same. reflexivity.
    + destruct (Hprev j ltac:(lia)) as (W & b & HW & Hb & HfW & Hfb).
      exists W, b. rewrite !lookup_insert_ne; [auto| |].
      * intros Heq. apply weight_key_inj in Heq. lia.
      * intros Heq. apply weight_key_inj in Heq. lia.
Qed.

End InitialWeights.

Section InitialWeightsClaim.
Import Numpy.
Local Open Scope R_scope.

(** [TwoLayerNet.__init__] draws both weight matrices from [randn], one
    sample per entry and no sample used twice, scales them by
    [weight_scale], and sets both biases to zeros. *)
Lemma TwoLayerNet_init_weights (g g' : RandomState) (D M C : Z) (ws reg : R)
    (s : TwoLayerNet.self) :
  TwoLayerNet.init g D M C ws reg = Ok (s, g') ->
  let n1 := (Z.to_nat D * Z.to_nat M)%nat in
  let n2 := (Z.to_nat M * Z.to_nat C)%nat in
  TwoLayerNet.params s !! "W1"
  = Some (mkarr [Z.to_nat D; Z.to_nat M]
            (map (fun k => ws * standard_normal g k) (seq (consumed g) n1)))
  /\ TwoLayerNet.params s !! "W2"
  = Some (mkarr [Z.to_nat M; Z.to_nat C]
            (map (fun k => ws * standard_normal g k) (seq (consumed g + n1) n2)))
  /\ TwoLayerNet.params s !! "b1" = Some (mkarr [Z.to_nat M] (repeat 0 (Z.to_nat M)))
  /\ TwoLayerNet.params s !! "b2" = Some (mkarr [Z.to_nat C] (repeat 0 (Z.to_nat C))).
Proof.
  unfold TwoLayerNet.init, np_random_randn, np_zeros. intros Hinit.
  destruct (_ || _)%Z; cbn [bind] in Hinit; [discriminate|].
  destruct (M <? 0)%Z; cbn [bind] in Hinit; [discriminate|].
  destruct (_ || _)%Z; cbn [bind] in Hinit; [discriminate|].
  destruct (C <? 0)%Z; cbn [bind] in Hinit; [discriminate|].
  injection Hinit as <- _. cbn [TwoLayerNet.params scale data shape advance
    consumed standard_normal].
  unfold scale. cbn [shape data]. rewrite !map_map, (right_id_L ∅ (∪)).
  repeat split; by simplify_map_eq.
Qed.

(** What [FullyConnectedNet.__init__] stores under [W1, b1, W2, b2, ...]:
    every weight is a sample of [rand] times [weight_scale], converted to the
    datatype, and every bias is the converted zero. *)
Lemma FullyConnectedNet_init_weights (g g' : RandomState) (hidden : list Z)
    (D C : Z) (dropout : R) (bn : bool) (reg ws : R) (dt : dtype)
    (seed : option Z) (s : FullyConnectedNet.self) :
  FullyConnectedNet.init g (FullyConnectedNet.PyList hidden) D C dropout bn reg
    ws dt seed = Ok (s, g') ->
  forall l, (1 <= l <= length hidden + 1)%nat ->
    exists W b,
      FullyConnectedNet.params s !! ("W" +:+ str l) = Some W
      /\ FullyConnectedNet.params s !! ("b" +:+ str l) = Some b
      /\ Forall (fun w => exists k, w = cast dt (ws * uniform g k)) (data W)
      /\ Forall (fun x => x = cast dt 0) (data b).
Proof.
  intros Hs l Hl.
  destruct (init_inv _ _ _ _ _ _ _ _ _ _ _ _ Hs)
    as (l0 & Ws & bs & extra & [= <-] & Hloop & _ & _ & _ & _ & Hp & Hextra & _).
  destruct (init_layer_keys _ _ _ _ _ _ _ Hloop) as [_ Hbkeys].
  destruct (init_layer_loop _ _ _ _ _ _ _ Hloop) as [_ Hlayers].
  destruct (Hlayers (l - 1)%nat ltac:(lia)) as (W & b & HW & Hb & HfW & Hfb).
  replace (l - 1 + 1)%nat with l in HW, Hb by lia.
  exists (astype dt W), (astype dt b). rewrite Hp, !lookup_fmap.
  split; [|split; [|split]].
  - rewrite lookup_union_r.
    + rewrite lookup_union_r.
      * rewrite (right_id_L ∅ (∪)), HW. reflexivity.
      * destruct (bs !! ("W" +:+ str l)) as [a|] eqn:Hk; [|reflexivity].
        destruct (Hbkeys _ (mk_is_Some _ _ Hk)) as (j & _ & Hj). discriminate Hj.
    + destruct (extra !! ("W" +:+ str l)) as [a|] eqn:Hk; [|reflexivity].
      destruct (Hextra _ (mk_is_Some _ _ Hk)) as [j [Hj|Hj]]; discriminate Hj.
  - rewrite lookup_union_r.
    + rewrite (lookup_union_Some_l _ _ _ _ Hb). reflexivity.
    + destruct (extra !! ("b" +:+ str l)) as [a|] eqn:Hk; [|reflexivity].
      destruct (Hextra _ (mk_is_Some _ _ Hk)) as [j [Hj|Hj]]; [discriminate Hj|].
      exfalso. exact (b_key_not_beta _ _ Hj).
  - cbn [astype data].
    apply (Forall_map_image (fun w => exists k, w = ws * uniform g k)); [|exact HfW].
    intros w [k ->]. exists k. reflexivity.
  - cbn [astype data].
    apply (Forall_map_image (fun x => x = 0)); [|exact Hfb].
    intros x ->. reflexivity.
Qed.

(** C6 (the distribution of the initial weights). [np.random.rand] samples
    the interval [0, 1). With a positive [weight_scale] and no rounding,
    every weight [FullyConnectedNet.__init__] stores lies in
    [0, weight_scale), so the weights are not drawn from a zero-mean
    distribution; every bias is zero. *)
Theorem FullyConnectedNet_init_weights_nonnegative (g g' : RandomState)
    (hidden : list Z) (D C : Z) (dropout : R) (bn : bool) (reg ws : R)
    (seed : option Z) (s : FullyConnectedNet.self) :
  (forall k, 0 <= uniform g k < 1) ->
  0 < ws ->
  FullyConnectedNet.init g (FullyConnectedNet.PyList hidden) D C dropout bn reg
    ws exact seed = Ok (s, g') ->
  forall l, (1 <= l <= length hidden + 1)%nat ->
    exists W b,
      FullyConnectedNet.params s !! ("W" +:+ str l) = Some W
      /\ FullyConnectedNet.params s !! ("b" +:+ str l) = Some b
      /\ Forall (fun w => 0 <= w < ws) (data W)
      /\ Forall (fun x => x = 0) (data b).
Proof.
  intros Hrange Hws Hs l Hl.
  destruct (FullyConnectedNet_init_weights _ _ _ _ _ _ _ _ _ _ _ _ Hs l Hl)
    as (W & b & HW & Hb & HfW & Hfb).
  exists W, b. split; [exact HW|]. split; [exact Hb|]. split; [|exact Hfb].
  eapply Forall_impl; [exact HfW|]. cbn. intros w [k ->].
  specialize (Hrange k). nra.
Qed.

Lemma FullyConnectedNet_init_weights_nonnegative_witness :
  exists s : FullyConnectedNet.self,
    forall l, (1 <= l <= 2)%nat ->
      exists W b,
        FullyConnectedNet.params s !! ("W" +:+ str l) = Some W
        /\ FullyConnectedNet.params s !! ("b" +:+ str l) = Some b
        /\ Forall (fun w => 0 <= w < 1) (data W)
        /\ Forall (fun x => x = 0) (data b).
Proof.
  destruct (FullyConnectedNet.init rng_half (FullyConnectedNet.PyList [1%Z]) 1 1 0
              false 0 1 exact None) as [e|[s g1]] eqn:Hs;
    [vm_compute in Hs; discriminate|].
  exists s.
  apply (FullyConnectedNet_init_weights_nonnegative rng_half g1 [1%Z] 1 1 0
           false 0 1 None s).
  - intros k. cbn. lra.
  - lra.
  - exact Hs.
Defined.

End InitialWeightsClaim.

(** ** The key sets without batch normalization *)

Section KeySets.
Import Numpy FullyConnectedNet.
Variable Ly : Layers.

(** A loop whose passes only add keys adds the key of every pass. *)
Lemma for_in_adds_keys {A V : Type} (key : A -> string)
    (f : A -> gmap string V -> res (gmap string V)) (l : list A)
    (h h' : gmap string V) :
  (forall a t t', f a t = Ok t' ->
     is_Some (t' !! key a) /\ forall k, is_Some (t !! k) -> is_Some (t' !! k)) ->
  for_in l f h = Ok h' ->
  (forall k, is_Some (h !! k) -> is_Some (h' !! k))
  /\ forall a, In a l -> is_Some (h' !! key a).
Proof.
  intros Hstep. revert h. induction l as [|a l IH]; intros h Hrun; simpl in Hrun.
  - injection Hrun as <-. split; [auto|]. intros a [].
  - destruct (f a h) as [e|t] eqn:Hf; simpl in Hrun; [discriminate|].
    destruct (Hstep _ _ _ Hf) as [Hkey Hmono].
    destruct (IH _ Hrun) as [Hmono' Hall]. split; [auto|].
    intros b [<-|Hb]; [apply Hmono', Hkey|apply Hall, Hb].
Qed.

(** The keys of a dictionary comprehension that keeps the entries of
    [kvs] whose key starts with [p] and drops the first character. *)
Lemma comprehension_keys {V : Type} (p : string)
    (f : string * V -> gmap string ndarray -> res (gmap string ndarray))
    (kvs : list (string * V)) (d0 d : gmap string ndarray) :
  (forall key val t t', f (key, val) t = Ok t' ->
     if String.eqb (prefix2 key) p then exists v, t' = <[tail key := v]> t
     else t' = t) ->
  for_in kvs f d0 = Ok d ->
  forall k, is_Some (d !! k) <->
    is_Some (d0 !! k)
    \/ exists key val, In (key, val) kvs
         /\ String.eqb (prefix2 key) p = true /\ k = tail key.
Proof.
  intros Hstep. revert d0. induction kvs as [|[key val] kvs IH];
    intros d0 Hrun k; simpl in Hrun.
  - injection Hrun as <-. split; [auto|]. intros [H|(? & ? & [] & _)]. exact H.
  - destruct (f (key, val) d0) as [e|t] eqn:Hf; simpl in Hrun; [discriminate|].
    rewrite (IH _ Hrun k). specialize (Hstep _ _ _ _ Hf).
    destruct (String.eqb (prefix2 key) p) eqn:Hp.
    + destruct Hstep as [v ->]. rewrite lookup_insert_is_Some'. split.
      * intros [[<-|H]|(key' & val' & Hin & Hp' & ->)].
        -- right. exists key, val. split; [left; reflexivity|]. auto.
        -- left. exact H.
        -- right. exists key', val'. split; [right; exact Hin|]. auto.
      * intros [H|(key' & val' & [[= <- <-]|Hin] & Hp' & ->)].
        -- left. right. exact H.
        -- left. left. reflexivity.
        -- right. exists key', val'. auto.
    + subst t. split.
      * intros [H|(key' & val' & Hin & Hp' & ->)]; [left; exact H|].
        right. exists key', val'. split; [right; exact Hin|]. auto.
      * intros [H|(key' & val' & [[= <- <-]|Hin] & Hp' & ->)].
        -- left. exact H.
        -- congruence.
        -- right. exists key', val'. auto.
Qed.

Lemma list_dW_entry_spec (s : self) (key : string) (val : hval Ly)
    (t t' : gmap string ndarray) :
  list_dW_entry Ly s (key, val) t = Ok t' ->
  if String.eqb (prefix2 key) "dW" then exists v, t' = <[tail key := v]> t
  else t' = t.
Proof.
  unfold list_dW_entry. destruct (String.eqb (prefix2 key) "dW").
  - destruct (as_arr val) as [e|a]; cbn [bind]; [discriminate|].
    destruct (dict_get (params s) (tail key)) as [e|w]; cbn [bind]; [discriminate|].
    destruct (ndarray_add Ly a _) as [e|gr]; cbn [bind]; [discriminate|].
    intros [= <-]. eauto.
  - intros [= <-]. reflexivity.
Qed.

Lemma list_db_entry_spec (key : string) (val : hval Ly)
    (t t' : gmap string ndarray) :
  list_db_entry Ly (key, val) t = Ok t' ->
  if String.eqb (prefix2 key) "db" then exists v, t' = <[tail key := v]> t
  else t' = t.
Proof.
  unfold list_db_entry. destruct (String.eqb (prefix2 key) "db").
  - destruct (as_arr val) as [e|a]; cbn [bind]; [discriminate|].
    intros [= <-]. eauto.
  - intros [= <-]. reflexivity.
Qed.

(** *** The keys of [hiddens] *)

Lemma prefix2_dW (x : string) : String.eqb (prefix2 ("dW" +:+ x)) "dW" = true.
Proof. destruct x; reflexivity. Qed.

Lemma prefix2_db (x : string) : String.eqb (prefix2 ("db" +:+ x)) "db" = true.
Proof. destruct x; reflexivity. Qed.

Lemma gradient_keys_insert {V : Type} (n : nat) (h : gmap string V)
    (key : string) (v : V) :
  gradient_keys_upto n h ->
  (String.eqb (prefix2 key) "dW" = true ->
     exists j, (j < n)%nat /\ key = "dW" +:+ str (j + 1)) ->
  (String.eqb (prefix2 key) "db" = true ->
     exists j, (j < n)%nat /\ key = "db" +:+ str (j + 1)) ->
  gradient_keys_upto n (<[key := v]> h).
Proof.
  intros Hh HdW Hdb k Hk. apply lookup_insert_is_Some' in Hk as [<-|Hk].
  - split; assumption.
  - apply Hh, Hk.
Qed.

Lemma forward_gradient_keys (s : self) (X : ndarray)
    (hiddens : gmap string (hval Ly)) (scores : ndarray) (n : nat) :
  forward Ly s X = Ok (hiddens, scores) -> gradient_keys_upto n hiddens.
Proof.
  unfold forward. intros Hf.
  destruct (shape0 X) as [e|m]; cbn [bind] in Hf; [discriminate|].
  destruct (for_in _ (forward_step Ly s) _) as [e|h] eqn:Hloop; cbn [bind] in Hf;
    [discriminate|].
  destruct (dict_get h _) as [e|sc]; cbn [bind] in Hf; [discriminate|].
  destruct (as_arr sc) as [e|sc']; cbn [bind] in Hf; [discriminate|].
  injection Hf as <- _.
  revert Hloop. apply for_in_invariant.
  - intros i t t' _ Ht Hstep. unfold forward_step in Hstep.
    destruct (dict_get (params s) _) as [e|w]; cbn [bind] in Hstep; [discriminate|].
    destruct (dict_get (params s) _) as [e|b]; cbn [bind] in Hstep; [discriminate|].
    destruct (dict_get t _) as [e|hi]; cbn [bind] in Hstep; [discriminate|].
    destruct (as_arr hi) as [e|hi']; cbn [bind] in Hstep; [discriminate|].
    destruct (if Nat.eqb _ _ then _ else _) as [e|[out c]]; cbn [bind] in Hstep;
      [discriminate|].
    injection Hstep as <-.
    repeat (apply gradient_keys_insert; [|cbn; discriminate|cbn; discriminate]).
    exact Ht.
  - apply gradient_keys_insert; [|cbn; discriminate|cbn; discriminate].
    intros k Hk. rewrite lookup_empty in Hk. by destruct Hk.
Qed.

Lemma backward_step_inv (s : self) (i : nat) (t t' : gmap string (hval Ly)) :
  backward_step Ly s i t = Ok t' ->
  exists dh dW db,
    t' = <["db" +:+ str (i + 1) := HArr db]>
           (<["dW" +:+ str (i + 1) := HArr dW]>
              (<["dhidden" +:+ str (i + 1 - 1) := HArr dh]> t)).
Proof.
  unfold backward_step. intros Hstep.
  destruct (dict_get t _) as [e|dh]; cbn [bind] in Hstep; [discriminate|].
  destruct (as_arr dh) as [e|dh']; cbn [bind] in Hstep; [discriminate|].
  destruct (dict_get t _) as [e|c]; cbn [bind] in Hstep; [discriminate|].
  destruct (as_cache c) as [e|c']; cbn [bind] in Hstep; [discriminate|].
  destruct (if Nat.eqb _ _ then _ else _) as [e|[[dx dW] db]]; cbn [bind] in Hstep;
    [discriminate|].
  injection Hstep as <-. eauto.
Qed.

Lemma backward_loop_keys (s : self) (n : nat) (h hs : gmap string (hval Ly)) :
  for_in (rev (range n)) (backward_step Ly s) h = Ok hs ->
  gradient_keys_upto n h ->
  gradient_keys_upto n hs
  /\ forall j, (j < n)%nat ->
       is_Some (hs !! ("dW" +:+ str (j + 1))) /\ is_Some (hs !! ("db" +:+ str (j + 1))).
Proof.
  intros Hrun Hh. split.
  - revert Hrun. apply for_in_invariant; [|exact Hh].
    intros i t t' Hi Ht Hstep. apply (proj2 (in_rev _ _)), in_seq in Hi.
    destruct (backward_step_inv _ _ _ _ Hstep) as (dh & dW & db & ->).
    apply gradient_keys_insert; [apply gradient_keys_insert;
      [apply gradient_keys_insert; [exact Ht| |]| |]| |];
      try (cbn; discriminate); intros _; exists i; (split; [lia|reflexivity]).
  - intros j Hj.
    assert (Hin : In j (rev (range n))).
    { apply (proj1 (in_rev _ _)), in_seq. lia. }
    split.
    + apply (for_in_adds_keys (fun i => "dW" +:+ str (i + 1)) _ _ _ _) in Hrun
        as [_ Hall]; [exact (Hall j Hin)|].
      intros i t t' Hstep.
      destruct (backward_step_inv _ _ _ _ Hstep) as (dh & dW & db & ->).
      split.
      * rewrite lookup_insert_ne by discriminate. rewrite lookup_insert_eq. eauto.
      * intros k Hk. rewrite !lookup_insert_is_Some'. auto.
    + apply (for_in_adds_keys (fun i => "db" +:+ str (i + 1)) _ _ _ _) in Hrun
        as [_ Hall]; [exact (Hall j Hin)|].
      intros i t t' Hstep.
      destruct (backward_step_inv _ _ _ _ Hstep) as (dh & dW & db & ->).
      split.
      * rewrite lookup_insert_eq. eauto.
      * intros k Hk. rewrite !lookup_insert_is_Some'. auto.
Qed.

(** The gradient dictionary has the keys [W1, b1, .., WL, bL]. *)
Lemma loss_grads_layer_keys (s : self) (X : ndarray) (y : list Z) (l : R)
    (grads : gmap string ndarray) :
  snd (loss Ly s X (Some y)) = Ok (LossGrads l grads) ->
  forall k, k ∈ dom grads <-> layer_key (FullyConnectedNet.L s) k.
Proof.
  unfold loss. intros Hloss k.
  destruct (set_bn_mode _ _) as [e|s'] eqn:Hmode; cbn [snd] in Hloss; [discriminate|].
  destruct (set_bn_mode_params_L _ _ _ Hmode) as [_ HL]. rewrite <- HL.
  destruct (forward Ly s' _) as [e|[hiddens scores]] eqn:Hfwd; cbn [bind] in Hloss;
    [discriminate|].
  pose proof (forward_gradient_keys _ _ _ _ (FullyConnectedNet.L s') Hfwd) as Hh.
  unfold backward in Hloss.
  destruct (softmax_loss Ly scores y) as [e|[data_loss dscores]];
    cbn [bind] in Hloss; [discriminate|].
  destruct (weights_of (params s')) as [e|wl]; cbn [bind] in Hloss; [discriminate|].
  destruct (for_in (rev _) (backward_step Ly s') _) as [e|hs] eqn:Hback;
    cbn [bind] in Hloss; [discriminate|].
  apply backward_loop_keys in Hback as [Hkeys Hpresent].
  2:{ apply gradient_keys_insert; [exact Hh|cbn; discriminate|cbn; discriminate]. }
  destruct (for_in _ (list_dW_entry Ly s') ∅) as [e|ldW] eqn:HdW;
    cbn [bind] in Hloss; [discriminate|].
  destruct (for_in _ (list_db_entry Ly) ∅) as [e|ldb] eqn:Hdb;
    cbn [bind] in Hloss; [discriminate|].
  injection Hloss as _ <-.
  pose proof (comprehension_keys "dW" _ _ _ _
                (fun key val => list_dW_entry_spec s' key val) HdW k) as KW.
  pose proof (comprehension_keys "db" _ _ _ _ list_db_entry_spec Hdb k) as Kb.
  rewrite elem_of_dom, !lookup_union_is_Some, KW, Kb, !lookup_empty.
  unfold layer_key. split.
  - intros [[[? H]|(key & val & Hin & Hp & ->)]
           |[[[? H]|(key & val & Hin & Hp & ->)]|[? H]]]; try discriminate H.
    + apply list_elem_of_In, elem_of_map_to_list in Hin.
      destruct (Hkeys key (mk_is_Some _ _ Hin)) as [_ Hform].
      destruct (Hform Hp) as (j & Hj & ->). exists j. split; [exact Hj|]. by right.
    + apply list_elem_of_In, elem_of_map_to_list in Hin.
      destruct (Hkeys key (mk_is_Some _ _ Hin)) as [Hform _].
      destruct (Hform Hp) as (j & Hj & ->). exists j. split; [exact Hj|]. by left.
  - intros (j & Hj & [->| ->]).
    + right. left. right. destruct (Hpresent j Hj) as [[v Hv] _].
      exists ("dW" +:+ str (j + 1)), v. split; [|split; [apply prefix2_dW|reflexivity]].
      apply list_elem_of_In, elem_of_map_to_list. exact Hv.
    + left. right. destruct (Hpresent j Hj) as [_ [v Hv]].
      exists ("db" +:+ str (j + 1)), v. split; [|split; [apply prefix2_db|reflexivity]].
      apply list_elem_of_In, elem_of_map_to_list. exact Hv.
Qed.

(** Without batch normalization the parameter dictionary has the same
    keys. *)
Lemma init_params_layer_keys (g g' : RandomState) (hidden : list Z) (D C : Z)
    (dropout reg ws : R) (dt : dtype) (seed : option Z) (s : self) :
  init g (PyList hidden) D C dropout false reg ws dt seed = Ok (s, g') ->
  forall k, k ∈ dom (params s) <-> layer_key (FullyConnectedNet.L s) k.
Proof.
  intros Hs k.
  destruct (init_inv _ _ _ _ _ _ _ _ _ _ _ _ Hs)
    as (l0 & Ws & bs & extra & [= <-] & Hloop & HL & _ & _ & _ & Hp & _ & _ & ->).
  destruct (init_layer_keys _ _ _ _ _ _ _ Hloop) as [HWk Hbk].
  destruct (init_layer_loop _ _ _ _ _ _ _ Hloop) as [_ Hlayers].
  rewrite Hp, HL, dom_fmap_L, elem_of_dom, !lookup_union_is_Some, !lookup_empty.
  unfold layer_key. split.
  - intros [[? H]|[H|[H|[? H]]]]; try discriminate H.
    + destruct (Hbk _ H) as (j & Hj & ->). apply in_seq in Hj.
      exists j. split; [lia|]. by right.
    + destruct (HWk _ H) as (j & Hj & ->). apply in_seq in Hj.
      exists j. split; [lia|]. by left.
  - intros (j & Hj & Hk). destruct (Hlayers j Hj) as (W & b & HW & Hb & _).
    destruct Hk as [-> | ->]; right; [right|]; left; eauto.
Qed.

(** For a network constructed without batch normalization the gradient
    dictionary and the parameter dictionary have the same keys. *)
Lemma grads_keys_without_batchnorm (g g' : RandomState) (hidden : list Z)
    (D C : Z) (dropout reg ws : R) (dt : dtype) (seed : option Z) (s : self)
    (X : ndarray) (y : list Z) (l : R) (grads : gmap string ndarray) :
  init g (PyList hidden) D C dropout false reg ws dt seed = Ok (s, g') ->
  snd (loss Ly s X (Some y)) = Ok (LossGrads l grads) ->
  dom grads = dom (params s).
Proof.
  intros Hs Hloss. apply set_eq. intros k.
  rewrite (loss_grads_layer_keys _ _ _ _ _ Hloss k).
  rewrite (init_params_layer_keys _ _ _ _ _ _ _ _ _ _ _ Hs k). reflexivity.
Qed.

(** The same for the two-layer network. *)
Lemma TwoLayerNet_grads_keys (g g' : RandomState) (D M C : Z) (ws reg : R)
    (s : TwoLayerNet.self) (X : ndarray) (y : list Z) (l : R)
    (grads : gmap string ndarray) :
  TwoLayerNet.init g D M C ws reg = Ok (s, g') ->
  TwoLayerNet.loss Ly s X (Some y) = Ok (LossGrads l grads) ->
  dom grads = dom (TwoLayerNet.params s).
Proof.
  unfold TwoLayerNet.init, TwoLayerNet.loss. intros Hs Hloss.
  destruct (np_random_randn g D M) as [e|[r1 g1]]; cbn [bind] in Hs; [discriminate|].
  destruct (np_zeros M) as [e|b1]; cbn [bind] in Hs; [discriminate|].
  destruct (np_random_randn g1 M C) as [e|[r2 g2]]; cbn [bind] in Hs; [discriminate|].
  destruct (np_zeros C) as [e|b2]; cbn [bind] in Hs; [discriminate|].
  injection Hs as <- _. cbn [TwoLayerNet.params] in *.
  repeat match type of Hloss with
  | bind ?m _ = _ => destruct m as [?|?]; cbn [bind] in Hloss; [discriminate|]
  | (let '(_, _) := ?p in _) = _ => destruct p
  end.
  injection Hloss as _ <-.
  cbn [list_to_map foldr fst snd uncurry]. rewrite !dom_union_L, !dom_insert_L.
  reflexivity.
Qed.

End KeySets.

(** ** The outcomes of the constructors *)

Section ConstructorOutcomes.
Import Numpy.

(** [TwoLayerNet.__init__] never builds a model with a negative size: when
    [input_dim], [hidden_dim] or [num_classes] is negative, the call raises.
    And numpy's complaint about a negative size is raised for no other
    reason: when the call raises it, one of the three sizes is negative. *)
Theorem TwoLayerNet_init_outcome (g : RandomState) (D M C : Z) (ws reg : R) :
  ((D < 0 \/ M < 0 \/ C < 0)%Z -> raises (TwoLayerNet.init g D M C ws reg))
  /\ (TwoLayerNet.init g D M C ws reg = Raise negative_dims
      -> (D < 0 \/ M < 0 \/ C < 0)%Z).
Proof.
  unfold raises, TwoLayerNet.init, np_random_randn, np_zeros.
  destruct (Z.ltb_spec D 0) as [HD|HD], (Z.ltb_spec M 0) as [HM|HM],
    (Z.ltb_spec C 0) as [HC|HC]; cbn [orb bind];
    (split; intros Hinit);
    try lia; try discriminate Hinit; try (eexists; reflexivity).
Qed.

Import FullyConnectedNet.

Lemma sizes_nonnegative_or_not (dims : list Z) :
  Forall (fun d => (0 <= d)%Z) dims
  \/ exists p d, dims !! p = Some d /\ (d < 0)%Z.
Proof.
  induction dims as [|d dims [IH|(p & x & Hp & Hx)]].
  - left. constructor.
  - destruct (Z.lt_ge_cases d 0) as [Hd|Hd].
    + right. exists O, d. split; [reflexivity|exact Hd].
    + left. constructor; assumption.
  - right. exists (S p), x. split; assumption.
Qed.

Lemma list_get_in_range {A : Type} (l : list A) (i : nat) :
  (i < length l)%nat -> exists x, list_get l i = Ok x /\ l !! i = Some x.
Proof.
  intros Hi. destruct (lookup_lt_is_Some_2 l i Hi) as [x Hx].
  exists x. unfold list_get. rewrite Hx. auto.
Qed.

(** In the loop of lines 209-211 nothing but numpy's complaint about a
    negative size is raised. *)
Lemma init_layer_raises (dims : list Z) (ws : R) (i : nat)
    (st : gmap string ndarray * gmap string ndarray * RandomState) (e : exn) :
  (i + 1 < length dims)%nat ->
  init_layer dims ws i st = Raise e -> e = negative_dims.
Proof.
  intros Hi. destruct st as [[Ws bs] g]. unfold init_layer.
  destruct (list_get_in_range dims i ltac:(lia)) as (d0 & -> & _).
  destruct (list_get_in_range dims (i + 1) ltac:(lia)) as (d1 & -> & _).
  cbn [bind]. intros H.
  destruct (np_random_rand g d0 d1) as [e'|[r g']] eqn:Hr; cbn [bind] in H.
  { injection H as <-. eapply np_random_rand_raises, Hr. }
  destruct (np_zeros d1) as [e'|z] eqn:Hz; cbn [bind] in H; [|discriminate H].
  injection H as <-. eapply np_zeros_raises, Hz.
Qed.

Lemma init_layer_negative (dims : list Z) (ws : R) (i : nat)
    (st : gmap string ndarray * gmap string ndarray * RandomState) (d : Z) :
  (i + 1 < length dims)%nat ->
  (dims !! i = Some d \/ dims !! (i + 1) = Some d) -> (d < 0)%Z ->
  exists e, init_layer dims ws i st = Raise e.
Proof.
  intros Hi Hd Hneg. destruct st as [[Ws bs] g]. unfold init_layer.
  destruct (list_get_in_range dims i ltac:(lia)) as (d0 & -> & H0).
  destruct (list_get_in_range dims (i + 1) ltac:(lia)) as (d1 & -> & H1).
  cbn [bind]. unfold np_random_rand.
  assert (Hor : ((d0 <? 0) || (d1 <? 0))%Z = true).
  { destruct Hd as [Hd|Hd]; rewrite Hd in *.
    - injection H0 as <-. apply orb_true_iff. left. apply Z.ltb_lt, Hneg.
    - injection H1 as <-. apply orb_true_iff. right. apply Z.ltb_lt, Hneg. }
  rewrite Hor. cbn [bind]. eauto.
Qed.

Lemma layer_loop_negative (dims : list Z) (ws : R)
    (st : gmap string ndarray * gmap string ndarray * RandomState) :
  (2 <= length dims)%nat ->
  (exists p d, dims !! p = Some d /\ (d < 0)%Z) ->
  for_in (range (length dims - 1)) (init_layer dims ws) st = Raise negative_dims.
Proof.
  intros Hlen (p & d & Hp & Hd).
  apply for_in_some_pass_raises.
  - intros i t e Hi. apply in_seq in Hi. apply init_layer_raises. lia.
  - pose proof (lookup_lt_Some _ _ _ Hp) as Hplt.
    destruct p as [|p].
    + exists O. split; [apply in_seq; lia|]. intros t.
      apply (init_layer_negative dims ws O t d); [lia|auto|exact Hd].
    + exists p. split; [apply in_seq; lia|]. intros t.
      apply (init_layer_negative dims ws p t d); [lia| |exact Hd].
      right. replace (p + 1)%nat with (S p) by lia. exact Hp.
Qed.

Lemma layer_loop_total (dims : list Z) (ws : R)
    (st : gmap string ndarray * gmap string ndarray * RandomState) :
  Forall (fun d => (0 <= d)%Z) dims ->
  exists st', for_in (range (length dims - 1)) (init_layer dims ws) st = Ok st'.
Proof.
  intros Hdims. apply for_in_total. intros i t Hi. apply in_seq in Hi.
  apply init_layer_total; [lia|exact Hdims].
Qed.

Lemma np_fill_nonnegative (dims : list Z) (i : nat) :
  Forall (fun d => (0 <= d)%Z) dims -> (i < length dims)%nat ->
  exists d, list_get dims i = Ok d
            /\ (exists a, np_zeros d = Ok a) /\ (exists a, np_ones d = Ok a).
Proof.
  intros Hdims Hi. destruct (list_get_in_range dims i Hi) as (d & Hg & Hl).
  exists d. split; [exact Hg|].
  pose proof (proj1 (Forall_lookup _ _) Hdims _ _ Hl) as Hd. cbv beta in Hd.
  unfold np_zeros, np_ones. destruct (Z.ltb_spec d 0); [lia|]. eauto.
Qed.

Lemma scale_shift_loop_total (name : string) (fill : Z -> res ndarray)
    (dims : list Z) (n : nat) (st : gmap string ndarray) :
  (fill = np_zeros \/ fill = np_ones) ->
  Forall (fun d => (0 <= d)%Z) dims -> (n < length dims)%nat ->
  exists st', for_in (range n) (init_scale_shift name fill dims) st = Ok st'.
Proof.
  intros Hfill Hdims Hn. apply for_in_total. intros i t Hi. apply in_seq in Hi.
  unfold init_scale_shift.
  destruct (np_fill_nonnegative dims (i + 1) Hdims ltac:(lia))
    as (d & -> & [z Hz] & [o Ho]).
  cbn [bind]. destruct Hfill as [-> | ->]; [rewrite Hz|rewrite Ho]; cbn [bind]; eauto.
Qed.

(** A pass of the comprehension of lines 235-239 succeeds when [i + i] is
    an index of [dims], and raises IndexError when it is not. *)
Lemma init_bn_param_pass (dims : list Z) (i : nat)
    (bn : gmap string (gmap string bnval)) :
  Forall (fun d => (0 <= d)%Z) dims -> (i + 1 < length dims)%nat ->
  if (i + i <? length dims)%nat
  then exists bn', init_bn_param dims i bn = Ok bn'
  else init_bn_param dims i bn = Raise IndexError.
Proof.
  intros Hdims Hi. unfold init_bn_param.
  destruct (np_fill_nonnegative dims (i + 1) Hdims Hi) as (d1 & -> & [z Hz] & _).
  cbn [bind]. rewrite Hz. cbn [bind].
  destruct (Nat.ltb_spec (i + i) (length dims)) as [Hlt|Hge].
  - destruct (np_fill_nonnegative dims (i + i) Hdims Hlt) as (d2 & -> & [z2 Hz2] & _).
    cbn [bind]. rewrite Hz2. cbn [bind]. eauto.
  - unfold list_get. rewrite (lookup_ge_None_2 dims (i + i)) by lia. reflexivity.
Qed.

(** With the array constructors above, construction from a list raises the
    error about a negative size exactly when [input_dim], [num_classes] or
    one of the hidden sizes is negative. *)
Lemma init_negative_dims_iff (g : RandomState) (hidden : list Z)
    (D C : Z) (dropout : R) (bn : bool) (reg ws : R) (dt : dtype)
    (seed : option Z) :
  init g (PyList hidden) D C dropout bn reg ws dt seed = Raise negative_dims
  <-> exists p d, layer_dims D hidden C !! p = Some d /\ (d < 0)%Z.
Proof.
  unfold layer_dims.
  assert (Hlen : (2 <= length ([D] ++ hidden ++ [C]))%nat).
  { cbn. rewrite length_app. cbn. lia. }
  split.
  - intros Hinit.
    destruct (sizes_nonnegative_or_not ([D] ++ hidden ++ [C])) as [Hnn|Hneg];
      [|exact Hneg].
    exfalso. unfold init in Hinit. cbn [py_len bind] in Hinit.
    destruct (layer_loop_total _ ws (∅, ∅, g) Hnn) as [[[Ws bs] g1] Hloop].
    rewrite Hloop in Hinit. cbn [bind] in Hinit.
    destruct bn; [|discriminate Hinit].
    destruct (for_in _ (init_bn_param _) _) as [e|bnd] eqn:Hbn; cbn [bind] in Hinit.
    { injection Hinit as ->.
      apply (for_in_raises (fun x => x <> negative_dims)) in Hbn;
        [by apply Hbn|].
      intros i t e' Hi Hstep. apply in_seq in Hi.
      pose proof (init_bn_param_pass _ i t Hnn ltac:(lia)) as Hpass.
      unfold negative_dims.
      destruct (_ <? _)%nat; [destruct Hpass as [? Hpass]|]; congruence. }
    destruct (scale_shift_loop_total "gamma" np_ones _ (length ([D] ++ hidden ++ [C]) - 2)
                ∅ (or_intror eq_refl) Hnn ltac:(lia)) as [ga Hga].
    rewrite Hga in Hinit. cbn [bind] in Hinit.
    destruct (scale_shift_loop_total "beta" np_zeros _ (length ([D] ++ hidden ++ [C]) - 2)
                ∅ (or_introl eq_refl) Hnn ltac:(lia)) as [be Hbe].
    rewrite Hbe in Hinit. discriminate Hinit.
  - intros Hneg. unfold init. cbn [py_len bind].
    rewrite (layer_loop_negative _ ws _ Hlen Hneg). reflexivity.
Qed.

(** With the array constructors above and sizes that are not negative, the
    only failure left is that of line 238: with batch normalization and four
    or more hidden layers [dims[i+i]] raises IndexError. *)
Lemma init_nonnegative_sizes (g : RandomState) (hidden : list Z)
    (D C : Z) (dropout : R) (bn : bool) (reg ws : R) (dt : dtype)
    (seed : option Z) :
  Forall (fun d => (0 <= d)%Z) (layer_dims D hidden C) ->
  if bn && (4 <=? length hidden)%nat
  then init g (PyList hidden) D C dropout bn reg ws dt seed = Raise IndexError
  else exists s g', init g (PyList hidden) D C dropout bn reg ws dt seed = Ok (s, g').
Proof.
  unfold layer_dims. intros Hnn.
  assert (Hlen : length ([D] ++ hidden ++ [C]) = (length hidden + 2)%nat).
  { cbn. rewrite length_app. cbn. lia. }
  unfold init. cbn [py_len bind].
  destruct (layer_loop_total _ ws (∅, ∅, g) Hnn) as [[[Ws bs] g1] ->]. cbn [bind].
  destruct bn; cbn [andb]; [|eexists _, _; reflexivity].
  rewrite Hlen. replace (length hidden + 2 - 2)%nat with (length hidden) by lia.
  destruct (Nat.leb_spec 4 (length hidden)) as [Hdeep|Hshallow].
  - rewrite (for_in_some_pass_raises IndexError); [reflexivity| |].
    + intros i t e Hi Hstep. apply in_seq in Hi.
      pose proof (init_bn_param_pass _ i t Hnn ltac:(lia)) as Hpass.
      destruct (_ <? _)%nat; [destruct Hpass as [? Hpass]|]; congruence.
    + exists (length hidden - 1)%nat. split; [apply in_seq; lia|]. intros t.
      pose proof (init_bn_param_pass _ (length hidden - 1) t Hnn ltac:(lia)) as Hpass.
      destruct (Nat.ltb_spec (length hidden - 1 + (length hidden - 1))
                  (length ([D] ++ hidden ++ [C]))); [lia|]. eauto.
  - destruct (for_in_total (init_bn_param ([D] ++ hidden ++ [C]))
                (range (length hidden)) ∅) as [bnd ->].
    { intros i t Hi. apply in_seq in Hi.
      pose proof (init_bn_param_pass _ i t Hnn ltac:(lia)) as Hpass.
      destruct (Nat.ltb_spec (i + i) (length ([D] ++ hidden ++ [C]))); [exact Hpass|lia]. }
    cbn [bind].
    destruct (scale_shift_loop_total "gamma" np_ones _ (length hidden)
                ∅ (or_intror eq_refl) Hnn ltac:(lia)) as [ga ->]. cbn [bind].
    destruct (scale_shift_loop_total "beta" np_zeros _ (length hidden)
                ∅ (or_introl eq_refl) Hnn ltac:(lia)) as [be ->]. cbn [bind].
    eexists _, _. reflexivity.
Qed.

(** [FullyConnectedNet.__init__] never builds a model with a negative size:
    when [input_dim], [num_classes] or a hidden size is negative, the call
    raises, with or without batch normalization.  And numpy's complaint about
    a negative size is raised for no other reason. *)
Theorem FullyConnectedNet_init_negative_size (g : RandomState) (hidden : list Z)
    (D C : Z) (dropout : R) (bn : bool) (reg ws : R) (dt : dtype)
    (seed : option Z) :
  ((exists p d, layer_dims D hidden C !! p = Some d /\ (d < 0)%Z)
   -> raises (init g (PyList hidden) D C dropout bn reg ws dt seed))
  /\ (init g (PyList hidden) D C dropout bn reg ws dt seed = Raise negative_dims
      -> exists p d, layer_dims D hidden C !! p = Some d /\ (d < 0)%Z).
Proof.
  split.
  - intros Hneg. exists negative_dims. apply init_negative_dims_iff, Hneg.
  - apply init_negative_dims_iff.
Qed.

(** No network with batch normalization and four or more hidden layers can
    be constructed: whatever the sizes are, the call raises (line 238 reads
    [dims[i+i]] past the end of [dims], if nothing else has failed before).
    And construction from a list raises IndexError in this case only. *)
Theorem FullyConnectedNet_init_batchnorm_depth (g : RandomState) (hidden : list Z)
    (D C : Z) (dropout : R) (bn : bool) (reg ws : R) (dt : dtype)
    (seed : option Z) :
  (bn = true -> (4 <= length hidden)%nat
   -> raises (init g (PyList hidden) D C dropout bn reg ws dt seed))
  /\ (init g (PyList hidden) D C dropout bn reg ws dt seed = Raise IndexError
      -> bn = true /\ (4 <= length hidden)%nat).
Proof.
  destruct (sizes_nonnegative_or_not (layer_dims D hidden C)) as [Hnn|Hneg].
  - pose proof (init_nonnegative_sizes g hidden D C dropout bn reg ws dt seed Hnn)
      as Hcases.
    destruct bn; cbn [andb] in Hcases.
    + destruct (Nat.leb_spec 4 (length hidden)) as [Hdeep|Hshallow].
      * split; [intros _ _; exists IndexError; exact Hcases|auto].
      * split; [intros _ Hdeep; lia|].
        intros Hinit. destruct Hcases as (s & g' & Hok). congruence.
    + split; [discriminate|].
      intros Hinit. destruct Hcases as (s & g' & Hok). congruence.
  - pose proof (proj2 (init_negative_dims_iff g hidden D C dropout bn reg ws dt seed)
                  Hneg) as Hraise.
    split; [intros _ _; exists negative_dims; exact Hraise|].
    intros Hinit. rewrite Hraise in Hinit. discriminate Hinit.
Qed.

Lemma FullyConnectedNet_init_batchnorm_depth_witness :
  raises (init rng_half (PyList [2; 2; 2; 2]%Z) 3 2 0 true 0 1 exact None).
Proof.
  apply (FullyConnectedNet_init_batchnorm_depth rng_half [2; 2; 2; 2]%Z 3 2 0
           true 0 1 exact None).
  - reflexivity.
  - simpl. lia.
Defined.

(** ** Which [hidden_dims] the constructor rejects *)

(** C8, as the constructor behaves.  The configuration error
    [ValueError('hidden_dim has to be a list')] is raised exactly when
    [hidden_dims] has a length and is not a list; an argument without a
    length raises TypeError at [len(hidden_dims)] before the check is
    reached; and with a list of integers construction fails whenever
    [input_dim], [num_classes] or a hidden size is negative, with an error
    that is not the configuration error.  No size is compared with zero. *)
Theorem init_rejects_non_list (g : RandomState) (hd : pyarg) (D C : Z)
    (dropout : R) (bn : bool) (reg ws : R) (dt : dtype) (seed : option Z) :
  (init g hd D C dropout bn reg ws dt seed = Raise not_a_list <-> sized_non_list hd)
  /\ (unsized hd -> init g hd D C dropout bn reg ws dt seed = Raise TypeError)
  /\ (forall l, hd = PyList l ->
        (exists p d, layer_dims D l C !! p = Some d /\ (d < 0)%Z) ->
        exists e, init g hd D C dropout bn reg ws dt seed = Raise e
                  /\ e <> not_a_list).
Proof.
  split; [|split].
  - split.
    + intros Hinit. destruct hd as [l|l|n|].
      * apply init_list_raises in Hinit as [Hinit|Hinit]; discriminate Hinit.
      * by exists l.
      * discriminate Hinit.
      * discriminate Hinit.
    + intros [l ->]. reflexivity.
  - intros [->|[n ->]]; reflexivity.
  - intros l -> Hneg. exists negative_dims. split; [|discriminate].
    apply init_negative_dims_iff, Hneg.
Qed.

(** C8 as the specification states it fails: the list [[0]] is not a
    sequence of positive integers, and the constructor accepts it. *)
Lemma init_accepts_zero_size :
  ~ (raises (init rng_half (PyList [0%Z]) 2 2 0 false 0 1 exact None)
     <-> ~ proper_positive_seq (PyList [0%Z])).
Proof.
  intros [_ Hraise]. destruct Hraise as [e He].
  - cbn. intros Hpos. apply Forall_cons_1 in Hpos as [Hpos _]. lia.
  - vm_compute in He. discriminate He.
Qed.

End ConstructorOutcomes.

(** ** The key sets and the initial weights on example networks *)

Section KeySetExamples.
Import Numpy.

Lemma TwoLayerNet_init_weights_witness :
  exists s : TwoLayerNet.self,
    TwoLayerNet.params s !! "W1"
    = Some (mkarr [1%nat; 2%nat]
              (map (fun k => (1 * standard_normal rng_half k)%R) (seq 0 2)))
    /\ TwoLayerNet.params s !! "W2"
    = Some (mkarr [2%nat; 1%nat]
              (map (fun k => (1 * standard_normal rng_half k)%R) (seq 2 2)))
    /\ TwoLayerNet.params s !! "b1" = Some (mkarr [2%nat] (repeat 0%R 2))
    /\ TwoLayerNet.params s !! "b2" = Some (mkarr [1%nat] (repeat 0%R 1)).
Proof.
  destruct (TwoLayerNet.init rng_half 1 2 1 1 0) as [e|[s g1]] eqn:Hs;
    [vm_compute in Hs; discriminate|].
  exists s. exact (TwoLayerNet_init_weights rng_half g1 1 2 1 1 0 s Hs).
Defined.

Lemma TwoLayerNet_grads_keys_witness :
  exists (s : TwoLayerNet.self) (grads : gmap string ndarray),
    (exists l, TwoLayerNet.loss zero_layers s X_one (Some [0%Z])
               = Ok (LossGrads l grads))
    /\ dom grads = dom (TwoLayerNet.params s).
Proof.
  destruct (TwoLayerNet.init rng_half 1 1 1 1 0) as [e|[s g1]] eqn:Hs;
    [vm_compute in Hs; discriminate|].
  destruct (TwoLayerNet.loss zero_layers s X_one (Some [0%Z]))
    as [e|[sc|l grads]] eqn:Hl.
  - exfalso. revert Hl. vm_compute in Hs. injection Hs as <- _.
    vm_compute. discriminate.
  - exfalso. revert Hl. vm_compute in Hs. injection Hs as <- _.
    vm_compute. discriminate.
  - exists s, grads. split; [exists l; exact Hl|].
    exact (TwoLayerNet_grads_keys zero_layers rng_half g1 1 1 1 1 0 s X_one
             [0%Z] l grads Hs Hl).
Defined.

Lemma grads_keys_without_batchnorm_witness :
  exists (s : FullyConnectedNet.self) (grads : gmap string ndarray),
    (exists l, snd (FullyConnectedNet.loss zero_layers s X_one (Some [0%Z]))
               = Ok (LossGrads l grads))
    /\ dom grads = dom (FullyConnectedNet.params s).
Proof.
  destruct (FullyConnectedNet.init rng_half (FullyConnectedNet.PyList [1%Z]) 1 1 0
              false 0 1 exact None) as [e|[s g1]] eqn:Hs;
    [vm_compute in Hs; discriminate|].
  destruct (snd (FullyConnectedNet.loss zero_layers s X_one (Some [0%Z])))
    as [e|[sc|l grads]] eqn:Hl.
  - exfalso. revert Hl. vm_compute in Hs. injection Hs as <- _.
    vm_compute. discriminate.
  - exfalso. revert Hl. vm_compute in Hs. injection Hs as <- _.
    vm_compute. discriminate.
  - exists s, grads. split; [exists l; exact Hl|].
    exact (grads_keys_without_batchnorm zero_layers rng_half g1 [1%Z] 1 1 0 0 1
             exact None s X_one [0%Z] l grads Hs Hl).
Defined.

End KeySetExamples.

(** ** What [loss] reads and writes of the model *)

Section ModelState.
Import Numpy FullyConnectedNet.
Variable Ly : Layers.

Lemma backward_reads (s s' : self) (hiddens : gmap string (hval Ly))
    (scores : ndarray) (y : list Z) :
  params s = params s' -> FullyConnectedNet.L s = FullyConnectedNet.L s' ->
  FullyConnectedNet.reg s = FullyConnectedNet.reg s' ->
  backward Ly s hiddens scores y = backward Ly s' hiddens scores y.
Proof.
  intros Hp HL Hr. unfold backward.
  destruct (softmax_loss Ly scores y) as [e|[data_loss dscores]]; [reflexivity|].
  cbn [bind]. rewrite Hp, HL, Hr.
  destruct (weights_of (params s')) as [e|ws]; [reflexivity|]. cbn [bind].
  rewrite (for_in_ext (backward_step Ly s) (backward_step Ly s')).
  2:{ intros i h. unfold backward_step. rewrite HL. reflexivity. }
  destruct (for_in _ (backward_step Ly s') _) as [e|hs]; [reflexivity|]. cbn [bind].
  rewrite (for_in_ext (list_dW_entry Ly s) (list_dW_entry Ly s')).
  2:{ intros [key val] d. unfold list_dW_entry. rewrite Hp, Hr. reflexivity. }
  reflexivity.
Qed.

(** [loss] reads [params], [L], [reg], the datatype and the batch-norm
    toggle of the model, and whether [bn_params] is a dictionary. *)
Lemma loss_reads (s s' : self) (X : ndarray) (y : option (list Z)) :
  params s = params s' -> FullyConnectedNet.L s = FullyConnectedNet.L s' ->
  FullyConnectedNet.reg s = FullyConnectedNet.reg s' ->
  dtype_of s = dtype_of s' -> use_batchnorm s = use_batchnorm s' ->
  (bn_params s = BnList <-> bn_params s' = BnList) ->
  snd (loss Ly s X y) = snd (loss Ly s' X y).
Proof.
  intros Hp HL Hr Hdt Hbn Hkind. unfold loss, set_bn_mode.
  cbn [set_dropout_mode use_batchnorm bn_params dtype_of]. rewrite Hbn, Hdt.
  assert (Hfwd : forall t t', params t = params s -> params t' = params s' ->
            FullyConnectedNet.L t = FullyConnectedNet.L s ->
            FullyConnectedNet.L t' = FullyConnectedNet.L s' ->
            FullyConnectedNet.reg t = FullyConnectedNet.reg s ->
            FullyConnectedNet.reg t' = FullyConnectedNet.reg s' ->
            (let* '(hiddens, scores) := forward Ly t (astype (dtype_of s') X) in
             match y with
             | None => Ok (Scores scores)
             | Some y0 => backward Ly t hiddens scores y0
             end)%py
            = (let* '(hiddens, scores) := forward Ly t' (astype (dtype_of s') X) in
               match y with
               | None => Ok (Scores scores)
               | Some y0 => backward Ly t' hiddens scores y0
               end)%py).
  { intros t t' Ht Ht' HLt HLt' Hrt Hrt'.
    rewrite (forward_params_L Ly t t') by congruence.
    destruct (forward Ly t' _) as [e|[hiddens scores]]; [reflexivity|]. cbn [bind].
    destruct y as [y0|]; [|reflexivity]. apply backward_reads; congruence. }
  destruct (use_batchnorm s').
  - destruct (bn_params s) as [|d] eqn:Hd, (bn_params s') as [|d'] eqn:Hd';
      cbn [snd]; try reflexivity.
    + destruct Hkind as [Hk _]. discriminate (Hk eq_refl).
    + destruct Hkind as [_ Hk]. discriminate (Hk eq_refl).
    + apply Hfwd; reflexivity.
  - cbn [snd]. apply Hfwd; reflexivity.
Qed.

(** A call of [loss] leaves [params], [L], [reg] and the datatype of the
    model as they were, and no later call can tell that it happened: the
    scores, the loss and the gradients of a later call are those of the same
    call on the model as it was before. *)
Theorem loss_keeps_parameters (s : self) (X X' : ndarray)
    (y y' : option (list Z)) :
  params (fst (loss Ly s X y)) = params s
  /\ FullyConnectedNet.L (fst (loss Ly s X y)) = FullyConnectedNet.L s
  /\ FullyConnectedNet.reg (fst (loss Ly s X y)) = FullyConnectedNet.reg s
  /\ snd (loss Ly (fst (loss Ly s X y)) X' y') = snd (loss Ly s X' y').
Proof.
  assert (Hfst : params (fst (loss Ly s X y)) = params s
            /\ FullyConnectedNet.L (fst (loss Ly s X y)) = FullyConnectedNet.L s
            /\ FullyConnectedNet.reg (fst (loss Ly s X y)) = FullyConnectedNet.reg s
            /\ dtype_of (fst (loss Ly s X y)) = dtype_of s
            /\ use_batchnorm (fst (loss Ly s X y)) = use_batchnorm s
            /\ (bn_params (fst (loss Ly s X y)) = BnList <-> bn_params s = BnList)).
  { unfold loss, set_bn_mode. cbn [set_dropout_mode use_batchnorm bn_params].
    destruct (use_batchnorm s) eqn:Hbn.
    - destruct (bn_params s) as [|d] eqn:Hd; cbn [fst params L reg dtype_of
        use_batchnorm bn_params]; rewrite ?Hd; repeat split; auto; discriminate.
    - cbn [fst params L reg dtype_of use_batchnorm bn_params]. repeat split; auto. }
  destruct Hfst as (Hp & HL & Hr & Hdt & Hbn & Hkind).
  split; [exact Hp|]. split; [exact HL|]. split; [exact Hr|].
  apply loss_reads; assumption.
Qed.

(** *** The mode of the batch-norm dictionaries *)

Lemma init_bn_param_modes (dims : list Z) (l : list nat)
    (bnd : gmap string (gmap string bnval)) :
  for_in l (init_bn_param dims) ∅ = Ok bnd ->
  forall k v, bnd !! k = Some v -> v !! "mode" = Some (BStr "train").
Proof.
  apply (for_in_invariant
           (fun bnd : gmap string (gmap string bnval) =>
              forall k v, bnd !! k = Some v -> v !! "mode" = Some (BStr "train"))).
  - intros i t t' _ Ht Hstep k v Hk. unfold init_bn_param in Hstep.
    destruct (list_get dims (i + 1)) as [e|d1]; cbn [bind] in Hstep; [discriminate|].
    destruct (np_zeros d1) as [e|rm]; cbn [bind] in Hstep; [discriminate|].
    destruct (list_get dims (i + i)) as [e|d2]; cbn [bind] in Hstep; [discriminate|].
    destruct (np_zeros d2) as [e|rv]; cbn [bind] in Hstep; [discriminate|].
    injection Hstep as <-.
    destruct (decide ("bn_param" +:+ str (i + 1) = k)) as [<-|Hne].
    + rewrite lookup_insert_eq in Hk. injection Hk as <-. reflexivity.
    + rewrite lookup_insert_ne in Hk by exact Hne. eapply Ht, Hk.
  - intros k v Hk. rewrite lookup_empty in Hk. discriminate Hk.
Qed.

(** A network constructed with batch normalization has the mode 'train' in
    each of its [bn_param] dictionaries, and no call of [loss] changes that:
    line 265 writes the mode under the key named by the mode itself, so
    after a test-time call every [bn_param] still says 'train'. *)
Theorem batchnorm_mode_stays_train (g g' : RandomState) (hidden : list Z)
    (D C : Z) (dropout reg ws : R) (dt : dtype) (seed : option Z) (s : self) :
  init g (PyList hidden) D C dropout true reg ws dt seed = Ok (s, g') ->
  bn_modes_train s
  /\ forall (t : self) (X : ndarray) (y : option (list Z)),
       bn_modes_train t -> bn_modes_train (fst (loss Ly t X y)).
Proof.
  intros Hinit. split.
  - unfold init in Hinit. cbn [py_len bind] in Hinit.
    destruct (for_in _ (init_layer _ _) _) as [e|[[Ws bs] g1]]; cbn [bind] in Hinit;
      [discriminate|].
    destruct (for_in _ (init_bn_param _) _) as [e|bnd] eqn:Hbn; cbn [bind] in Hinit;
      [discriminate|].
    destruct (for_in _ (init_scale_shift "gamma" _ _) _) as [e|ga];
      cbn [bind] in Hinit; [discriminate|].
    destruct (for_in _ (init_scale_shift "beta" _ _) _) as [e|be];
      cbn [bind] in Hinit; [discriminate|].
    injection Hinit as <- _. exists bnd. split; [reflexivity|].
    exact (init_bn_param_modes _ _ _ Hbn).
  - intros t X y (d & Hd & Hmodes). unfold loss, set_bn_mode.
    cbn [set_dropout_mode use_batchnorm bn_params]. rewrite Hd.
    destruct (use_batchnorm t); cbn [fst].
    + eexists. split; [reflexivity|]. intros k v Hk.
      rewrite lookup_fmap in Hk. destruct (d !! k) as [v0|] eqn:Hv0; [|discriminate].
      injection Hk as <-. rewrite lookup_insert_ne by (destruct y; discriminate).
      eapply Hmodes, Hv0.
    + exists d. split; [exact Hd|exact Hmodes].
Qed.

(** *** No regularization *)



End ModelState.

(** ** The shapes of the initial parameters *)

Section InitialShapes.
Import Numpy FullyConnectedNet.

(** Under the keys [W1, b1, W2, b2, ...] the parameter dictionary holds what
    the loop of lines 209-211 stored, converted to the datatype. *)
Lemma init_params_lookup (g g' : RandomState) (hidden : list Z) (D C : Z)
    (dropout : R) (bn : bool) (reg ws : R) (dt : dtype) (seed : option Z)
    (s : self) :
  init g (PyList hidden) D C dropout bn reg ws dt seed = Ok (s, g') ->
  exists Ws bs,
    for_in (range (length hidden + 1)) (init_layer ([D] ++ hidden ++ [C]) ws)
      (∅, ∅, g) = Ok (Ws, bs, g')
    /\ forall l,
         params s !! ("W" +:+ str l) = astype dt <$> Ws !! ("W" +:+ str l)
         /\ params s !! ("b" +:+ str l) = astype dt <$> bs !! ("b" +:+ str l).
Proof.
  intros Hs.
  destruct (init_inv _ _ _ _ _ _ _ _ _ _ _ _ Hs)
    as (l0 & Ws & bs & extra & [= <-] & Hloop & _ & _ & _ & _ & Hp & Hextra & _).
  destruct (init_layer_keys _ _ _ _ _ _ _ Hloop) as [HWkeys Hbkeys].
  exists Ws, bs. split; [exact Hloop|]. intros l. rewrite Hp, !lookup_fmap. split.
  - f_equal. rewrite lookup_union_r.
    + rewrite lookup_union_r; [by rewrite (right_id_L ∅ (∪))|].
      destruct (bs !! ("W" +:+ str l)) as [a|] eqn:Hk; [|reflexivity].
      destruct (Hbkeys _ (mk_is_Some _ _ Hk)) as (j & _ & Hj). discriminate Hj.
    + destruct (extra !! ("W" +:+ str l)) as [a|] eqn:Hk; [|reflexivity].
      destruct (Hextra _ (mk_is_Some _ _ Hk)) as [j [Hj|Hj]]; discriminate Hj.
  - f_equal. rewrite lookup_union_r.
    + destruct (bs !! ("b" +:+ str l)) as [b|] eqn:Hb.
      * apply lookup_union_Some_l. exact Hb.
      * apply lookup_union_None. split; [exact Hb|].
        rewrite (right_id_L ∅ (∪)).
        destruct (Ws !! ("b" +:+ str l)) as [a|] eqn:Hk; [|reflexivity].
        destruct (HWkeys _ (mk_is_Some _ _ Hk)) as (j & _ & Hj). discriminate Hj.
    + destruct (extra !! ("b" +:+ str l)) as [a|] eqn:Hk; [|reflexivity].
      destruct (Hextra _ (mk_is_Some _ _ Hk)) as [j [Hj|Hj]]; [discriminate Hj|].
      exfalso. exact (b_key_not_beta _ _ Hj).
Qed.

Lemma init_layer_loop_shapes (dims : list Z) (ws : R) (g gn : RandomState)
    (n : nat) (Ws bs : gmap string ndarray) :
  for_in (range n) (init_layer dims ws) (∅, ∅, g) = Ok (Ws, bs, gn) ->
  forall j, (j < n)%nat ->
    exists d0 d1 W b,
      dims !! j = Some d0 /\ dims !! (j + 1)%nat = Some d1
      /\ (0 <= d0)%Z /\ (0 <= d1)%Z
      /\ Ws !! ("W" +:+ str (j + 1)) = Some W
      /\ bs !! ("b" +:+ str (j + 1)) = Some b
      /\ shape W = [Z.to_nat d0; Z.to_nat d1]
      /\ length (data W) = (Z.to_nat d0 * Z.to_nat d1)%nat
      /\ shape b = [Z.to_nat d1]
      /\ length (data b) = Z.to_nat d1.
Proof.
  revert Ws bs gn. unfold range.
  induction n as [|n IH]; intros Ws bs gn Hrun j Hj; [lia|].
  rewrite seq_S, for_in_app in Hrun. cbn [Nat.add] in Hrun.
  destruct (for_in (seq 0 n) _ _) as [e|[[Ws1 bs1] g1]] eqn:H1;
    cbn [bind for_in] in Hrun; [discriminate|].
  destruct (init_layer dims ws n (Ws1, bs1, g1)) as [e|[[Ws2 bs2] g2]] eqn:Hstep;
    cbn [bind] in Hrun; [discriminate|].
  injection Hrun as <- <- <-.
  unfold init_layer, list_get in Hstep.
  destruct (dims !! n) as [d0|] eqn:Hd0; cbn [bind] in Hstep; [|discriminate].
  destruct (dims !! (n + 1)%nat) as [d1|] eqn:Hd1; cbn [bind] in Hstep; [|discriminate].
  unfold np_random_rand, np_zeros in Hstep.
  destruct (Z.ltb_spec d0 0) as [?|Hd0n]; cbn [orb bind] in Hstep; [discriminate|].
  destruct (Z.ltb_spec d1 0) as [?|Hd1n]; cbn [orb bind] in Hstep; [discriminate|].
  injection Hstep as <- <- <-.
  destruct (Nat.eq_dec j n) as [->|Hne].
  - exists d0, d1. eexists _, _. rewrite !lookup_insert_eq.
    repeat (split; [first [eassumption|reflexivity]|]).
    cbn [scale data shape].
    split; [by rewrite !length_map, length_seq|].
    split; [reflexivity|apply repeat_length].
  - destruct (IH _ _ _ eq_refl j ltac:(lia))
      as (e0 & e1 & W & b & ? & ? & ? & ? & HW & Hb & ?).
    exists e0, e1, W, b. rewrite !lookup_insert_ne.
    + repeat (split; [assumption|]). assumption.
    + intros Heq. apply weight_key_inj in Heq. lia.
    + intros Heq. apply weight_key_inj in Heq. lia.
Qed.

(** The weight of layer [l] has the shape [(dims[l-1], dims[l])], its bias
    the shape [(dims[l],)], and each holds as many entries as its shape says:
    the second dimension of every weight matrix is the first dimension of the
    next one. *)
Theorem FullyConnectedNet_init_shapes (g g' : RandomState) (hidden : list Z)
    (D C : Z) (dropout : R) (bn : bool) (reg ws : R) (dt : dtype)
    (seed : option Z) (s : self) :
  init g (PyList hidden) D C dropout bn reg ws dt seed = Ok (s, g') ->
  forall l, (1 <= l <= length hidden + 1)%nat ->
    exists d0 d1 W b,
      layer_dims D hidden C !! (l - 1)%nat = Some d0
      /\ layer_dims D hidden C !! l = Some d1
      /\ params s !! ("W" +:+ str l) = Some W
      /\ params s !! ("b" +:+ str l) = Some b
      /\ shape W = [Z.to_nat d0; Z.to_nat d1]
      /\ shape b = [Z.to_nat d1]
      /\ length (data W) = np_prod (shape W)
      /\ length (data b) = np_prod (shape b).
Proof.
  intros Hs l Hl.
  destruct (init_params_lookup _ _ _ _ _ _ _ _ _ _ _ _ Hs) as (Ws & bs & Hloop & Hlook).
  destruct (init_layer_loop_shapes _ _ _ _ _ _ _ Hloop (l - 1)%nat ltac:(lia))
    as (d0 & d1 & W & b & Hd0 & Hd1 & _ & _ & HW & Hb & HsW & HlW & Hsb & Hlb).
  replace (l - 1 + 1)%nat with l in * by lia.
  exists d0, d1, (astype dt W), (astype dt b). unfold layer_dims.
  destruct (Hlook l) as [-> ->]. rewrite HW, Hb. cbn [fmap option_fmap option_map].
  repeat (split; [first [assumption|reflexivity]|]).
  cbn [astype shape data]. rewrite !length_map, HsW, Hsb, HlW, Hlb.
  cbn [np_prod fold_right]. split; lia.
Qed.

Lemma FullyConnectedNet_init_shapes_witness :
  exists s : self,
    forall l, (1 <= l <= 2)%nat ->
      exists d0 d1 W b,
        layer_dims 3 [2%Z] 1 !! (l - 1)%nat = Some d0
        /\ layer_dims 3 [2%Z] 1 !! l = Some d1
        /\ params s !! ("W" +:+ str l) = Some W
        /\ params s !! ("b" +:+ str l) = Some b
        /\ shape W = [Z.to_nat d0; Z.to_nat d1]
        /\ shape b = [Z.to_nat d1]
        /\ length (data W) = np_prod (shape W)
        /\ length (data b) = np_prod (shape b).
Proof.
  destruct (init rng_half (PyList [2%Z]) 3 1 0 true 0 1 exact None)
    as [e|[s g1]] eqn:Hs; [vm_compute in Hs; discriminate|].
  exists s.
  exact (FullyConnectedNet_init_shapes rng_half g1 [2%Z] 3 1 0 true 0 1 exact
           None s Hs).
Defined.

End InitialShapes.

(** ** One hidden layer *)

Section OneHiddenLayer.
Import Numpy FullyConnectedNet.
Variable Ly : Layers.

Lemma str_0 : str 0 = "0".
Proof. reflexivity. Qed.
Lemma str_1 : str 1 = "1".
Proof. reflexivity. Qed.
Lemma str_2 : str 2 = "2".
Proof. reflexivity. Qed.

(** On a batch of shape [(n, d)] and without datatype conversion, a
    FullyConnectedNet with one hidden layer and no batch normalization
    returns at test time what a TwoLayerNet holding the same parameters
    returns: the scores of affine - relu - affine, or the same exception. *)
Theorem one_hidden_layer_scores (sf : self) (st : TwoLayerNet.self)
    (X : ndarray) (n d : nat) :
  FullyConnectedNet.L sf = 2%nat ->
  use_batchnorm sf = false ->
  dtype_of sf = exact ->
  TwoLayerNet.params st = params sf ->
  TwoLayerNet.D st = Z.of_nat d ->
  shape X = [n; d] ->
  (forall k, In k ["W1"; "b1"; "W2"; "b2"] -> is_Some (params sf !! k)) ->
  snd (loss Ly sf X None) = TwoLayerNet.loss Ly st X None.
Proof.
  intros HL Hbn Hdt Hp HD HX Hkeys.
  destruct (Hkeys "W1" ltac:(cbn; auto)) as [W1 HW1].
  destruct (Hkeys "b1" ltac:(cbn; auto)) as [b1 Hb1].
  destruct (Hkeys "W2" ltac:(cbn; auto)) as [W2 HW2].
  destruct (Hkeys "b2" ltac:(cbn; auto 6)) as [b2 Hb2].
  unfold TwoLayerNet.loss, dict_get. rewrite Hp, HW1, Hb1, HW2, Hb2. cbn [bind].
  unfold shape0, reshape2. rewrite HX, HD. cbn [bind].
  destruct (Z.ltb_spec (Z.of_nat d) (-1)) as [?|_]; [lia|].
  destruct (Z.eqb_spec (Z.of_nat d) (-1)) as [?|_]; [lia|].
  rewrite Nat2Z.id. cbn [np_prod fold_right]. rewrite Nat.mul_1_r, Nat.eqb_refl.
  cbn [bind].
  unfold loss, set_bn_mode. cbn [set_dropout_mode use_batchnorm]. rewrite Hbn.
  cbn [snd dtype_of]. rewrite Hdt.
  unfold forward, shape0. cbn [astype shape data exact cast]. rewrite HX, map_id.
  cbn [bind List.tl np_prod fold_right FullyConnectedNet.L].
  change (FullyConnectedNet.L (set_dropout_mode sf "test")) with (FullyConnectedNet.L sf).
  rewrite HL, Nat.mul_1_r. cbn [range seq for_in].
  unfold forward_step, dict_get.
  change (params (set_dropout_mode sf "test")) with (params sf).
  change (FullyConnectedNet.L (set_dropout_mode sf "test")) with (FullyConnectedNet.L sf).
  rewrite HL. cbn [Nat.add Nat.sub Nat.eqb]. rewrite str_0, str_1, str_2.
  change ("W" +:+ "1") with "W1". change ("b" +:+ "1") with "b1".
  change ("W" +:+ "2") with "W2". change ("b" +:+ "2") with "b2".
  change ("hidden" +:+ "0") with "hidden0". change ("hidden" +:+ "1") with "hidden1".
  change ("hidden" +:+ "2") with "hidden2".
  change ("cache_hidden" +:+ "1") with "cache_hidden1".
  change ("cache_hidden" +:+ "2") with "cache_hidden2".
  rewrite HW1, Hb1. cbn [bind]. rewrite lookup_insert_eq. cbn [bind as_arr].
  rewrite HW2, Hb2.
  destruct (affine_relu_forward Ly _ W1 b1) as [e|[hidden c1]]; [reflexivity|].
  cbn [bind]. rewrite lookup_insert_ne by discriminate.
  rewrite lookup_insert_eq. cbn [bind as_arr].
  destruct (affine_forward Ly hidden W2 b2) as [e|[scores c2]]; [reflexivity|].
  cbn [bind]. rewrite lookup_insert_ne by discriminate.
  rewrite lookup_insert_eq. reflexivity.
Qed.

End OneHiddenLayer.

Section ModelStateExamples.
Import Numpy FullyConnectedNet.

Lemma one_hidden_layer_scores_witness :
  exists (sf : self) (st : TwoLayerNet.self),
    TwoLayerNet.params st = params sf
    /\ snd (loss zero_layers sf X_one None)
       = TwoLayerNet.loss zero_layers st X_one None.
Proof.
  destruct (init rng_half (PyList [1%Z]) 1 1 0 false 0 1 exact None)
    as [e|[sf g1]] eqn:Hs; [vm_compute in Hs; discriminate|].
  exists sf, (TwoLayerNet.mkself (params sf) 0 1 1 1).
  split; [reflexivity|].
  destruct (init_inv _ _ _ _ _ _ _ _ _ _ _ _ Hs)
    as (l0 & Ws & bs & extra & [= <-] & _ & HL & Hdt & Hbn & _).
  apply (one_hidden_layer_scores zero_layers sf
           (TwoLayerNet.mkself (params sf) 0 1 1 1) X_one 1 1).
  - exact HL.
  - exact Hbn.
  - exact Hdt.
  - reflexivity.
  - reflexivity.
  - reflexivity.
  - intros k Hk.
    destruct (FullyConnectedNet_init_weights _ _ _ _ _ _ _ _ _ _ _ _ Hs 1%nat
                ltac:(cbn; lia)) as (W1 & b1 & HW1 & Hb1 & _).
    destruct (FullyConnectedNet_init_weights _ _ _ _ _ _ _ _ _ _ _ _ Hs 2%nat
                ltac:(cbn; lia)) as (W2 & b2 & HW2 & Hb2 & _).
    destruct Hk as [<-|[<-|[<-|[<-|[]]]]]; eauto.
Defined.

Lemma batchnorm_mode_stays_train_witness :
  exists s : self,
    bn_modes_train s /\ bn_modes_train (fst (loss zero_layers s X_one None)).
Proof.
  destruct (init rng_half (PyList [1%Z]) 1 1 0 true 0 1 exact None)
    as [e|[s g1]] eqn:Hs; [vm_compute in Hs; discriminate|].
  exists s.
  destruct (batchnorm_mode_stays_train zero_layers rng_half g1 [1%Z] 1 1 0 0 1
              exact None s Hs) as [Hinit Hkeep].
  split; [exact Hinit|]. apply Hkeep. exact Hinit.
Defined.


End ModelStateExamples.

(** ** The batch a TwoLayerNet accepts; the samples a construction draws *)

Section MoreOnModels.
Import Numpy.
Variable Ly : Layers.

(** A constructed TwoLayerNet checks the batch before any layer runs: a
    batch without dimensions raises IndexError at [X.shape[0]], and a batch
    whose size is not [N * input_dim] raises the ValueError of [reshape]. *)
Theorem TwoLayerNet_loss_rejects_wrong_size (g g' : RandomState) (D M C : Z)
    (ws reg : R) (s : TwoLayerNet.self) (X : ndarray) (y : option (list Z)) :
  TwoLayerNet.init g D M C ws reg = Ok (s, g') ->
  (shape X = [] -> TwoLayerNet.loss Ly s X y = Raise IndexError)
  /\ (forall n rest, shape X = n :: rest ->
        np_prod (shape X) <> (n * Z.to_nat D)%nat ->
        TwoLayerNet.loss Ly s X y = Raise cannot_reshape).
Proof.
  unfold TwoLayerNet.init, np_random_randn, np_zeros. intros Hs.
  destruct (Z.ltb_spec D 0) as [?|HD]; cbn [orb bind] in Hs; [discriminate|].
  destruct (Z.ltb_spec M 0) as [?|HM]; cbn [orb bind] in Hs; [discriminate|].
  destruct (Z.ltb_spec C 0) as [?|HC]; cbn [orb bind] in Hs; [discriminate|].
  injection Hs as <- _.
  unfold TwoLayerNet.loss, dict_get. cbn [TwoLayerNet.params TwoLayerNet.D].
  rewrite (right_id_L ∅ (∪)). cbn [list_to_map foldr fst snd uncurry].
  repeat (rewrite lookup_insert_eq || rewrite lookup_insert_ne by discriminate).
  cbn [bind]. unfold shape0, reshape2. split.
  - intros ->. reflexivity.
  - intros n rest HX Hsize. rewrite HX in *. cbn [bind].
    destruct (Z.ltb_spec D (-1)) as [?|_]; [lia|].
    destruct (Z.eqb_spec D (-1)) as [?|_]; [lia|].
    destruct (Nat.eqb_spec (n * Z.to_nat D) (np_prod (n :: rest))) as [Heq|_];
      [congruence|]. reflexivity.
Qed.

End MoreOnModels.

Section MoreOnModelsExamples.
Import Numpy.

Lemma TwoLayerNet_loss_rejects_wrong_size_witness :
  exists s : TwoLayerNet.self,
    (shape X_one = [] -> TwoLayerNet.loss zero_layers s X_one None = Raise IndexError)
    /\ (forall n rest, shape X_one = n :: rest ->
          np_prod (shape X_one) <> (n * Z.to_nat 3)%nat ->
          TwoLayerNet.loss zero_layers s X_one None = Raise cannot_reshape).
Proof.
  destruct (TwoLayerNet.init rng_half 3 1 1 1 0) as [e|[s g1]] eqn:Hs;
    [vm_compute in Hs; discriminate|].
  exists s.
  exact (TwoLayerNet_loss_rejects_wrong_size zero_layers rng_half g1 3 1 1 1 0 s
           X_one None Hs).
Defined.

End MoreOnModelsExamples.

(** ** The samples a construction draws *)

Section InitialSamples.
Import Numpy FullyConnectedNet.
Local Open Scope R_scope.

Lemma init_layer_loop_samples (dims : list Z) (ws : R) (g gn : RandomState)
    (n : nat) (Ws bs : gmap string ndarray) :
  for_in (range n) (init_layer dims ws) (∅, ∅, g) = Ok (Ws, bs, gn) ->
  uniform gn = uniform g
  /\ consumed gn = (consumed g + samples_before dims n)%nat
  /\ forall j, (j < n)%nat ->
       exists W,
         Ws !! ("W" +:+ str (j + 1)) = Some W
         /\ data W
            = map (fun k => ws * uniform g k)
                (seq (consumed g + samples_before dims j)
                   (samples_before dims (S j) - samples_before dims j)).
Proof.
  revert Ws bs gn. unfold range.
  induction n as [|n IH]; intros Ws bs gn Hrun.
  - cbn in Hrun. injection Hrun as <- <- <-.
    split; [reflexivity|]. split; [cbn; lia|]. intros j Hj. lia.
  - rewrite seq_S, for_in_app in Hrun. cbn [Nat.add] in Hrun.
    destruct (for_in (seq 0 n) _ _) as [e|[[Ws1 bs1] g1]] eqn:H1;
      cbn [bind for_in] in Hrun; [discriminate|].
    destruct (IH _ _ _ eq_refl) as (Hu & Hc & Hprev).
    destruct (init_layer dims ws n (Ws1, bs1, g1)) as [e|[[Ws2 bs2] g2]] eqn:Hstep;
      cbn [bind] in Hrun; [discriminate|].
    injection Hrun as <- <- <-.
    unfold init_layer, list_get in Hstep.
    destruct (dims !! n) as [d0|] eqn:Hd0; cbn [bind] in Hstep; [|discriminate].
    destruct (dims !! (n + 1)%nat) as [d1|] eqn:Hd1; cbn [bind] in Hstep;
      [|discriminate].
    unfold np_random_rand, np_zeros in Hstep.
    destruct (_ || _)%Z; cbn [bind] in Hstep; [discriminate|].
    destruct (d1 <? 0)%Z; cbn [bind] in Hstep; [discriminate|].
    injection Hstep as <- <- <-.
    rewrite Nat.add_1_r in Hd1.
    assert (Hsize : samples_before dims (S n)
                    = (samples_before dims n + Z.to_nat d0 * Z.to_nat d1)%nat).
    { cbn [samples_before].
      rewrite (nth_lookup_Some _ _ 0%Z _ Hd0), (nth_lookup_Some _ _ 0%Z _ Hd1).
      reflexivity. }
    split; [exact Hu|]. split; [cbn [advance consumed]; lia|].
    intros j Hj. destruct (Nat.eq_dec j n) as [->|Hne].
    + eexists. rewrite lookup_insert_eq. split; [reflexivity|].
      cbn [scale data]. rewrite map_map, Hu, Hc, Hsize.
      replace (samples_before dims n + Z.to_nat d0 * Z.to_nat d1
               - samples_before dims n)%nat
        with (Z.to_nat d0 * Z.to_nat d1)%nat by lia.
      reflexivity.
    + destruct (Hprev j ltac:(lia)) as (W & HW & HdW).
      exists W. rewrite lookup_insert_ne; [auto|].
      intros Heq. apply weight_key_inj in Heq. lia.
Qed.

(** [FullyConnectedNet.__init__] takes the weights of the layers from the
    generator one after the other: layer [j + 1] holds, in order, the samples
    that follow those of the layers before it, so no sample is stored twice,
    and the generator ends advanced by the number of weights.  Batch
    normalization and dropout draw nothing. *)
Theorem FullyConnectedNet_init_samples (g g' : RandomState) (hidden : list Z)
    (D C : Z) (dropout : R) (bn : bool) (reg ws : R) (dt : dtype)
    (seed : option Z) (s : self) :
  init g (PyList hidden) D C dropout bn reg ws dt seed = Ok (s, g') ->
  let dims := [D] ++ hidden ++ [C] in
  uniform g' = uniform g
  /\ consumed g' = (consumed g + samples_before dims (length hidden + 1))%nat
  /\ forall j, (j < length hidden + 1)%nat ->
       exists W,
         params s !! ("W" +:+ str (j + 1)) = Some W
         /\ data W
            = map (fun k => cast dt (ws * uniform g k))
                (seq (consumed g + samples_before dims j)
                   (samples_before dims (S j) - samples_before dims j)).
Proof.
  intros Hs dims.
  destruct (init_params_lookup _ _ _ _ _ _ _ _ _ _ _ _ Hs) as (Ws & bs & Hloop & Hp).
  destruct (init_layer_loop_samples _ _ _ _ _ _ _ Hloop) as (Hu & Hc & Hlayers).
  split; [exact Hu|]. split; [exact Hc|]. intros j Hj.
  destruct (Hlayers j Hj) as (W & HW & HdW).
  exists (astype dt W). destruct (Hp (j + 1)%nat) as [-> _]. rewrite HW.
  split; [reflexivity|]. cbn [astype data]. fold dims in HdW. rewrite HdW, map_map.
  reflexivity.
Qed.

Lemma FullyConnectedNet_init_samples_witness :
  exists (s : self) (g' : RandomState),
    let dims := [2%Z] ++ [3%Z] ++ [2%Z] in
    uniform g' = uniform rng_half
    /\ consumed g' = (consumed rng_half + samples_before dims (length [3%Z] + 1))%nat
    /\ forall j, (j < length [3%Z] + 1)%nat ->
         exists W,
           params s !! ("W" +:+ str (j + 1)) = Some W
           /\ data W
              = map (fun k => cast exact (1 * uniform rng_half k))
                  (seq (consumed rng_half + samples_before dims j)
                     (samples_before dims (S j) - samples_before dims j)).
Proof.
  destruct (init rng_half (PyList [3%Z]) 2 2 0 true 0 1 exact None)
    as [e|[s g1]] eqn:Hs; [vm_compute in Hs; discriminate|].
  exists s, g1.
  exact (FullyConnectedNet_init_samples rng_half g1 [3%Z] 2 2 0 true 0 1 exact
           None s Hs).
Defined.

End InitialSamples.
